(** * kube-batch: node bookkeeping and scheduler configuration

    A shallow embedding of [pkg/scheduler/api/node_info.go] and of
    [loadSchedulerConf] (package [scheduler]).

    Go pointers are locations of a typed store; a method with a pointer
    receiver is a computation in a state monad over that store, whose
    failure is a run-time panic (dereference of a pointer that holds no
    object).  A Go [error] result is an [option Error]. *)

From stdpp Require Import gmap strings list fin_maps pretty.

Module Api.

(** ** Resource vectors *)

(** Modelled from the spec: the Resource type and its methods
    ([EmptyResource], [NewResource], [Clone], [Add], [Sub], [LessEqual])
    live in a source file that is not part of the sources at hand.  The
    spec (sections 3 and 4.1) describes a vector over the dimensions
    milliCPU, memory and GPU, with component-wise addition and subtraction,
    no negative component, and a subtraction that, on a larger value,
    clamps at zero and is a policy error surfaced to the caller. *)
Record Resource := mkResource {
  MilliCPU : N;
  Memory   : N;
  MilliGPU : N
}.

#[global] Instance Resource_eq_dec : EqDecision Resource.
Proof. solve_decision. Defined.

(** Modelled from the spec: the empty vector, every dimension at zero. *)
Definition zeroResource : Resource := mkResource 0 0 0.

(** Modelled from the spec: addition is component-wise (section 4.1). *)
Definition radd (r rr : Resource) : Resource :=
  mkResource (MilliCPU r + MilliCPU rr) (Memory r + Memory rr)
             (MilliGPU r + MilliGPU rr).

(** Modelled from the spec: subtraction is component-wise, and [Sub] on a
    larger value clamps to zero (section 3); [N.sub] is the truncated
    difference. *)
Definition rsub (r rr : Resource) : Resource :=
  mkResource (MilliCPU r - MilliCPU rr) (Memory r - Memory rr)
             (MilliGPU r - MilliGPU rr).

(** Modelled from the spec: [LessEqual(a,b)] is true iff every dimension
    of [a] is at most the same dimension of [b] (section 4.1); [rle] is
    the same order as a proposition. *)
Definition rle (r rr : Resource) : Prop :=
  (MilliCPU r <= MilliCPU rr)%N /\ (Memory r <= Memory rr)%N /\
  (MilliGPU r <= MilliGPU rr)%N.

(** Modelled from the spec: the boolean [LessEqual] of section 4.1. *)
Definition LessEqual (r rr : Resource) : bool :=
  (MilliCPU r <=? MilliCPU rr)%N && (Memory r <=? Memory rr)%N &&
  (MilliGPU r <=? MilliGPU rr)%N.

(** ** Kubernetes objects *)

(** Modelled from the spec: [v1.Pod] is an external type; the code reads
    its namespace and name (through [PodKey]) and hands it to
    [CheckBackfill]; annotations are what the test builder fills in. *)
Record Pod := mkPod {
  PodNamespace   : string;
  PodName        : string;
  PodAnnotations : gmap string string
}.

(** Modelled from the spec: [v1.Node] is an external type; the code reads
    its name and the allocatable and capacity lists of its status.  A
    resource list is kept as the vector [NewResource] makes of it. *)
Record Node := mkNode {
  NodeName          : string;
  StatusAllocatable : Resource;
  StatusCapacity    : Resource
}.

(** Modelled from the spec: the closed set of task statuses (section 3). *)
Inductive TaskStatus :=
  | Pending | Allocated | Pipelined | Bound | Running
  | Releasing | Succeeded | Failed | Unknown.

#[global] Instance TaskStatus_eq_dec : EqDecision TaskStatus.
Proof. solve_decision. Defined.

(** Modelled from the spec: a [TaskID] is the key of a task, a string. *)
Definition TaskID := string.

(** Modelled from the spec: [PodKey] is not part of the sources at hand;
    the stable key of a task is namespace/name (section 3). *)
Definition PodKey (p : Pod) : TaskID :=
  PodNamespace p +:+ "/" +:+ PodName p.

(** Modelled from the spec: the attributes of [TaskInfo] (section 3).
    The request is only ever read by the code embedded here (it is never
    the receiver of [Add] or [Sub]), so it is kept by value. *)
Record TaskInfo := mkTaskInfo {
  Job        : string;
  Name       : string;
  Namespace  : string;
  NodeNameOf : string;
  Priority   : Z;
  Status     : TaskStatus;
  TaskPod    : Pod;
  Resreq     : Resource;
  IsBackfill : bool
}.

(** The assignment [ti.IsBackfill = b]. *)
Definition setIsBackfill (b : bool) (t : TaskInfo) : TaskInfo :=
  mkTaskInfo (Job t) (Name t) (Namespace t) (NodeNameOf t) (Priority t)
             (Status t) (TaskPod t) (Resreq t) b.

(** ** The store *)

Definition loc := positive.

(** [NodeInfo], field by field; the six counters are [*Resource], the
    task map holds [*TaskInfo].  The field [Releasing] is written
    [Releasing_] here, [Name] and [Node] are [NName] and [NNode]: the plain
    names are taken by the status and by the types. *)
Record NodeInfo := mkNodeInfo {
  NName       : string;
  NNode       : option Node;
  Releasing_  : loc;
  Idle        : loc;
  Used        : loc;
  Backfilled  : loc;
  Allocatable : loc;
  Capability  : loc;
  Tasks       : gmap TaskID loc
}.

Definition setTasks (m : gmap TaskID loc) (n : NodeInfo) : NodeInfo :=
  mkNodeInfo (NName n) (NNode n) (Releasing_ n) (Idle n) (Used n)
             (Backfilled n) (Allocatable n) (Capability n) m.

Record Store := mkStore {
  resources : gmap loc Resource;
  taskinfos : gmap loc TaskInfo;
  nodeinfos : gmap loc NodeInfo
}.

Definition emptyStore : Store := mkStore ∅ ∅ ∅.

(** Computations on the store; [None] is a panic. *)
Definition M (A : Type) : Type := Store -> option (A * Store).

#[global] Instance M_ret : MRet M := fun A a s => Some (a, s).
#[global] Instance M_bind : MBind M := fun A B f m s =>
  match m s with
  | Some (a, s') => f a s'
  | None => None
  end.

Definition setRes (l : loc) (r : Resource) (s : Store) : Store :=
  mkStore (<[l:=r]> (resources s)) (taskinfos s) (nodeinfos s).

Definition setTask (l : loc) (t : TaskInfo) (s : Store) : Store :=
  mkStore (resources s) (<[l:=t]> (taskinfos s)) (nodeinfos s).

Definition setNode (l : loc) (n : NodeInfo) (s : Store) : Store :=
  mkStore (resources s) (taskinfos s) (<[l:=n]> (nodeinfos s)).

Definition getResource (l : loc) : M Resource := fun s =>
  match resources s !! l with Some r => Some (r, s) | None => None end.

Definition putResource (l : loc) (r : Resource) : M unit := fun s =>
  match resources s !! l with
  | Some _ => Some (tt, setRes l r s)
  | None => None
  end.

Definition allocResource (r : Resource) : M loc := fun s =>
  let l := fresh (dom (resources s)) in Some (l, setRes l r s).

Definition getTask (l : loc) : M TaskInfo := fun s =>
  match taskinfos s !! l with Some t => Some (t, s) | None => None end.

Definition putTask (l : loc) (t : TaskInfo) : M unit := fun s =>
  match taskinfos s !! l with
  | Some _ => Some (tt, setTask l t s)
  | None => None
  end.

Definition allocTask (t : TaskInfo) : M loc := fun s =>
  let l := fresh (dom (taskinfos s)) in Some (l, setTask l t s).

Definition getNode (l : loc) : M NodeInfo := fun s =>
  match nodeinfos s !! l with Some n => Some (n, s) | None => None end.

Definition putNode (l : loc) (n : NodeInfo) : M unit := fun s =>
  match nodeinfos s !! l with
  | Some _ => Some (tt, setNode l n s)
  | None => None
  end.

Definition allocNode (n : NodeInfo) : M loc := fun s =>
  let l := fresh (dom (nodeinfos s)) in Some (l, setNode l n s).

Definition skip : M unit := mret tt.

(** ** Methods of Resource on the store *)

(** Modelled from the spec: [EmptyResource] returns a new object, the
    empty vector. *)
Definition EmptyResource : M loc := allocResource zeroResource.

(** Modelled from the spec: [NewResource] returns a new object, the
    vector of the resource list it is given. *)
Definition NewResource (rl : Resource) : M loc := allocResource rl.

(** Modelled from the spec: [Resource.Clone] returns a new object with
    the components of the receiver. *)
Definition Resource_Clone (l : loc) : M loc :=
  r ← getResource l; allocResource r.

(** Modelled from the spec: [Resource.Add] adds its argument to the
    receiver, in place, and returns the receiver (the code chains
    [idle.Add(...).Clone()] and calls [Add] for its effect alone). *)
Definition Resource_Add (l : loc) (rr : Resource) : M loc :=
  r ← getResource l; putResource l (radd r rr);; mret l.

(** Modelled from the spec: the policy error of [Sub] (section 3): the
    receiver [r] held less than the argument [rr] in some dimension. *)
Inductive PolicyError :=
  | ErrInsufficient (r rr : Resource).

(** Modelled from the spec: what [Sub] surfaces to its caller: nothing
    when the argument is at most the receiver ([LessEqual]), the policy
    error when it is larger. *)
Definition subError (r rr : Resource) : option PolicyError :=
  if LessEqual rr r then None else Some (ErrInsufficient r rr).

(** Modelled from the spec: [Resource.Sub] takes its argument from the
    receiver, in place.  "[Sub] on a larger value clamps to zero and is
    considered a policy error surfaced to the caller" (section 3): the
    receiver is clamped and the error is returned beside it.  The callers
    in node_info.go call [Sub] as a statement, for its effect alone, and
    so do not look at what it returns. *)
Definition Resource_Sub (l : loc) (rr : Resource)
    : M (loc * option PolicyError) :=
  r ← getResource l; putResource l (rsub r rr);; mret (l, subError r rr).

(** Modelled from the spec: [TaskInfo.Clone] returns a new object with the
    same attributes (section 3, Ownership). *)
Definition TaskInfo_Clone (l : loc) : M loc :=
  t ← getTask l; allocTask t.

(** ** NodeInfo *)

(** The two errors built with [fmt.Errorf] in this file, with the values
    that fill their format strings. *)
Inductive Error :=
  | ErrTaskAlreadyOnNode (ns name node : string)
  | ErrTaskNotOnHost (ns name host : string).

Section NodeInfoMethods.

(** [CheckBackfill] is declared in a source file that is not at hand; it
    is a predicate on the pod and is taken as a parameter. *)
Variable CheckBackfill : Pod -> bool.

(** The order in which [range] walks a Go map is chosen by the run time:
    it is a parameter, some enumeration of the entries of the map. *)
Variable rangeOrder : gmap TaskID loc -> list (TaskID * loc).

Definition NewNodeInfo (node : option Node) : M loc :=
  match node with
  | None =>
      releasing ← EmptyResource;
      idle ← EmptyResource;
      used ← EmptyResource;
      backfilled ← EmptyResource;
      allocatable ← EmptyResource;
      capability ← EmptyResource;
      allocNode (mkNodeInfo "" None releasing idle used backfilled
                            allocatable capability ∅)
  | Some nd =>
      releasing ← EmptyResource;
      idle ← NewResource (StatusAllocatable nd);
      used ← EmptyResource;
      backfilled ← EmptyResource;
      allocatable ← NewResource (StatusAllocatable nd);
      capability ← NewResource (StatusCapacity nd);
      allocNode (mkNodeInfo (NodeName nd) (Some nd) releasing idle used
                            backfilled allocatable capability ∅)
  end.

Definition AddTask (ni task : loc) : M (option Error) :=
  n ← getNode ni;
  t ← getTask task;
  let key := PodKey (TaskPod t) in
  match Tasks n !! key with
  | Some _ =>
      mret (Some (ErrTaskAlreadyOnNode (Namespace t) (Name t) (NName n)))
  | None =>
      (* Node will hold a copy of task *)
      ti ← TaskInfo_Clone task;
      c ← getTask ti;
      (if CheckBackfill (TaskPod c) && negb (IsBackfill c)
       then putTask ti (setIsBackfill true c)
       else skip);;
      match NNode n with
      | Some _ =>
          orig ← getTask task;
          (if IsBackfill orig
           then Resource_Add (Backfilled n) (Resreq orig);; skip
           else skip);;
          c ← getTask ti;
          match Status c with
          | Releasing =>
              Resource_Add (Releasing_ n) (Resreq c);;
              Resource_Sub (Idle n) (Resreq c);; skip
          | Pipelined =>
              Resource_Sub (Releasing_ n) (Resreq c);; skip
          | _ =>
              Resource_Sub (Idle n) (Resreq c);; skip
          end;;
          Resource_Add (Used n) (Resreq c);; skip
      | None => skip
      end;;
      putNode ni (setTasks (<[key:=ti]> (Tasks n)) n);;
      mret None
  end.

Definition RemoveTask (ni ti : loc) : M (option Error) :=
  n ← getNode ni;
  t ← getTask ti;
  let key := PodKey (TaskPod t) in
  match Tasks n !! key with
  | None =>
      mret (Some (ErrTaskNotOnHost (Namespace t) (Name t) (NName n)))
  | Some task =>
      match NNode n with
      | Some _ =>
          c ← getTask task;
          (if IsBackfill c
           then Resource_Sub (Backfilled n) (Resreq c);; skip
           else skip);;
          match Status c with
          | Releasing =>
              Resource_Sub (Releasing_ n) (Resreq c);;
              Resource_Add (Idle n) (Resreq c);; skip
          | Pipelined =>
              Resource_Add (Releasing_ n) (Resreq c);; skip
          | _ =>
              Resource_Add (Idle n) (Resreq c);; skip
          end;;
          Resource_Sub (Used n) (Resreq c);; skip
      | None => skip
      end;;
      putNode ni (setTasks (delete key (Tasks n)) n);;
      mret None
  end.

Definition UpdateTask (ni ti : loc) : M (option Error) :=
  err ← RemoveTask ni ti;
  match err with
  | Some e => mret (Some e)
  | None => AddTask ni ti
  end.

(** [for _, task := range ni.Tasks { newNode.AddTask(task) }]: the error
    of [AddTask] is dropped. *)
Fixpoint cloneTasks (newNode : loc) (ts : list (TaskID * loc)) : M unit :=
  match ts with
  | [] => skip
  | (_, task) :: rest => AddTask newNode task;; cloneTasks newNode rest
  end.

Definition Clone (ni : loc) : M loc :=
  n ← getNode ni;
  newNode ← NewNodeInfo (NNode n);
  (* the log line reads the MilliCPU field of all six counters *)
  getResource (Capability n);; getResource (Allocatable n);;
  getResource (Idle n);; getResource (Used n);;
  getResource (Backfilled n);; getResource (Releasing_ n);;
  cloneTasks newNode (rangeOrder (Tasks n));;
  mret newNode.

(** The loop of [SetNode]; [ni] is read again at every turn since the
    fields were just reassigned. *)
Fixpoint setNodeTasks (ni : loc) (ts : list (TaskID * loc)) : M unit :=
  match ts with
  | [] => skip
  | (_, task) :: rest =>
      n ← getNode ni;
      t ← getTask task;
      (if decide (Status t = Releasing)
       then Resource_Add (Releasing_ n) (Resreq t);; skip
       else skip);;
      Resource_Sub (Idle n) (Resreq t);;
      Resource_Add (Used n) (Resreq t);;
      setNodeTasks ni rest
  end.

Definition SetNode (ni : loc) (node : Node) : M unit :=
  n ← getNode ni;
  allocatable ← NewResource (StatusAllocatable node);
  capability ← NewResource (StatusCapacity node);
  idle ← NewResource (StatusAllocatable node);
  putNode ni (mkNodeInfo (NodeName node) (Some node) (Releasing_ n) idle
                         (Used n) (Backfilled n) allocatable capability
                         (Tasks n));;
  setNodeTasks ni (rangeOrder (Tasks n)).

Definition GetAccessibleResource (ni : loc) : M loc :=
  n ← getNode ni;
  idle ← Resource_Clone (Idle n);
  b ← getResource (Backfilled n);
  sum ← Resource_Add idle b;
  accessible ← Resource_Clone sum;
  mret accessible.

End NodeInfoMethods.

(** ** What a node holds

    The values found behind the pointers of a [NodeInfo]: the view of a
    node in a store.  The view is defined only when the node and its six
    counters are allocated. *)
Record NodeView := mkNodeView {
  vNode        : option Node;
  vReleasing   : Resource;
  vIdle        : Resource;
  vUsed        : Resource;
  vBackfilled  : Resource;
  vAllocatable : Resource;
  vCapability  : Resource;
  vTasks       : gmap TaskID TaskInfo
}.

Definition derefTasks (s : Store) (m : gmap TaskID loc) : gmap TaskID TaskInfo :=
  omap (fun l => taskinfos s !! l) m.

Definition viewOf (s : Store) (n : NodeInfo) : option NodeView :=
  rel ← resources s !! Releasing_ n;
  idle ← resources s !! Idle n;
  used ← resources s !! Used n;
  bf ← resources s !! Backfilled n;
  alloc ← resources s !! Allocatable n;
  cap ← resources s !! Capability n;
  Some (mkNodeView (NNode n) rel idle used bf alloc cap
                   (derefTasks s (Tasks n))).

Definition view (s : Store) (ni : loc) : option NodeView :=
  n ← nodeinfos s !! ni; viewOf s n.

(** The counters of a node, as the constructors lay them out: six objects
    of their own. *)
Definition counterLocs (n : NodeInfo) : list loc :=
  [Releasing_ n; Idle n; Used n; Backfilled n; Allocatable n; Capability n].

Definition wfNodeInfo (s : Store) (n : NodeInfo) : Prop :=
  NoDup (counterLocs n) /\
  map_Forall (fun _ l => is_Some (taskinfos s !! l)) (Tasks n).

Definition wfNode (s : Store) (ni : loc) : Prop :=
  match nodeinfos s !! ni with
  | Some n => wfNodeInfo s n
  | None => False
  end.

(** One store extends another when every object of the first is found
    unchanged in the second. *)
Definition extends (s s' : Store) : Prop :=
  resources s ⊆ resources s' /\ taskinfos s ⊆ taskinfos s' /\
  nodeinfos s ⊆ nodeinfos s'.

(** Sum of the requests of the tasks selected by [p]. *)
Definition sumReq (p : TaskInfo -> bool) (m : gmap TaskID TaskInfo) : Resource :=
  map_fold (fun _ t acc => if p t then radd acc (Resreq t) else acc)
           zeroResource m.

Definition isStatus (st : TaskStatus) (t : TaskInfo) : bool :=
  bool_decide (Status t = st).

Section Effects.

Variable CheckBackfill : Pod -> bool.

(** The copy of a task that [AddTask] stores. *)
Definition storedCopy (t : TaskInfo) : TaskInfo :=
  if CheckBackfill (TaskPod t) && negb (IsBackfill t)
  then setIsBackfill true t else t.

(** The effect of a successful [AddTask] on the view of the node. *)
Definition addTaskView (t : TaskInfo) (v : NodeView) : NodeView :=
  let r := Resreq t in
  let tasks := <[PodKey (TaskPod t) := storedCopy t]> (vTasks v) in
  match vNode v with
  | Some _ =>
      mkNodeView (vNode v)
        (match Status t with
         | Releasing => radd (vReleasing v) r
         | Pipelined => rsub (vReleasing v) r
         | _ => vReleasing v
         end)
        (match Status t with
         | Pipelined => vIdle v
         | _ => rsub (vIdle v) r
         end)
        (radd (vUsed v) r)
        (if IsBackfill t then radd (vBackfilled v) r else vBackfilled v)
        (vAllocatable v) (vCapability v) tasks
  | None =>
      mkNodeView (vNode v) (vReleasing v) (vIdle v) (vUsed v)
        (vBackfilled v) (vAllocatable v) (vCapability v) tasks
  end.

(** The effect of a successful [RemoveTask] of the task stored under
    [key], whose value is [c]. *)
Definition removeTaskView (key : TaskID) (c : TaskInfo) (v : NodeView) : NodeView :=
  let r := Resreq c in
  let tasks := delete key (vTasks v) in
  match vNode v with
  | Some _ =>
      mkNodeView (vNode v)
        (match Status c with
         | Releasing => rsub (vReleasing v) r
         | Pipelined => radd (vReleasing v) r
         | _ => vReleasing v
         end)
        (match Status c with
         | Pipelined => vIdle v
         | _ => radd (vIdle v) r
         end)
        (rsub (vUsed v) r)
        (if IsBackfill c then rsub (vBackfilled v) r else vBackfilled v)
        (vAllocatable v) (vCapability v) tasks
  | None =>
      mkNodeView (vNode v) (vReleasing v) (vIdle v) (vUsed v)
        (vBackfilled v) (vAllocatable v) (vCapability v) tasks
  end.

(** The resources of the store after a successful [AddTask] of a task
    of value [t] to the node [n]: every [Add] and [Sub] of the body, in
    program order, as an in-place update of the receiver. *)
Definition addTaskResources (n : NodeInfo) (t : TaskInfo)
    (m : gmap loc Resource) : gmap loc Resource :=
  let r := Resreq t in
  match NNode n with
  | Some _ =>
      let m1 := if IsBackfill t
                then alter (fun x => radd x r) (Backfilled n) m else m in
      let m2 := match Status t with
                | Releasing =>
                    alter (fun x => rsub x r) (Idle n)
                      (alter (fun x => radd x r) (Releasing_ n) m1)
                | Pipelined => alter (fun x => rsub x r) (Releasing_ n) m1
                | _ => alter (fun x => rsub x r) (Idle n) m1
                end in
      alter (fun x => radd x r) (Used n) m2
  | None => m
  end.

(** Likewise for a successful [RemoveTask] of the stored task of value
    [c] from the node [n]. *)
Definition removeTaskResources (n : NodeInfo) (c : TaskInfo)
    (m : gmap loc Resource) : gmap loc Resource :=
  let r := Resreq c in
  match NNode n with
  | Some _ =>
      let m1 := if IsBackfill c
                then alter (fun x => rsub x r) (Backfilled n) m else m in
      let m2 := match Status c with
                | Releasing =>
                    alter (fun x => radd x r) (Idle n)
                      (alter (fun x => rsub x r) (Releasing_ n) m1)
                | Pipelined => alter (fun x => radd x r) (Releasing_ n) m1
                | _ => alter (fun x => radd x r) (Idle n) m1
                end in
      alter (fun x => rsub x r) (Used n) m2
  | None => m
  end.

End Effects.

(** The six counters are the same in both views. *)
Definition sameCounters (v v' : NodeView) : Prop :=
  vReleasing v' = vReleasing v /\ vIdle v' = vIdle v /\
  vUsed v' = vUsed v /\ vBackfilled v' = vBackfilled v /\
  vAllocatable v' = vAllocatable v /\ vCapability v' = vCapability v.

(** ** Bookkeeping identities *)

Definition allTasks (_ : TaskInfo) : bool := true.

(** [Used] is the sum of the requests of the tasks on the node. *)
Definition usedCounted (v : NodeView) : Prop :=
  vUsed v = sumReq allTasks (vTasks v).

(** [Backfilled] is at most the sum of the requests of the tasks on the
    node that are flagged as backfill. *)
Definition backfilledBounded (v : NodeView) : Prop :=
  rle (vBackfilled v) (sumReq IsBackfill (vTasks v)).

(** [Idle + Used = Allocatable + the requests of the Pipelined tasks]. *)
Definition idleBalanced (v : NodeView) : Prop :=
  radd (vIdle v) (vUsed v) =
  radd (vAllocatable v) (sumReq (isStatus Pipelined) (vTasks v)).

(** ** Counters that agree with the task set *)

(** A stored task sits under the key of its pod, and carries the backfill
    flag if [CheckBackfill] holds of its pod. *)
Definition taskSettled (cb : Pod -> bool) (k : TaskID) (t : TaskInfo) : Prop :=
  PodKey (TaskPod t) = k /\ (cb (TaskPod t) = true -> IsBackfill t = true).

(** The counters of the node are what its node object and its tasks
    make them: [Allocatable] and [Capability] come from the node object,
    [Used], [Backfilled] and [Releasing] are the sums of the requests of
    all the tasks, of the backfill tasks and of the Releasing tasks,
    [Idle + Used = Allocatable], and no task is Pipelined.  Without node
    object, all six counters are empty. *)
Definition recounted (cb : Pod -> bool) (v : NodeView) : Prop :=
  map_Forall (taskSettled cb) (vTasks v) /\
  match vNode v with
  | Some nd =>
      map_Forall (fun _ t => Status t <> Pipelined) (vTasks v) /\
      vAllocatable v = StatusAllocatable nd /\
      vCapability v = StatusCapacity nd /\
      vUsed v = sumReq allTasks (vTasks v) /\
      vBackfilled v = sumReq IsBackfill (vTasks v) /\
      vReleasing v = sumReq (isStatus Releasing) (vTasks v) /\
      radd (vIdle v) (vUsed v) = vAllocatable v
  | None =>
      vReleasing v = zeroResource /\ vIdle v = zeroResource /\
      vUsed v = zeroResource /\ vBackfilled v = zeroResource /\
      vAllocatable v = zeroResource /\ vCapability v = zeroResource
  end.

(** The view of a node that [Clone] is filling: made for [node], and
    with counters that follow its tasks so far. *)
Definition cloneInv (node : option Node) (w : NodeView) : Prop :=
  vNode w = node /\
  match node with
  | Some nd =>
      vAllocatable w = StatusAllocatable nd /\
      vCapability w = StatusCapacity nd /\
      vUsed w = sumReq allTasks (vTasks w) /\
      vBackfilled w = sumReq IsBackfill (vTasks w) /\
      vReleasing w = sumReq (isStatus Releasing) (vTasks w) /\
      vIdle w = rsub (StatusAllocatable nd) (sumReq allTasks (vTasks w))
  | None =>
      vReleasing w = zeroResource /\ vIdle w = zeroResource /\
      vUsed w = zeroResource /\ vBackfilled w = zeroResource /\
      vAllocatable w = zeroResource /\ vCapability w = zeroResource
  end.

(** From [s] to [s'], no resource object outside [L] was written, no task
    object was written, and no node other than [ni] was written. *)
Definition writesOnly (ni : loc) (L : list loc) (s s' : Store) : Prop :=
  (forall l, l ∉ L -> resources s' !! l = resources s !! l) /\
  taskinfos s ⊆ taskinfos s' /\
  (forall l, l <> ni -> nodeinfos s' !! l = nodeinfos s !! l).

(** ** Sequences of operations on one node *)

Inductive NodeOp :=
  | OpAddTask (task : loc)
  | OpRemoveTask (task : loc).

Section Sequences.

Variable CheckBackfill : Pod -> bool.

Definition runOp (ni : loc) (op : NodeOp) : M (option Error) :=
  match op with
  | OpAddTask task => AddTask CheckBackfill ni task
  | OpRemoveTask task => RemoveTask ni task
  end.

(** The operations one after the other, up to the first that reports an
    error; the result is [None] when all of them succeeded. *)
Fixpoint runOps (ni : loc) (ops : list NodeOp) : M (option Error) :=
  match ops with
  | [] => mret None
  | op :: rest =>
      err ← runOp ni op;
      match err with
      | Some e => mret (Some e)
      | None => runOps ni rest
      end
  end.

(** No [AddTask] of the sequence takes more from [Idle] than [Idle]
    holds: at each [AddTask] of a task that is not Pipelined, the request
    is at most the [Idle] of the node at that moment. *)
Fixpoint fitsIdle (ni : loc) (ops : list NodeOp) (s : Store) : bool :=
  match ops with
  | [] => true
  | op :: rest =>
      match op with
      | OpAddTask task =>
          match taskinfos s !! task, view s ni with
          | Some t, Some v =>
              isStatus Pipelined t || LessEqual (Resreq t) (vIdle v)
          | _, _ => true
          end
      | OpRemoveTask _ => true
      end
      &&
      match runOp ni op s with
      | Some (None, s1) => fitsIdle ni rest s1
      | _ => true
      end
  end.

End Sequences.

(** ** Concrete nodes, tasks and stores for the examples *)

(** The store a computation leaves (the store it started in if it
    panics). *)
Definition exec {A} (m : M A) (s : Store) : Store :=
  match m s with Some (_, s') => s' | None => s end.

Definition noBackfill : Pod -> bool := fun _ => false.

Definition node1 : Node :=
  mkNode "n1" (mkResource 4 8 0) (mkResource 4 8 0).

Definition pod1 : Pod := mkPod "c1" "p1" ∅.

Definition task1 (st : TaskStatus) (bf : bool) (r : Resource) : TaskInfo :=
  mkTaskInfo "pg1" "p1" "c1" "" 0 st pod1 r bf.

Definition req1 : Resource := mkResource 1 2 0.

(** One task object (at location 1) and, next to it, a node just made by
    [NewNodeInfo] (at location 1 of the nodes). *)
Definition freshNodeStore (node : option Node) (t : TaskInfo) : Store :=
  exec (allocTask t;; NewNodeInfo node) emptyStore.

Definition freshView (nd : Node) : NodeView :=
  mkNodeView (Some nd) zeroResource (StatusAllocatable nd) zeroResource
             zeroResource (StatusAllocatable nd) (StatusCapacity nd) ∅.

Definition nilView : NodeView :=
  mkNodeView None zeroResource zeroResource zeroResource zeroResource
             zeroResource zeroResource ∅.

(** A store that holds one task object (at location 1) and nothing
    else. *)
Definition oneTaskStore (t : TaskInfo) : Store :=
  exec (allocTask t) emptyStore.

(** A node made from [node1] that holds one Running backfill task of
    request [req1], and what it shows. *)
Definition oneTaskNodeStore : Store :=
  exec (AddTask noBackfill 1%positive 1%positive)
       (freshNodeStore (Some node1) (task1 Running true req1)).

Definition oneTaskView : NodeView :=
  mkNodeView (Some node1) zeroResource (mkResource 3 6 0) req1 req1
             (mkResource 4 8 0) (mkResource 4 8 0)
             {["c1/p1" := task1 Running true req1]}.

(** A second task, for a pod of its own, and a [CheckBackfill] that
    holds of every pod. *)
Definition pod2 : Pod := mkPod "c1" "p2" ∅.

Definition task2 (st : TaskStatus) (bf : bool) (r : Resource) : TaskInfo :=
  mkTaskInfo "pg2" "p2" "c1" "" 0 st pod2 r bf.

Definition allBackfill : Pod -> bool := fun _ => true.

(** One task object and two nodes made from [node1], at locations 1
    and 2 of the nodes. *)
Definition twoNodeStore (t : TaskInfo) : Store :=
  exec (allocTask t;; NewNodeInfo (Some node1);; NewNodeInfo (Some node1))
       emptyStore.

(** The view of the node [NewNodeInfo] returns. *)
Definition newView (node : option Node) : NodeView :=
  match node with
  | Some nd => freshView nd
  | None => nilView
  end.

(** ** The other methods of NodeInfo *)

Section NodeInfoPrinting.

Variable rangeOrder : gmap TaskID loc -> list (TaskID * loc).

(** [for _, t := range ni.Tasks { pods = append(pods, t.Pod) }]. *)
Fixpoint podsLoop (ts : list (TaskID * loc)) (pods : list Pod) : M (list Pod) :=
  match ts with
  | [] => mret pods
  | (_, t) :: rest =>
      task ← getTask t;
      podsLoop rest (pods ++ [TaskPod task])
  end.

Definition Pods (ni : loc) : M (list Pod) :=
  n ← getNode ni;
  podsLoop (rangeOrder (Tasks n)) [].

(** What [fmt] prints for [%v] is decided by the types printed, which
    are declared elsewhere: the printing of a [*Resource], of a
    [*TaskInfo] (both print a nil pointer too, hence the options) and of
    the taints of a node are parameters.  [%d] is the decimal numeral. *)
Variable showResource : option Resource -> string.
Variable showTask : option TaskInfo -> string.
Variable showTaints : Node -> string.

(** The string "\n\t " of the format of one task line. *)
Definition taskLinePrefix : string :=
  String (Ascii.ascii_of_nat 10) (String (Ascii.ascii_of_nat 9) " ").

(** A pointer handed to [fmt] is looked at, not dereferenced by the
    caller: the object it holds, if any. *)
Definition peekResource (l : loc) : M (option Resource) := fun s =>
  Some (resources s !! l, s).

Definition peekTask (l : loc) : M (option TaskInfo) := fun s =>
  Some (taskinfos s !! l, s).

Definition panic {A : Type} : M A := fun _ => None.

(** [for _, task := range ni.Tasks { res = res + Sprintf(...); i++ }]. *)
Fixpoint stringLoop (ts : list (TaskID * loc)) (i : nat) (res : string)
    : M string :=
  match ts with
  | [] => mret res
  | (_, task) :: rest =>
      t ← peekTask task;
      stringLoop rest (S i)
        (res +:+ taskLinePrefix +:+ pretty i +:+ ": " +:+ showTask t)
  end.

(** [String] has a value receiver: the node is read once.  The last
    [Sprintf] takes [ni.Node.Spec.Taints] among its arguments, which
    dereferences [ni.Node]. *)
Definition NodeInfo_String (ni : loc) : M string :=
  n ← getNode ni;
  res ← stringLoop (rangeOrder (Tasks n)) 0 "";
  idle ← peekResource (Idle n);
  used ← peekResource (Used n);
  releasing ← peekResource (Releasing_ n);
  match NNode n with
  | None => panic
  | Some node =>
      mret ("Node (" +:+ NName n +:+ "): idle <" +:+ showResource idle +:+
            ">, used <" +:+ showResource used +:+
            ">, releasing <" +:+ showResource releasing +:+
            ">, taints <" +:+ showTaints node +:+ ">" +:+ res)
  end.

End NodeInfoPrinting.

(** ** Sums along a list, and further checks on sequences *)

(** Sum of the requests of the tasks of a list selected by [p]. *)
Definition sumList (p : TaskInfo -> bool) (l : list TaskInfo) : Resource :=
  foldr (fun t acc => if p t then radd acc (Resreq t) else acc)
        zeroResource l.

(** Two statuses charge the same counters in [AddTask] and [RemoveTask]:
    both Releasing, both Pipelined, or both any of the others. *)
Definition sameCharge (a b : TaskStatus) : bool :=
  match a, b with
  | Releasing, Releasing => true
  | Pipelined, Pipelined => true
  | Releasing, _ | _, Releasing => false
  | Pipelined, _ | _, Pipelined => false
  | _, _ => true
  end.

Section PlainSequences.

Variable CheckBackfill : Pod -> bool.

(** Every [AddTask] of the sequence is of a task that is not Pipelined,
    whose request is at most the [Idle] of the node at that moment, and
    that has [IsBackfill] set if [CheckBackfill] holds of its pod. *)
Fixpoint plainAdds (ni : loc) (ops : list NodeOp) (s : Store) : bool :=
  match ops with
  | [] => true
  | op :: rest =>
      match op with
      | OpAddTask task =>
          match taskinfos s !! task, view s ni with
          | Some t, Some v =>
              negb (isStatus Pipelined t) &&
              LessEqual (Resreq t) (vIdle v) &&
              (negb (CheckBackfill (TaskPod t)) || IsBackfill t)
          | _, _ => true
          end
      | OpRemoveTask _ => true
      end
      &&
      match runOp CheckBackfill ni op s with
      | Some (None, s1) => plainAdds ni rest s1
      | _ => true
      end
  end.

End PlainSequences.

End Api.

(** * Package scheduler: loading the configuration *)

Module Scheduler.

(** Modelled from the spec: the types of package [conf] are not part of
    the sources at hand.  Section 6 gives the shape of a configuration:
    [actions], an ordered list of name and options, and [tiers], an
    ordered list of plugin lists, a plugin being a name, three switches
    and arguments. *)
Record PluginOption := mkPluginOption {
  PluginName         : string;
  EnabledJobOrder    : option bool;
  EnabledPreemptable : option bool;
  EnabledJobReady    : option bool;
  Arguments          : gmap string string
}.

(** Modelled from the spec: a tier is a list of plugins (section 6). *)
Record Tier := mkTier {
  Plugins : list PluginOption
}.

(** Modelled from the spec: an action is a name and options (section 6).
    [Options] is a Go map that may be nil: [None] is the nil map. *)
Record ActionOption := mkActionOption {
  ActionName : string;
  Options    : option (gmap string string)
}.

(** Modelled from the spec: the configuration, actions then tiers
    (section 6). *)
Record SchedulerConfiguration := mkSchedulerConfiguration {
  Actions : list ActionOption;
  Tiers   : list Tier
}.

(** The two ways [loadSchedulerConf] fails: the error of
    [yaml.Unmarshal], passed on, and the one built with [fmt.Errorf]. *)
Inductive ConfError :=
  | ErrUnmarshal (msg : string)
  | ErrActionNotFound (name : string).

Definition defaultSchedulerConf : string :=
"
actions:
- name: allocate
- name: backfill
tiers:
- plugins:
  - name: priority
  - name: gang
- plugins:
  - name: drf
  - name: predicates
  - name: proportion
  - name: nodeorder
".

Section Load.

(** [yaml.Unmarshal] into a [SchedulerConfiguration] belongs to a library
    outside the repository: a parameter, that gives an error message or
    the configuration read. *)
Variable Unmarshal : string -> string + SchedulerConfiguration.

(** [framework.GetAction], [plugins.ApplyPluginConfDefaults] and the
    constant [conf.BackfillFlagName] are declared in source files that are
    not at hand: parameters too. *)
Variable Action : Type.
Variable GetAction : string -> option Action.
Variable ApplyPluginConfDefaults : PluginOption -> PluginOption.
Variable BackfillFlagName : string.

(** One turn of the loop over [schedulerConf.Actions]. *)
Definition loadAction (action : ActionOption) : ConfError + ActionOption :=
  match GetAction (ActionName action) with
  | None => inl (ErrActionNotFound (ActionName action))
  | Some _ =>
      let options :=
        match Options action with
        | None => ∅
        | Some m => m
        end in
      (* set default value for backfill enabled *)
      let options :=
        if decide (ActionName action = "backfill")
        then match options !! BackfillFlagName with
             | Some _ => options
             | None => <[BackfillFlagName := "false"]> options
             end
        else options in
      inr (mkActionOption (ActionName action) (Some options))
  end.

(** The loop: it returns at the first action that is not registered. *)
Fixpoint loadActions (actions : list ActionOption)
    : ConfError + list ActionOption :=
  match actions with
  | [] => inr []
  | action :: rest =>
      match loadAction action with
      | inl e => inl e
      | inr action' =>
          match loadActions rest with
          | inl e => inl e
          | inr rest' => inr (action' :: rest')
          end
      end
  end.

Definition loadSchedulerConf (confStr : string)
    : ConfError + SchedulerConfiguration :=
  match Unmarshal confStr with
  | inl msg => inl (ErrUnmarshal msg)
  | inr schedulerConf =>
      (* Set default settings for each plugin if not set *)
      let tiers :=
        map (fun tier => mkTier (map ApplyPluginConfDefaults (Plugins tier)))
            (Tiers schedulerConf) in
      match loadActions (Actions schedulerConf) with
      | inl e => inl e
      | inr actions => inr (mkSchedulerConfiguration actions tiers)
      end
  end.

End Load.

(** ** A concrete registry and reader for the examples *)

(** What a YAML reader makes of [defaultSchedulerConf]. *)
Definition defaultParsed : SchedulerConfiguration :=
  let plugin name := mkPluginOption name None None None ∅ in
  mkSchedulerConfiguration
    [mkActionOption "allocate" None; mkActionOption "backfill" None]
    [mkTier [plugin "priority"; plugin "gang"];
     mkTier [plugin "drf"; plugin "predicates"; plugin "proportion";
             plugin "nodeorder"]].

Definition exampleUnmarshal (confStr : string)
    : string + SchedulerConfiguration :=
  if decide (confStr = defaultSchedulerConf) then inr defaultParsed
  else inl "yaml: unmarshal errors".

(** A registry that knows the two actions of the repository. *)
Definition exampleGetAction (name : string) : option unit :=
  if decide (name = "allocate") then Some tt
  else if decide (name = "backfill") then Some tt
  else None.

Definition exampleFlagName : string := "enableBackfill".

(** ** getActions *)

Section GetActions.

Variable Action : Type.

(** [framework.GetAction] again, with both its results: the action, an
    interface value that may be nil ([None]), and whether the name was
    found. *)
Variable GetAction : string -> option Action * bool.

(** The method [Name] of the interface [framework.Action]. *)
Variable ActionNameOf : Action -> string.
Variable BackfillFlagName : string.

(** [confAction.Options[conf.BackfillFlagName]]: reading a Go map, nil or
    not, gives the empty string for a key that is not there. *)
Definition optionValue (options : option (gmap string string))
    (key : string) : string :=
  default "" (options ≫= fun m => m !! key).

(** The loop of [getActions]; [None] is a panic.  When the name is not
    found, the error message is built from [action.Name()], a method call
    on the action that the lookup returned; a method call on the nil
    action panics, there and at the test for "backfill". *)
Fixpoint getActionsLoop (confActions : list ActionOption)
    (actions : list (option Action))
    (actionOptions : gmap string (gmap string string))
    : option (ConfError +
              list (option Action) * gmap string (gmap string string)) :=
  match confActions with
  | [] => Some (inr (actions, actionOptions))
  | confAction :: rest =>
      let (action, found) := GetAction (ActionName confAction) in
      if negb found then
        match action with
        | None => None
        | Some a => Some (inl (ErrActionNotFound (ActionNameOf a)))
        end
      else
        let actions := actions ++ [action] in
        match action with
        | None => None
        | Some a =>
            let actionOptions :=
              if decide (ActionNameOf a = "backfill")
              then <["backfill" :=
                       {[BackfillFlagName :=
                           optionValue (Options confAction) BackfillFlagName]}]>
                     actionOptions
              else actionOptions in
            getActionsLoop rest actions actionOptions
        end
  end.

Definition getActions (schedulerConf : SchedulerConfiguration)
    : option (ConfError +
              list (option Action) * gmap string (gmap string string)) :=
  getActionsLoop (Actions schedulerConf) [] ∅.

(** The registry as [loadSchedulerConf] uses it: only whether the name
    was found. *)
Definition registered (name : string) : option (option Action) :=
  let (action, found) := GetAction name in
  if found then Some action else None.

End GetActions.

(** The options of [a'] are those of [a], with at most the backfill flag
    added as "false" on a backfill action. *)
Definition optionsKept (BackfillFlagName : string) (a a' : ActionOption)
    : Prop :=
  ActionName a' = ActionName a /\
  exists m',
    Options a' = Some m' /\
    default ∅ (Options a) ⊆ m' /\
    forall k v,
      m' !! k = Some v -> default ∅ (Options a) !! k = None ->
      ActionName a = "backfill" /\ k = BackfillFlagName /\ v = "false".

(** What [loadSchedulerConf] makes of [defaultParsed] with the registry
    of the examples, and a reader that gives it back. *)
Definition defaultLoaded : SchedulerConfiguration :=
  mkSchedulerConfiguration
    [mkActionOption "allocate" (Some ∅);
     mkActionOption "backfill" (Some {[exampleFlagName := "false"]})]
    (Tiers defaultParsed).

Definition loadedUnmarshal (confStr : string)
    : string + SchedulerConfiguration :=
  inr defaultLoaded.

(** The entries of a list of actions that name the backfill action. *)
Definition backfillEntries (l : list ActionOption) : list ActionOption :=
  filter (fun ca => ActionName ca = "backfill") l.

(** The registry of the examples with both results: an action is stood
    for by the name it answers to, and a miss gives the nil action. *)
Definition namedRegistry (name : string) : option string * bool :=
  match exampleGetAction name with
  | Some _ => (Some name, true)
  | None => (None, false)
  end.

End Scheduler.

Import Api.

(** * Running the store monad *)

Section Run.
Context {A B : Type}.

Lemma run_bind (m : M A) (f : A -> M B) s a s1 :
  m s = Some (a, s1) -> (m ≫= f) s = f a s1.
Proof. intros H. unfold mbind, M_bind. by rewrite H. Qed.

Lemma run_bind_panic (m : M A) (f : A -> M B) s :
  m s = None -> (m ≫= f) s = None.
Proof. intros H. unfold mbind, M_bind. by rewrite H. Qed.

End Run.

Lemma run_assoc {A B C} (m : M A) (f : A -> M B) (g : B -> M C) s :
  ((m ≫= f) ≫= g) s = (m ≫= (fun x => f x ≫= g)) s.
Proof. unfold mbind, M_bind. by destruct (m s) as [[]|]. Qed.

Lemma getNode_run s l n :
  nodeinfos s !! l = Some n -> getNode l s = Some (n, s).
Proof. intros H. unfold getNode. by rewrite H. Qed.

Lemma getTask_run s l t :
  taskinfos s !! l = Some t -> getTask l s = Some (t, s).
Proof. intros H. unfold getTask. by rewrite H. Qed.

Lemma getResource_run s l r :
  resources s !! l = Some r -> getResource l s = Some (r, s).
Proof. intros H. unfold getResource. by rewrite H. Qed.

Lemma putNode_run s l n :
  is_Some (nodeinfos s !! l) -> putNode l n s = Some (tt, setNode l n s).
Proof. intros [? H]. unfold putNode. by rewrite H. Qed.

Lemma putTask_run s l t :
  is_Some (taskinfos s !! l) -> putTask l t s = Some (tt, setTask l t s).
Proof. intros [? H]. unfold putTask. by rewrite H. Qed.

Lemma alter_as_insert {V} (f : V -> V) (l : loc) (m : gmap loc V) x :
  m !! l = Some x -> <[l := f x]> m = alter f l m.
Proof.
  intros H. apply map_eq. intros i. rewrite lookup_alter, lookup_insert.
  destruct (decide (l = i)) as [->|]; [by rewrite H | done].
Qed.

Lemma Resource_Add_run s l rr :
  is_Some (resources s !! l) ->
  Resource_Add l rr s =
  Some (l, mkStore (alter (fun x => radd x rr) l (resources s))
                   (taskinfos s) (nodeinfos s)).
Proof.
  intros [r H]. unfold Resource_Add.
  erewrite run_bind by (by apply getResource_run).
  unfold putResource, mbind, M_bind, mret, M_ret, setRes. rewrite H.
  by rewrite (alter_as_insert (fun x => radd x rr) _ _ _ H).
Qed.

Lemma Resource_Sub_run s l rr :
  is_Some (resources s !! l) ->
  Resource_Sub l rr s =
  Some ((l, default None ((fun r => subError r rr) <$> resources s !! l)),
        mkStore (alter (fun x => rsub x rr) l (resources s))
                (taskinfos s) (nodeinfos s)).
Proof.
  intros [r H]. unfold Resource_Sub.
  erewrite run_bind by (by apply getResource_run).
  unfold putResource, mbind, M_bind, mret, M_ret, setRes. rewrite H.
  by rewrite (alter_as_insert (fun x => rsub x rr) _ _ _ H).
Qed.

(** [Sub] reports the policy error exactly when the argument does not
    fit in the receiver; when it fits, the subtraction is exact. *)
Lemma Resource_Sub_error s l r rr :
  resources s !! l = Some r ->
  exists e s',
    Resource_Sub l rr s = Some ((l, e), s') /\
    (e = None <-> LessEqual rr r = true) /\
    resources s' !! l = Some (rsub r rr).
Proof.
  intros H. rewrite Resource_Sub_run by eauto. rewrite H. simpl.
  eexists _, _. split; [reflexivity|]. split.
  - unfold subError. by destruct (LessEqual rr r).
  - simpl. by rewrite lookup_alter_eq, H.
Qed.

Lemma is_Some_alter {V} (f : V -> V) (l l' : loc) (m : gmap loc V) :
  is_Some (alter f l m !! l') <-> is_Some (m !! l').
Proof.
  rewrite lookup_alter. destruct (decide (l = l')) as [->|]; [|done].
  by rewrite fmap_is_Some.
Qed.

Lemma fresh_task_None (m : gmap loc TaskInfo) : m !! fresh (dom m) = None.
Proof. apply not_elem_of_dom, is_fresh. Qed.

Lemma fresh_resource_None (m : gmap loc Resource) : m !! fresh (dom m) = None.
Proof. apply not_elem_of_dom, is_fresh. Qed.

Lemma fresh_node_None (m : gmap loc NodeInfo) : m !! fresh (dom m) = None.
Proof. apply not_elem_of_dom, is_fresh. Qed.

(** The copy made by [AddTask]: a new object holding [storedCopy t]. *)
Lemma clone_for_node cb s task t (f : loc -> unit -> M (option Error)) :
  taskinfos s !! task = Some t ->
  let ti := fresh (dom (taskinfos s)) in
  (ti ← TaskInfo_Clone task;
   c ← getTask ti;
   u ← (if cb (TaskPod c) && negb (IsBackfill c)
        then putTask ti (setIsBackfill true c) else skip);
   f ti u) s =
  f ti tt (setTask ti (storedCopy cb t) s).
Proof.
  intros Ht ti. unfold TaskInfo_Clone.
  erewrite run_bind; cycle 1.
  { erewrite run_bind by (by apply getTask_run). reflexivity. }
  fold ti.
  erewrite run_bind; cycle 1.
  { apply getTask_run. simpl. apply lookup_insert_eq. }
  unfold storedCopy.
  destruct (cb (TaskPod t) && negb (IsBackfill t)).
  - erewrite run_bind; cycle 1.
    { apply putTask_run. simpl. rewrite lookup_insert_eq. eauto. }
    unfold setTask. simpl. by rewrite insert_insert_eq.
  - by erewrite run_bind by reflexivity.
Qed.

Lemma Status_storedCopy cb t : Status (storedCopy cb t) = Status t.
Proof. unfold storedCopy. by destruct (_ && _). Qed.

Lemma Resreq_storedCopy cb t : Resreq (storedCopy cb t) = Resreq t.
Proof. unfold storedCopy. by destruct (_ && _). Qed.

Lemma lookup_fresh_task_ne (m : gmap loc TaskInfo) l t x :
  m !! l = Some t -> <[fresh (dom m) := x]> m !! l = Some t.
Proof.
  intros H. rewrite lookup_insert_ne; [done|].
  intros <-. by rewrite fresh_task_None in H.
Qed.

Ltac run_step :=
  first
    [ rewrite run_assoc
    | erewrite run_bind by (apply getNode_run; simpl; eassumption)
    | erewrite run_bind by
        (apply getTask_run; simpl;
         first [ eassumption | apply lookup_insert_eq
               | apply lookup_fresh_task_ne; eassumption ])
    | erewrite run_bind by
        (apply Resource_Add_run; simpl; rewrite ?is_Some_alter; assumption)
    | erewrite run_bind by
        (apply Resource_Sub_run; simpl; rewrite ?is_Some_alter; assumption)
    | erewrite run_bind by (apply putNode_run; simpl; eauto)
    | erewrite run_bind by reflexivity ].

(** A successful [AddTask], with the store it leaves. *)
Lemma AddTask_run cb s ni task n t :
  nodeinfos s !! ni = Some n ->
  taskinfos s !! task = Some t ->
  Tasks n !! PodKey (TaskPod t) = None ->
  (is_Some (NNode n) ->
   Forall (fun l => is_Some (resources s !! l))
          [Releasing_ n; Idle n; Used n; Backfilled n]) ->
  let ti := fresh (dom (taskinfos s)) in
  AddTask cb ni task s =
  Some (None,
        mkStore (addTaskResources n t (resources s))
                (<[ti := storedCopy cb t]> (taskinfos s))
                (<[ni := setTasks (<[PodKey (TaskPod t) := ti]> (Tasks n)) n]>
                   (nodeinfos s))).
Proof.
  intros Hn Ht Hk Hres ti. unfold AddTask.
  do 2 run_step. cbv zeta. rewrite Hk.
  rewrite (clone_for_node cb s task t _ Ht). fold ti.
  unfold addTaskResources.
  destruct (NNode n) as [nd|].
  - specialize (Hres (ltac:(eauto))).
    apply Forall_cons in Hres as [Hrel Hres].
    apply Forall_cons in Hres as [Hidle Hres].
    apply Forall_cons in Hres as [Hused Hres].
    apply Forall_cons in Hres as [Hbf _].
    do 2 run_step.
    destruct (IsBackfill t); repeat run_step;
      rewrite Status_storedCopy, Resreq_storedCopy;
      destruct (Status t); repeat run_step; reflexivity.
  - repeat run_step. reflexivity.
Qed.

(** A refused [AddTask]: the key is taken, nothing is written. *)
Lemma AddTask_duplicate cb s ni task n t :
  nodeinfos s !! ni = Some n ->
  taskinfos s !! task = Some t ->
  is_Some (Tasks n !! PodKey (TaskPod t)) ->
  AddTask cb ni task s =
  Some (Some (ErrTaskAlreadyOnNode (Namespace t) (Name t) (NName n)), s).
Proof.
  intros Hn Ht [l Hk]. unfold AddTask.
  do 2 run_step. cbv zeta. by rewrite Hk.
Qed.

(** A successful [RemoveTask], with the store it leaves. *)
Lemma RemoveTask_run s ni ti n t task c :
  nodeinfos s !! ni = Some n ->
  taskinfos s !! ti = Some t ->
  Tasks n !! PodKey (TaskPod t) = Some task ->
  (is_Some (NNode n) ->
   taskinfos s !! task = Some c /\
   Forall (fun l => is_Some (resources s !! l))
          [Releasing_ n; Idle n; Used n; Backfilled n]) ->
  RemoveTask ni ti s =
  Some (None,
        mkStore (removeTaskResources n c (resources s))
                (taskinfos s)
                (<[ni := setTasks (delete (PodKey (TaskPod t)) (Tasks n)) n]>
                   (nodeinfos s))).
Proof.
  intros Hn Ht Hk Hres. unfold RemoveTask.
  do 2 run_step. cbv zeta. rewrite Hk.
  unfold removeTaskResources.
  destruct (NNode n) as [nd|].
  - destruct (Hres (ltac:(eauto))) as [Hc Hall].
    apply Forall_cons in Hall as [Hrel Hall].
    apply Forall_cons in Hall as [Hidle Hall].
    apply Forall_cons in Hall as [Hused Hall].
    apply Forall_cons in Hall as [Hbf _].
    do 2 run_step.
    destruct (IsBackfill c); repeat run_step;
      destruct (Status c); repeat run_step; reflexivity.
  - repeat run_step. reflexivity.
Qed.

(** A refused [RemoveTask]: the key is unknown, nothing is written. *)
Lemma RemoveTask_missing s ni ti n t :
  nodeinfos s !! ni = Some n ->
  taskinfos s !! ti = Some t ->
  Tasks n !! PodKey (TaskPod t) = None ->
  RemoveTask ni ti s =
  Some (Some (ErrTaskNotOnHost (Namespace t) (Name t) (NName n)), s).
Proof.
  intros Hn Ht Hk. unfold RemoveTask.
  do 2 run_step. cbv zeta. by rewrite Hk.
Qed.

(** * The view of a node across an operation *)

Ltac nodup_neqs :=
  repeat match goal with
         | H : NoDup (_ :: _) |- _ => apply NoDup_cons in H as [? H]
         end;
  repeat match goal with
         | H : _ ∉ _ :: _ |- _ => apply not_elem_of_cons in H as [? H]
         end.

Lemma viewOf_Some s n v :
  viewOf s n = Some v ->
  resources s !! Releasing_ n = Some (vReleasing v) /\
  resources s !! Idle n = Some (vIdle v) /\
  resources s !! Used n = Some (vUsed v) /\
  resources s !! Backfilled n = Some (vBackfilled v) /\
  resources s !! Allocatable n = Some (vAllocatable v) /\
  resources s !! Capability n = Some (vCapability v) /\
  vNode v = NNode n /\
  vTasks v = derefTasks s (Tasks n).
Proof.
  unfold viewOf. intros H.
  destruct (resources s !! Releasing_ n); [|done].
  destruct (resources s !! Idle n); [|done].
  destruct (resources s !! Used n); [|done].
  destruct (resources s !! Backfilled n); [|done].
  destruct (resources s !! Allocatable n); [|done].
  destruct (resources s !! Capability n); [|done].
  simpl in H. by inversion H.
Qed.

Lemma viewOf_intro s n rel idle used bf alloc cap :
  resources s !! Releasing_ n = Some rel ->
  resources s !! Idle n = Some idle ->
  resources s !! Used n = Some used ->
  resources s !! Backfilled n = Some bf ->
  resources s !! Allocatable n = Some alloc ->
  resources s !! Capability n = Some cap ->
  viewOf s n =
  Some (mkNodeView (NNode n) rel idle used bf alloc cap
                   (derefTasks s (Tasks n))).
Proof. unfold viewOf. by intros -> -> -> -> -> ->. Qed.

Lemma derefTasks_insert_fresh rs ts ns (m : gmap TaskID loc) k c :
  map_Forall (fun _ l => is_Some (ts !! l)) m ->
  derefTasks (mkStore rs (<[fresh (dom ts) := c]> ts) ns)
             (<[k := fresh (dom ts)]> m) =
  <[k := c]> (derefTasks (mkStore rs ts ns) m).
Proof.
  intros Hall. apply map_eq. intros i. unfold derefTasks. simpl.
  rewrite lookup_omap, !lookup_insert.
  destruct (decide (k = i)) as [->|Hne]; simpl.
  - by rewrite lookup_insert_eq.
  - rewrite lookup_omap. destruct (m !! i) as [l|] eqn:Hl; [|done]. simpl.
    destruct (Hall i l Hl) as [x Hx].
    rewrite lookup_insert_ne; [done|].
    intros <-. by rewrite fresh_task_None in Hx.
Qed.

Lemma derefTasks_delete s (m : gmap TaskID loc) k :
  derefTasks s (delete k m) = delete k (derefTasks s m).
Proof.
  apply map_eq. intros i. unfold derefTasks.
  rewrite lookup_omap, !lookup_delete.
  destruct (decide (k = i)); [done|]. by rewrite lookup_omap.
Qed.

Lemma derefTasks_store_irrel rs rs' ts ns ns' m :
  derefTasks (mkStore rs ts ns) m = derefTasks (mkStore rs' ts ns') m.
Proof. reflexivity. Qed.

(** The store left by [AddTask] shows the node as [addTaskView] says. *)
Lemma viewOf_AddTask cb s n t v ni :
  wfNodeInfo s n ->
  viewOf s n = Some v ->
  let ti := fresh (dom (taskinfos s)) in
  viewOf (mkStore (addTaskResources n t (resources s))
                  (<[ti := storedCopy cb t]> (taskinfos s))
                  (<[ni := setTasks (<[PodKey (TaskPod t) := ti]> (Tasks n)) n]>
                     (nodeinfos s)))
         (setTasks (<[PodKey (TaskPod t) := ti]> (Tasks n)) n) =
  Some (addTaskView cb t v).
Proof.
  intros [Hnd Htasks] Hv ti.
  apply viewOf_Some in Hv as (Hrel & Hidle & Hused & Hbf & Halloc & Hcap & Hnode & Hts).
  unfold counterLocs in Hnd. nodup_neqs.
  unfold addTaskView. rewrite Hnode, Hts.
  destruct s as [rs ts ns]. simpl in *.
  rewrite <- (derefTasks_insert_fresh rs ts
               (<[ni := setTasks (<[PodKey (TaskPod t) := ti]> (Tasks n)) n]> ns)
               _ _ _ Htasks).
  unfold addTaskResources.
  destruct (NNode n) as [nd|] eqn:Hn.
  - destruct (IsBackfill t), (Status t);
      (erewrite viewOf_intro;
       [ simpl; rewrite Hn; reflexivity
       | simpl; rewrite ?lookup_alter; repeat case_decide; try congruence;
         first [ rewrite Hrel | rewrite Hidle | rewrite Hused | rewrite Hbf
               | rewrite Halloc | rewrite Hcap ]; reflexivity .. ]).
  - erewrite viewOf_intro; [ simpl; rewrite Hn; reflexivity | simpl; eassumption .. ].
Qed.

(** The store left by [RemoveTask] shows the node as [removeTaskView]
    says. *)
Lemma viewOf_RemoveTask s n c v ni key :
  wfNodeInfo s n ->
  viewOf s n = Some v ->
  viewOf (mkStore (removeTaskResources n c (resources s))
                  (taskinfos s)
                  (<[ni := setTasks (delete key (Tasks n)) n]> (nodeinfos s)))
         (setTasks (delete key (Tasks n)) n) =
  Some (removeTaskView key c v).
Proof.
  intros [Hnd Htasks] Hv.
  apply viewOf_Some in Hv as (Hrel & Hidle & Hused & Hbf & Halloc & Hcap & Hnode & Hts).
  unfold counterLocs in Hnd. nodup_neqs.
  unfold removeTaskView. rewrite Hnode, Hts.
  destruct s as [rs ts ns]. simpl in *.
  rewrite <- (derefTasks_delete (mkStore rs ts ns)).
  rewrite (derefTasks_store_irrel rs (removeTaskResources n c rs) ts ns
             (<[ni := setTasks (delete key (Tasks n)) n]> ns)).
  unfold removeTaskResources.
  destruct (NNode n) as [nd|] eqn:Hn.
  - destruct (IsBackfill c), (Status c);
      (erewrite viewOf_intro;
       [ simpl; rewrite Hn; reflexivity
       | simpl; rewrite ?lookup_alter; repeat case_decide; try congruence;
         first [ rewrite Hrel | rewrite Hidle | rewrite Hused | rewrite Hbf
               | rewrite Halloc | rewrite Hcap ]; reflexivity .. ]).
  - erewrite viewOf_intro; [ simpl; rewrite Hn; reflexivity | simpl; eassumption .. ].
Qed.

Lemma derefTasks_lookup s m k :
  derefTasks s m !! k = (m !! k) ≫= (fun l => taskinfos s !! l).
Proof. unfold derefTasks. by rewrite lookup_omap. Qed.

Lemma derefTasks_None s n k :
  wfNodeInfo s n ->
  derefTasks s (Tasks n) !! k = None <-> Tasks n !! k = None.
Proof.
  intros [_ Hall]. rewrite derefTasks_lookup.
  destruct (Tasks n !! k) as [l|] eqn:Hl; simpl; [|done].
  destruct (Hall k l Hl) as [x Hx]. rewrite Hx. split; done.
Qed.

Lemma derefTasks_Some s n k c :
  derefTasks s (Tasks n) !! k = Some c <->
  exists l, Tasks n !! k = Some l /\ taskinfos s !! l = Some c.
Proof.
  rewrite derefTasks_lookup.
  destruct (Tasks n !! k) as [l|] eqn:Hl; simpl.
  - split; [eauto|]. by intros (l' & [= <-] & ?).
  - split; [done|]. by intros (l' & ? & ?).
Qed.

Lemma wfNodeInfo_AddTask s n rs ns k c :
  wfNodeInfo s n ->
  wfNodeInfo (mkStore rs (<[fresh (dom (taskinfos s)) := c]> (taskinfos s)) ns)
             (setTasks (<[k := fresh (dom (taskinfos s))]> (Tasks n)) n).
Proof.
  intros [Hnd Hall]. split; [done|]. simpl.
  apply map_Forall_insert_2.
  - rewrite lookup_insert_eq. eauto.
  - intros i l Hl. simpl. destruct (Hall i l Hl) as [x Hx].
    exists x. by apply lookup_fresh_task_ne.
Qed.

Lemma wfNodeInfo_RemoveTask s n rs ns k :
  wfNodeInfo s n ->
  wfNodeInfo (mkStore rs (taskinfos s) ns) (setTasks (delete k (Tasks n)) n).
Proof.
  intros [Hnd Hall]. split; [done|]. simpl.
  by apply map_Forall_delete.
Qed.

Lemma view_unfold s ni v :
  view s ni = Some v <->
  exists n, nodeinfos s !! ni = Some n /\ viewOf s n = Some v.
Proof.
  unfold view. destruct (nodeinfos s !! ni) as [n|]; simpl.
  - split; [eauto|]. by intros (n' & [= <-] & ?).
  - split; [done|]. by intros (n' & ? & ?).
Qed.

Lemma wfNode_unfold s ni n :
  nodeinfos s !! ni = Some n -> wfNode s ni <-> wfNodeInfo s n.
Proof. intros H. unfold wfNode. by rewrite H. Qed.

Lemma viewOf_allocated s n v :
  viewOf s n = Some v ->
  Forall (fun l => is_Some (resources s !! l))
         [Releasing_ n; Idle n; Used n; Backfilled n].
Proof.
  intros Hv.
  apply viewOf_Some in Hv as (Hrel & Hidle & Hused & Hbf & _).
  repeat constructor; eauto.
Qed.

Section Specs.

Variable cb : Pod -> bool.

(** [AddTask] of a task whose key is free, seen through the view. *)
Lemma AddTask_spec s ni task t v :
  wfNode s ni ->
  view s ni = Some v ->
  taskinfos s !! task = Some t ->
  vTasks v !! PodKey (TaskPod t) = None ->
  exists s' n,
    AddTask cb ni task s = Some (None, s') /\
    nodeinfos s !! ni = Some n /\
    s' = mkStore (addTaskResources n t (resources s))
                 (<[fresh (dom (taskinfos s)) := storedCopy cb t]> (taskinfos s))
                 (<[ni := setTasks (<[PodKey (TaskPod t) := fresh (dom (taskinfos s))]>
                                      (Tasks n)) n]> (nodeinfos s)) /\
    wfNode s' ni /\
    view s' ni = Some (addTaskView cb t v).
Proof.
  intros Hwf Hv Ht Hk.
  apply view_unfold in Hv as (n & Hn & Hv).
  rewrite (wfNode_unfold _ _ _ Hn) in Hwf.
  pose proof (viewOf_Some _ _ _ Hv) as (_ & _ & _ & _ & _ & _ & _ & Hts).
  rewrite Hts in Hk. apply (derefTasks_None _ _ _ Hwf) in Hk.
  eexists _, n. split; [|split; [exact Hn|split; [reflexivity|split]]].
  - apply AddTask_run; try done. intros _. by eapply viewOf_allocated.
  - unfold wfNode. simpl. rewrite lookup_insert_eq.
    by apply wfNodeInfo_AddTask.
  - unfold view. simpl. rewrite lookup_insert_eq. simpl.
    by apply viewOf_AddTask.
Qed.

End Specs.

(** [RemoveTask] of a task whose key is on the node, seen through the
    view: [c] is the value of the stored copy. *)
Lemma RemoveTask_spec s ni ti t v c :
  wfNode s ni ->
  view s ni = Some v ->
  taskinfos s !! ti = Some t ->
  vTasks v !! PodKey (TaskPod t) = Some c ->
  exists s' n,
    RemoveTask ni ti s = Some (None, s') /\
    nodeinfos s !! ni = Some n /\
    s' = mkStore (removeTaskResources n c (resources s)) (taskinfos s)
                 (<[ni := setTasks (delete (PodKey (TaskPod t)) (Tasks n)) n]>
                    (nodeinfos s)) /\
    wfNode s' ni /\
    view s' ni = Some (removeTaskView (PodKey (TaskPod t)) c v).
Proof.
  intros Hwf Hv Ht Hk.
  apply view_unfold in Hv as (n & Hn & Hv).
  rewrite (wfNode_unfold _ _ _ Hn) in Hwf.
  pose proof (viewOf_Some _ _ _ Hv) as (_ & _ & _ & _ & _ & _ & _ & Hts).
  rewrite Hts in Hk. apply derefTasks_Some in Hk as (l & Hl & Hc).
  eexists _, n. split; [|split; [exact Hn|split; [reflexivity|split]]].
  - eapply RemoveTask_run; try done. intros _. split; [done|].
    by eapply viewOf_allocated.
  - unfold wfNode. simpl. rewrite lookup_insert_eq.
    by apply (wfNodeInfo_RemoveTask s n).
  - unfold view. simpl. rewrite lookup_insert_eq. simpl.
    by apply viewOf_RemoveTask.
Qed.

#[global] Instance wfNode_dec s ni : Decision (wfNode s ni).
Proof.
  unfold wfNode, wfNodeInfo. destruct (nodeinfos s !! ni); apply _.
Defined.

(** * Node bookkeeping (section 4.2) *)

(** C4.  [AddTask] reports an error exactly when the key of the task is
    already on the node, [RemoveTask] exactly when it is not; a call that
    reports an error leaves the whole store, hence the counters and the
    task set of the node, as it was. *)
Theorem AddTask_RemoveTask_errors cb s ni task t v :
  wfNode s ni ->
  view s ni = Some v ->
  taskinfos s !! task = Some t ->
  (exists err s',
     AddTask cb ni task s = Some (err, s') /\
     (is_Some err <-> is_Some (vTasks v !! PodKey (TaskPod t))) /\
     (is_Some err -> s' = s)) /\
  (exists err s',
     RemoveTask ni task s = Some (err, s') /\
     (is_Some err <-> vTasks v !! PodKey (TaskPod t) = None) /\
     (is_Some err -> s' = s)).
Proof.
  intros Hwf Hv Ht.
  pose proof Hv as Hv0.
  apply view_unfold in Hv0 as (n & Hn & Hvn).
  pose proof Hwf as Hwfn. rewrite (wfNode_unfold _ _ _ Hn) in Hwfn.
  pose proof (viewOf_Some _ _ _ Hvn) as (_ & _ & _ & _ & _ & _ & _ & Hts).
  split.
  - destruct (vTasks v !! PodKey (TaskPod t)) as [c|] eqn:Hk.
    + rewrite Hts in Hk. apply derefTasks_Some in Hk as (l & Hl & _).
      eexists _, s. split; [|split].
      * apply (AddTask_duplicate cb s ni task n t Hn Ht). eauto.
      * split; eauto.
      * done.
    + destruct (AddTask_spec cb s ni task t v Hwf Hv Ht Hk)
        as (s' & _ & Hrun & _).
      exists None, s'. split; [done|]. split.
      * split; intros [? ?]; done.
      * intros [? ?]; done.
  - destruct (vTasks v !! PodKey (TaskPod t)) as [c|] eqn:Hk.
    + destruct (RemoveTask_spec s ni task t v c Hwf Hv Ht Hk)
        as (s' & _ & Hrun & _).
      exists None, s'. split; [done|]. split.
      * split; [intros [? ?]; done | done].
      * intros [? ?]; done.
    + rewrite Hts in Hk. apply (derefTasks_None _ _ _ Hwfn) in Hk.
      eexists _, s. split; [|split].
      * by apply (RemoveTask_missing s ni task n t).
      * split; eauto.
      * done.
Qed.

Lemma AddTask_RemoveTask_errors_witness :
  let s := freshNodeStore (Some node1) (task1 Running false req1) in
  (exists err s',
     AddTask noBackfill 1%positive 1%positive s = Some (err, s') /\
     (is_Some err <-> is_Some (vTasks (freshView node1) !! "c1/p1")) /\
     (is_Some err -> s' = s)) /\
  (exists err s',
     RemoveTask 1%positive 1%positive s = Some (err, s') /\
     (is_Some err <-> vTasks (freshView node1) !! "c1/p1" = None) /\
     (is_Some err -> s' = s)).
Proof.
  apply (AddTask_RemoveTask_errors noBackfill
           (freshNodeStore (Some node1) (task1 Running false req1))
           1%positive 1%positive (task1 Running false req1) (freshView node1)).
  - apply (bool_decide_unpack _). vm_compute. reflexivity.
  - vm_compute. reflexivity.
  - vm_compute. reflexivity.
Defined.

Lemma view_sameCounters s s' ni n m v :
  nodeinfos s !! ni = Some n ->
  nodeinfos s' !! ni = Some (setTasks m n) ->
  resources s' = resources s ->
  view s ni = Some v ->
  exists v', view s' ni = Some v' /\ sameCounters v v'.
Proof.
  intros Hn Hn' Hres Hv.
  apply view_unfold in Hv as (n1 & Hn1 & Hv).
  assert (n1 = n) as -> by congruence.
  apply viewOf_Some in Hv as (Ha & Hb & Hc & Hd & He & Hf & _).
  eexists. split.
  - apply view_unfold. exists (setTasks m n). split; [done|].
    apply viewOf_intro; rewrite Hres; simpl; eassumption.
  - repeat split.
Qed.

(** C10.  On a node without node object, [AddTask] and [RemoveTask]
    write no counter at all: the resources of the store are the same
    before and after, the node keeps its six counter objects and shows the
    same counters (empty ones, on a node made by [NewNodeInfo(nil)], see
    [NewNodeInfo_spec]), and only its task map changes, by the insertion
    of a new copy of the task or by the deletion of the key. *)
Theorem nil_node_only_tasks cb s ni task t n :
  nodeinfos s !! ni = Some n ->
  NNode n = None ->
  taskinfos s !! task = Some t ->
  let key := PodKey (TaskPod t) in
  (Tasks n !! key = None ->
   exists s' ti,
     AddTask cb ni task s = Some (None, s') /\
     resources s' = resources s /\
     nodeinfos s' !! ni = Some (setTasks (<[key := ti]> (Tasks n)) n) /\
     taskinfos s !! ti = None /\
     taskinfos s' !! ti = Some (storedCopy cb t) /\
     (forall v, view s ni = Some v ->
                exists v', view s' ni = Some v' /\ sameCounters v v')) /\
  (is_Some (Tasks n !! key) ->
   exists s',
     RemoveTask ni task s = Some (None, s') /\
     resources s' = resources s /\
     taskinfos s' = taskinfos s /\
     nodeinfos s' !! ni = Some (setTasks (delete key (Tasks n)) n) /\
     (forall v, view s ni = Some v ->
                exists v', view s' ni = Some v' /\ sameCounters v v')).
Proof.
  intros Hn Hnil Ht key. split.
  - intros Hk. eexists _, _. split.
    + apply AddTask_run; try done. rewrite Hnil. by intros [? ?].
    + simpl. unfold addTaskResources. rewrite Hnil.
      split; [done|]. split; [by rewrite lookup_insert_eq|].
      split; [apply fresh_task_None|].
      split; [by rewrite lookup_insert_eq|].
      intros v Hv. eapply view_sameCounters; [exact Hn| |done|exact Hv].
      simpl. by rewrite lookup_insert_eq.
  - intros [l Hk]. eexists. split.
    + eapply (RemoveTask_run s ni task n t l t); try done.
      rewrite Hnil. by intros [? ?].
    + simpl. unfold removeTaskResources. rewrite Hnil.
      split; [done|]. split; [done|].
      split; [by rewrite lookup_insert_eq|].
      intros v Hv. eapply view_sameCounters; [exact Hn| |done|exact Hv].
      simpl. by rewrite lookup_insert_eq.
Qed.

Lemma nil_node_only_tasks_witness :
  let s := freshNodeStore None (task1 Running true req1) in
  let n := mkNodeInfo "" None 1%positive 2%positive 3%positive 4%positive
                      5%positive 6%positive ∅ in
  (Tasks n !! "c1/p1" = None ->
   exists s' ti,
     AddTask noBackfill 1%positive 1%positive s = Some (None, s') /\
     resources s' = resources s /\
     nodeinfos s' !! 1%positive = Some (setTasks (<["c1/p1" := ti]> (Tasks n)) n) /\
     taskinfos s !! ti = None /\
     taskinfos s' !! ti = Some (storedCopy noBackfill (task1 Running true req1)) /\
     (forall v, view s 1%positive = Some v ->
                exists v', view s' 1%positive = Some v' /\ sameCounters v v')) /\
  (is_Some (Tasks n !! "c1/p1") ->
   exists s',
     RemoveTask 1%positive 1%positive s = Some (None, s') /\
     resources s' = resources s /\
     taskinfos s' = taskinfos s /\
     nodeinfos s' !! 1%positive = Some (setTasks (delete "c1/p1" (Tasks n)) n) /\
     (forall v, view s 1%positive = Some v ->
                exists v', view s' 1%positive = Some v' /\ sameCounters v v')).
Proof.
  apply (nil_node_only_tasks noBackfill
           (freshNodeStore None (task1 Running true req1))
           1%positive 1%positive (task1 Running true req1)
           (mkNodeInfo "" None 1%positive 2%positive 3%positive 4%positive
                       5%positive 6%positive ∅)).
  - vm_compute. reflexivity.
  - reflexivity.
  - vm_compute. reflexivity.
Defined.

(** * Constructors *)

#[local] Set Warnings "-clear-no-such-hyp".

(** Six objects allocated one after the other are six different objects,
    none of which was in the store before. *)
Lemma alloc_six (rs : gmap loc Resource) r1 r2 r3 r4 r5 r6 :
  let l1 := fresh (dom rs) in let m1 := <[l1:=r1]> rs in
  let l2 := fresh (dom m1) in let m2 := <[l2:=r2]> m1 in
  let l3 := fresh (dom m2) in let m3 := <[l3:=r3]> m2 in
  let l4 := fresh (dom m3) in let m4 := <[l4:=r4]> m3 in
  let l5 := fresh (dom m4) in let m5 := <[l5:=r5]> m4 in
  let l6 := fresh (dom m5) in let m6 := <[l6:=r6]> m5 in
  NoDup [l1; l2; l3; l4; l5; l6] /\
  Forall (fun l => rs !! l = None) [l1; l2; l3; l4; l5; l6] /\
  rs ⊆ m6 /\
  m6 !! l1 = Some r1 /\ m6 !! l2 = Some r2 /\ m6 !! l3 = Some r3 /\
  m6 !! l4 = Some r4 /\ m6 !! l5 = Some r5 /\ m6 !! l6 = Some r6.
Proof.
  intros.
  assert (Hfresh1 : l1 ∉ dom rs) by apply is_fresh.
  assert (Hfresh2 : l2 ∉ dom m1) by apply is_fresh.
  assert (Hfresh3 : l3 ∉ dom m2) by apply is_fresh.
  assert (Hfresh4 : l4 ∉ dom m3) by apply is_fresh.
  assert (Hfresh5 : l5 ∉ dom m4) by apply is_fresh.
  assert (Hfresh6 : l6 ∉ dom m5) by apply is_fresh.
  clearbody l1 l2 l3 l4 l5 l6.
  subst m1 m2 m3 m4 m5 m6.
  rewrite !dom_insert_L in *.
  assert (Hne : NoDup [l1; l2; l3; l4; l5; l6]).
  { repeat (apply NoDup_cons; split; [set_solver|]). apply NoDup_nil_2. }
  split; [done|]. split.
  { repeat (apply Forall_cons; split; [apply not_elem_of_dom; set_solver|]).
    apply Forall_nil_2. }
  split.
  { repeat (etrans; [|apply insert_subseteq; apply not_elem_of_dom;
                       rewrite ?dom_insert_L; set_solver]).
    done. }
  nodup_neqs.
  repeat split; simplify_map_eq; done.
Qed.

(** [NewNodeInfo] never fails; it makes a node of its own, with six new
    counters and no task. *)
Lemma NewNodeInfo_spec node s :
  exists ni n s',
    NewNodeInfo node s = Some (ni, s') /\
    nodeinfos s !! ni = None /\
    nodeinfos s' = <[ni := n]> (nodeinfos s) /\
    taskinfos s' = taskinfos s /\
    resources s ⊆ resources s' /\
    Forall (fun l => resources s !! l = None) (counterLocs n) /\
    Tasks n = ∅ /\
    NNode n = node /\
    wfNode s' ni /\
    view s' ni = Some (newView node).
Proof.
  destruct node as [nd|]; unfold NewNodeInfo, EmptyResource, NewResource.
  - destruct (alloc_six (resources s) zeroResource (StatusAllocatable nd)
                zeroResource zeroResource (StatusAllocatable nd)
                (StatusCapacity nd))
      as (Hnd & Hfr & Hsub & Hl1 & Hl2 & Hl3 & Hl4 & Hl5 & Hl6).
    eexists _, _, _. split.
    { do 6 (erewrite run_bind by reflexivity). reflexivity. }
    simpl. split; [apply fresh_node_None|].
    split; [reflexivity|]. split; [reflexivity|]. split; [exact Hsub|].
    split; [exact Hfr|]. split; [reflexivity|]. split; [reflexivity|].
    split.
    + unfold wfNode. simpl. rewrite lookup_insert_eq.
      split; [exact Hnd|]. simpl. apply map_Forall_empty.
    + unfold view. simpl. rewrite lookup_insert_eq. simpl.
      erewrite viewOf_intro; [| simpl; eassumption ..]. reflexivity.
  - destruct (alloc_six (resources s) zeroResource zeroResource
                zeroResource zeroResource zeroResource zeroResource)
      as (Hnd & Hfr & Hsub & Hl1 & Hl2 & Hl3 & Hl4 & Hl5 & Hl6).
    eexists _, _, _. split.
    { do 6 (erewrite run_bind by reflexivity). reflexivity. }
    simpl. split; [apply fresh_node_None|].
    split; [reflexivity|]. split; [reflexivity|]. split; [exact Hsub|].
    split; [exact Hfr|]. split; [reflexivity|]. split; [reflexivity|].
    split.
    + unfold wfNode. simpl. rewrite lookup_insert_eq.
      split; [exact Hnd|]. simpl. apply map_Forall_empty.
    + unfold view. simpl. rewrite lookup_insert_eq. simpl.
      erewrite viewOf_intro; [| simpl; eassumption ..]. reflexivity.
Qed.

(** * Accessible resources *)

Lemma Resource_Clone_run s l r :
  resources s !! l = Some r ->
  Resource_Clone l s =
  Some (fresh (dom (resources s)), setRes (fresh (dom (resources s))) r s).
Proof.
  intros H. unfold Resource_Clone.
  erewrite run_bind by (by apply getResource_run). reflexivity.
Qed.

Lemma view_extends s s' ni v :
  extends s s' -> wfNode s ni -> view s ni = Some v -> view s' ni = Some v.
Proof.
  intros (Hr & Ht & Hn) Hwf Hv.
  apply view_unfold in Hv as (n & Hnl & Hv).
  rewrite (wfNode_unfold _ _ _ Hnl) in Hwf. destruct Hwf as [_ Hall].
  apply viewOf_Some in Hv as (Hrel & Hidle & Hused & Hbf & Halloc & Hcap & Hnode & Hts).
  apply view_unfold. exists n. split.
  { eapply lookup_weaken; eauto. }
  erewrite viewOf_intro; cycle 1.
  1-6: eapply lookup_weaken; eauto.
  destruct v; simpl in *. subst. f_equal. f_equal.
  apply map_eq. intros k. rewrite !derefTasks_lookup.
  destruct (Tasks n !! k) as [l|] eqn:Hl; [|done]. simpl.
  destruct (Hall k l Hl) as [x Hx]. rewrite Hx.
  eapply lookup_weaken; eauto.
Qed.

(** C6.  [GetAccessibleResource] returns a new resource object that
    holds [Idle + Backfilled], component by component; no object that was
    in the store is written, so the node shows the same [Idle], [Used],
    [Releasing] and [Backfilled] (and tasks) after the call. *)
Theorem GetAccessibleResource_sum s ni n idle bf :
  nodeinfos s !! ni = Some n ->
  resources s !! Idle n = Some idle ->
  resources s !! Backfilled n = Some bf ->
  exists l s',
    GetAccessibleResource ni s = Some (l, s') /\
    resources s' !! l = Some (radd idle bf) /\
    resources s !! l = None /\
    resources s ⊆ resources s' /\
    taskinfos s' = taskinfos s /\
    nodeinfos s' = nodeinfos s /\
    (forall v, view s ni = Some v -> view s' ni = Some v).
Proof.
  intros Hn Hidle Hbf. unfold GetAccessibleResource.
  run_step.
  erewrite run_bind by (by apply Resource_Clone_run).
  set (l1 := fresh (dom (resources s))).
  assert (Hl1 : resources s !! l1 = None) by apply fresh_resource_None.
  assert (Hbf1 : resources (setRes l1 idle s) !! Backfilled n = Some bf).
  { simpl. rewrite lookup_insert_ne; [done|]. intros E. congruence. }
  erewrite run_bind by (apply getResource_run; exact Hbf1).
  erewrite run_bind; cycle 1.
  { apply Resource_Add_run. simpl. rewrite lookup_insert_eq. eauto. }
  erewrite run_bind; cycle 1.
  { apply (Resource_Clone_run _ _ (radd idle bf)). simpl.
    by rewrite lookup_alter, decide_True, lookup_insert_eq. }
  simpl.
  set (m2 := alter (fun x => radd x bf) l1 (<[l1:=idle]> (resources s))).
  set (l2 := fresh (dom m2)).
  assert (Hl2 : m2 !! l2 = None) by apply fresh_resource_None.
  assert (Hsub : resources s ⊆ m2).
  { apply map_subseteq_spec. intros i x Hi. unfold m2.
    rewrite lookup_alter_ne, lookup_insert_ne; [done|congruence|congruence]. }
  assert (Hl2s : resources s !! l2 = None).
  { destruct (resources s !! l2) as [x|] eqn:E; [|done].
    eapply lookup_weaken in E; [|exact Hsub]. congruence. }
  exists l2, (setRes l2 (radd idle bf)
                (mkStore m2 (taskinfos (setRes l1 idle s))
                         (nodeinfos (setRes l1 idle s)))).
  split; [reflexivity|]. simpl.
  split; [by rewrite lookup_insert_eq|]. split; [done|].
  assert (Hsub' : resources s ⊆ <[l2:=radd idle bf]> m2).
  { etrans; [exact Hsub|]. by apply insert_subseteq. }
  split; [done|]. split; [done|]. split; [done|].
  intros v Hv. apply view_unfold in Hv as (n' & Hn' & Hv).
  apply view_unfold. exists n'. split; [done|].
  apply viewOf_Some in Hv as (Ha & Hb & Hc & Hd & He & Hf & Hg & Hh).
  erewrite viewOf_intro; cycle 1.
  1-6: simpl; eapply lookup_weaken; [|exact Hsub']; eassumption.
  destruct v; simpl in *. subst. reflexivity.
Qed.

Lemma GetAccessibleResource_sum_witness :
  exists l s',
    GetAccessibleResource 1%positive
      (freshNodeStore (Some node1) (task1 Running false req1)) = Some (l, s') /\
    resources s' !! l = Some (radd (mkResource 4 8 0) zeroResource) /\
    resources (freshNodeStore (Some node1) (task1 Running false req1)) !! l = None /\
    resources (freshNodeStore (Some node1) (task1 Running false req1))
      ⊆ resources s' /\
    taskinfos s' =
      taskinfos (freshNodeStore (Some node1) (task1 Running false req1)) /\
    nodeinfos s' =
      nodeinfos (freshNodeStore (Some node1) (task1 Running false req1)) /\
    (forall v,
       view (freshNodeStore (Some node1) (task1 Running false req1)) 1%positive
         = Some v ->
       view s' 1%positive = Some v).
Proof.
  apply (GetAccessibleResource_sum
           (freshNodeStore (Some node1) (task1 Running false req1)) 1%positive
           (mkNodeInfo "n1" (Some node1) 1%positive 2%positive 3%positive
                       4%positive 5%positive 6%positive ∅)).
  - vm_compute. reflexivity.
  - vm_compute. reflexivity.
  - vm_compute. reflexivity.
Defined.

(** * Resource algebra *)

Lemma Resource_eq a b :
  MilliCPU a = MilliCPU b -> Memory a = Memory b -> MilliGPU a = MilliGPU b ->
  a = b.
Proof. destruct a, b. simpl. by intros -> -> ->. Qed.

Ltac resource_components :=
  repeat match goal with
         | H : @eq Resource ?a ?b |- _ =>
             assert (MilliCPU a = MilliCPU b) by (by rewrite H);
             assert (Memory a = Memory b) by (by rewrite H);
             assert (MilliGPU a = MilliGPU b) by (by rewrite H);
             clear H
         end.

Ltac resource_arith :=
  resource_components;
  unfold rle, radd, rsub, zeroResource in *; simpl in *;
  try apply Resource_eq; simpl; lia.

Lemma radd_rsub a r : rsub (radd a r) r = a.
Proof. resource_arith. Qed.

Lemma rsub_radd a r : rle r a -> radd (rsub a r) r = a.
Proof. intros H. resource_arith. Qed.

Lemma radd_comm a b : radd a b = radd b a.
Proof. resource_arith. Qed.

Lemma radd_assoc a b c : radd (radd a b) c = radd a (radd b c).
Proof. resource_arith. Qed.

Lemma LessEqual_rle a b : LessEqual a b = true <-> rle a b.
Proof.
  unfold LessEqual, rle. rewrite !andb_true_iff, !N.leb_le. tauto.
Qed.

#[global] Instance rle_dec a b : Decision (rle a b).
Proof. unfold rle. apply _. Defined.

(** * What AddTask does to the counters *)



(** * Adding, then removing *)

Lemma storedCopy_flagged cb t :
  (cb (TaskPod t) = true -> IsBackfill t = true) -> storedCopy cb t = t.
Proof.
  intros H. unfold storedCopy.
  destruct (cb (TaskPod t)); [|done]. rewrite H; done.
Qed.

Lemma setTasks_same n : setTasks (Tasks n) n = n.
Proof. by destruct n. Qed.

Lemma removeTaskView_addTaskView cb t v :
  vTasks v !! PodKey (TaskPod t) = None ->
  (is_Some (vNode v) ->
   rle (Resreq t)
       (match Status t with Pipelined => vReleasing v | _ => vIdle v end)) ->
  (cb (TaskPod t) = true -> IsBackfill t = true) ->
  removeTaskView (PodKey (TaskPod t)) (storedCopy cb t) (addTaskView cb t v) = v.
Proof.
  intros Hk Hfit Hflag. rewrite (storedCopy_flagged cb t Hflag).
  destruct v as [node rel idle used bf alloc cap tasks]. simpl in *.
  unfold removeTaskView, addTaskView. simpl.
  destruct node as [nd|]; simpl.
  - specialize (Hfit (ltac:(eauto))).
    rewrite delete_insert_eq, (delete_id _ _ Hk).
    destruct (IsBackfill t); destruct (Status t); simpl;
      rewrite ?radd_rsub, ?rsub_radd by done; reflexivity.
  - by rewrite delete_insert_eq, (delete_id _ _ Hk).
Qed.

(** Where adding, then removing, does give the node back.  [AddTask] of
    a task whose key is not on the node, followed by [RemoveTask] of the
    same task, leaves the node as it was ([Idle], [Used], [Releasing],
    [Backfilled], the task map and every other field), when no [Sub] of
    [AddTask] is a policy error (the request is at most [Releasing] for a
    Pipelined task, at most [Idle] for any other; nothing is asked of a
    node without node object) and the task has [IsBackfill] set if
    [CheckBackfill] holds of its pod. *)
Lemma AddTask_RemoveTask_restores cb s ni task t v :
  wfNode s ni ->
  view s ni = Some v ->
  taskinfos s !! task = Some t ->
  vTasks v !! PodKey (TaskPod t) = None ->
  (is_Some (vNode v) ->
   rle (Resreq t)
       (match Status t with Pipelined => vReleasing v | _ => vIdle v end)) ->
  (cb (TaskPod t) = true -> IsBackfill t = true) ->
  exists s1 s2,
    AddTask cb ni task s = Some (None, s1) /\
    RemoveTask ni task s1 = Some (None, s2) /\
    view s2 ni = Some v /\
    nodeinfos s2 !! ni = nodeinfos s !! ni.
Proof.
  intros Hwf Hv Ht Hk Hfit Hflag.
  destruct (AddTask_spec cb s ni task t v Hwf Hv Ht Hk)
    as (s1 & n & Hadd & Hn & Hs1 & Hwf1 & Hv1).
  assert (Ht1 : taskinfos s1 !! task = Some t).
  { rewrite Hs1. simpl. by apply lookup_fresh_task_ne. }
  assert (Hk1 : vTasks (addTaskView cb t v) !! PodKey (TaskPod t) =
                Some (storedCopy cb t)).
  { unfold addTaskView. destruct (vNode v); simpl; apply lookup_insert_eq. }
  destruct (RemoveTask_spec s1 ni task t _ _ Hwf1 Hv1 Ht1 Hk1)
    as (s2 & n1 & Hrem & Hn1 & Hs2 & Hwf2 & Hv2).
  exists s1, s2. split; [done|]. split; [done|]. split.
  - rewrite Hv2. f_equal. by apply removeTaskView_addTaskView.
  - rewrite Hs2. simpl. rewrite lookup_insert_eq.
    rewrite Hs1 in Hn1. simpl in Hn1. rewrite lookup_insert_eq in Hn1.
    injection Hn1 as <-. simpl. rewrite Hn. f_equal.
    rewrite delete_insert_eq.
    apply view_unfold in Hv as (n' & Hn' & Hv).
    assert (n' = n) as -> by congruence.
    rewrite (wfNode_unfold _ _ _ Hn) in Hwf.
    pose proof (viewOf_Some _ _ _ Hv) as (_ & _ & _ & _ & _ & _ & _ & Hts).
    rewrite Hts in Hk. apply (derefTasks_None _ _ _ Hwf) in Hk.
    rewrite (delete_id _ _ Hk). destruct n; reflexivity.
Qed.

Lemma AddTask_RemoveTask_restores_witness :
  let s := freshNodeStore (Some node1) (task1 Running false req1) in
  exists s1 s2,
    AddTask noBackfill 1%positive 1%positive s = Some (None, s1) /\
    RemoveTask 1%positive 1%positive s1 = Some (None, s2) /\
    view s2 1%positive = Some (freshView node1) /\
    nodeinfos s2 !! 1%positive = nodeinfos s !! 1%positive.
Proof.
  apply (AddTask_RemoveTask_restores noBackfill
           (freshNodeStore (Some node1) (task1 Running false req1))
           1%positive 1%positive (task1 Running false req1) (freshView node1)).
  - apply (bool_decide_unpack _). vm_compute. reflexivity.
  - vm_compute. reflexivity.
  - vm_compute. reflexivity.
  - vm_compute. reflexivity.
  - intros _. apply (bool_decide_unpack _). vm_compute. reflexivity.
  - cbv. intros H. discriminate H.
Defined.

(** C3, where the code departs from it.  The flag that [AddTask] tests
    is not the flag it stores.  With a [CheckBackfill] that holds of the
    pod and a task that does not have [IsBackfill] set yet, [AddTask]
    sets the flag on the copy it stores, then tests the flag of the task
    it was given and leaves [Backfilled] alone; [RemoveTask] reads the
    copy and takes the request from [Backfilled].  Here a backfill task
    [p1] of request (1, 2, 0) is on a node of allocatable (4, 8, 0); the
    task [p2], of the same request, is added and removed.  Every request
    fits the counter it is taken from, so no [Sub] is a policy error.
    [Idle], [Used], [Releasing] and the tasks come back; [Backfilled]
    ends empty while [p1] is still on the node. *)
Theorem AddTask_tests_the_flag_before_setting_it :
  let p1 := task1 Running true req1 in
  let p2 := task2 Running false req1 in
  let s0 := exec (allocTask p1;; allocTask p2;; NewNodeInfo (Some node1))
              emptyStore in
  let s1 := exec (AddTask allBackfill 1%positive 1%positive) s0 in
  let s2 := exec (AddTask allBackfill 1%positive 2%positive) s1 in
  let s3 := exec (RemoveTask 1%positive 2%positive) s2 in
  let before :=
    mkNodeView (Some node1) zeroResource (mkResource 3 6 0) req1 req1
               (mkResource 4 8 0) (mkResource 4 8 0) {["c1/p1" := p1]} in
  wfNode s1 1%positive /\
  taskinfos s1 !! 2%positive = Some p2 /\
  view s1 1%positive = Some before /\
  vTasks before !! PodKey (TaskPod p2) = None /\
  AddTask allBackfill 1%positive 2%positive s1 = Some (None, s2) /\
  view s2 1%positive =
    Some (mkNodeView (Some node1) zeroResource (mkResource 2 4 0)
                     (mkResource 2 4 0) req1
                     (mkResource 4 8 0) (mkResource 4 8 0)
                     {["c1/p1" := p1; "c1/p2" := setIsBackfill true p2]}) /\
  RemoveTask 1%positive 2%positive s2 = Some (None, s3) /\
  view s3 1%positive =
    Some (mkNodeView (Some node1) zeroResource (mkResource 3 6 0) req1
                     zeroResource
                     (mkResource 4 8 0) (mkResource 4 8 0)
                     {["c1/p1" := p1]}) /\
  view s3 1%positive <> view s1 1%positive.
Proof.
  split; [apply (bool_decide_unpack _); vm_compute; reflexivity|].
  split; [vm_compute; reflexivity|].
  split; [vm_compute; reflexivity|].
  split; [vm_compute; reflexivity|].
  split; [vm_compute; reflexivity|].
  split; [vm_compute; reflexivity|].
  split; [vm_compute; reflexivity|].
  split; [vm_compute; reflexivity|].
  vm_compute. intros H. discriminate H.
Qed.

(** * Sums of requests *)

Lemma sumReq_empty (p : TaskInfo -> bool) : sumReq p ∅ = zeroResource.
Proof. unfold sumReq. apply map_fold_empty. Qed.

Lemma sumReq_step_comm (p : TaskInfo -> bool) (t1 t2 : TaskInfo) (acc : Resource) :
  (if p t1 then radd (if p t2 then radd acc (Resreq t2) else acc) (Resreq t1)
   else (if p t2 then radd acc (Resreq t2) else acc)) =
  (if p t2 then radd (if p t1 then radd acc (Resreq t1) else acc) (Resreq t2)
   else (if p t1 then radd acc (Resreq t1) else acc)).
Proof.
  destruct (p t1), (p t2); try reflexivity.
  rewrite !radd_assoc. f_equal. apply radd_comm.
Qed.

Lemma sumReq_insert (p : TaskInfo -> bool) (m : gmap TaskID TaskInfo) k t :
  m !! k = None ->
  sumReq p (<[k:=t]> m) =
  if p t then radd (sumReq p m) (Resreq t) else sumReq p m.
Proof.
  intros H. unfold sumReq. rewrite map_fold_insert_L; [done| |done].
  intros. apply sumReq_step_comm.
Qed.

Lemma sumReq_delete (p : TaskInfo -> bool) (m : gmap TaskID TaskInfo) k t :
  m !! k = Some t ->
  sumReq p m =
  if p t then radd (sumReq p (delete k m)) (Resreq t)
  else sumReq p (delete k m).
Proof.
  intros H. unfold sumReq. rewrite (map_fold_delete_L _ _ k t m); [done| |done].
  intros. apply sumReq_step_comm.
Qed.

Lemma sumReq_mono (p q : TaskInfo -> bool) (m : gmap TaskID TaskInfo) :
  (forall t, p t = true -> q t = true) ->
  rle (sumReq p m) (sumReq q m).
Proof.
  intros Hpq. induction m as [|k t m Hk IH] using map_ind.
  - rewrite !sumReq_empty. resource_arith.
  - rewrite !sumReq_insert by done.
    destruct (p t) eqn:Hp.
    + rewrite (Hpq t Hp). resource_arith.
    + destruct (q t); resource_arith.
Qed.

(** * The identities across an operation *)

Lemma IsBackfill_storedCopy cb t :
  IsBackfill t = true -> IsBackfill (storedCopy cb t) = true.
Proof. unfold storedCopy. by destruct (_ && _). Qed.

Lemma isStatus_storedCopy cb st t :
  isStatus st (storedCopy cb t) = isStatus st t.
Proof. unfold isStatus. by rewrite Status_storedCopy. Qed.

Lemma addTaskView_node cb t v : vNode (addTaskView cb t v) = vNode v.
Proof. unfold addTaskView. by destruct (vNode v). Qed.

Lemma removeTaskView_node k c v : vNode (removeTaskView k c v) = vNode v.
Proof. unfold removeTaskView. by destruct (vNode v). Qed.

Lemma addTaskView_allocatable cb t v :
  vAllocatable (addTaskView cb t v) = vAllocatable v.
Proof. unfold addTaskView. by destruct (vNode v). Qed.

Lemma removeTaskView_allocatable k c v :
  vAllocatable (removeTaskView k c v) = vAllocatable v.
Proof. unfold removeTaskView. by destruct (vNode v). Qed.

Lemma addTaskView_counted cb t v :
  vTasks v !! PodKey (TaskPod t) = None ->
  is_Some (vNode v) ->
  usedCounted v -> backfilledBounded v ->
  usedCounted (addTaskView cb t v) /\ backfilledBounded (addTaskView cb t v).
Proof.
  unfold usedCounted, backfilledBounded, addTaskView.
  intros Hk [nd ->] HU HB. simpl.
  rewrite !sumReq_insert by done. simpl. rewrite Resreq_storedCopy.
  split; [by rewrite HU|].
  destruct (IsBackfill t) eqn:Hbf.
  - rewrite (IsBackfill_storedCopy cb t Hbf). resource_arith.
  - destruct (IsBackfill (storedCopy cb t)); resource_arith.
Qed.

Lemma addTaskView_balanced cb t v :
  vTasks v !! PodKey (TaskPod t) = None ->
  is_Some (vNode v) ->
  (isStatus Pipelined t = false -> rle (Resreq t) (vIdle v)) ->
  idleBalanced v ->
  idleBalanced (addTaskView cb t v).
Proof.
  unfold idleBalanced, addTaskView.
  intros Hk [nd ->] Hfit HI. simpl.
  rewrite !sumReq_insert by done. rewrite isStatus_storedCopy, Resreq_storedCopy.
  destruct (isStatus Pipelined t) eqn:E; unfold isStatus in E.
  - apply bool_decide_eq_true in E. rewrite E. clear Hfit. resource_arith.
  - apply bool_decide_eq_false in E. specialize (Hfit eq_refl).
    destruct (Status t); try congruence; resource_arith.
Qed.

Lemma removeTaskView_counted k c v :
  vTasks v !! k = Some c ->
  is_Some (vNode v) ->
  usedCounted v -> backfilledBounded v ->
  usedCounted (removeTaskView k c v) /\ backfilledBounded (removeTaskView k c v).
Proof.
  unfold usedCounted, backfilledBounded, removeTaskView.
  intros Hk [nd ->] HU HB. simpl.
  rewrite (sumReq_delete allTasks _ k c Hk) in HU.
  rewrite (sumReq_delete IsBackfill _ k c Hk) in HB. simpl in HU.
  split; [rewrite HU; apply radd_rsub|].
  destruct (IsBackfill c); resource_arith.
Qed.

Lemma removeTaskView_balanced k c v :
  vTasks v !! k = Some c ->
  is_Some (vNode v) ->
  usedCounted v ->
  idleBalanced v ->
  idleBalanced (removeTaskView k c v).
Proof.
  unfold usedCounted, idleBalanced, removeTaskView.
  intros Hk [nd ->] HU HI. simpl.
  rewrite (sumReq_delete allTasks _ k c Hk) in HU. simpl in HU.
  rewrite (sumReq_delete (isStatus Pipelined) _ k c Hk) in HI.
  rewrite HU in HI |- *. clear HU.
  destruct (isStatus Pipelined c) eqn:E; unfold isStatus in E.
  - apply bool_decide_eq_true in E. rewrite E. resource_arith.
  - apply bool_decide_eq_false in E.
    destruct (Status c); try congruence; resource_arith.
Qed.

(** * Sequences of successful operations *)

Lemma AddTask_ok_inv cb s ni task s1 v :
  wfNode s ni ->
  view s ni = Some v ->
  AddTask cb ni task s = Some (None, s1) ->
  exists t,
    taskinfos s !! task = Some t /\
    vTasks v !! PodKey (TaskPod t) = None /\
    wfNode s1 ni /\
    view s1 ni = Some (addTaskView cb t v).
Proof.
  intros Hwf Hv Hrun.
  pose proof Hv as Hv0. apply view_unfold in Hv0 as (n & Hn & Hvn).
  pose proof (viewOf_Some _ _ _ Hvn) as (_ & _ & _ & _ & _ & _ & _ & Hts).
  destruct (taskinfos s !! task) as [t|] eqn:Ht.
  - exists t. split; [done|].
    destruct (vTasks v !! PodKey (TaskPod t)) as [c|] eqn:Hk.
    + rewrite Hts in Hk. apply derefTasks_Some in Hk as (l & Hl & _).
      rewrite (AddTask_duplicate cb s ni task n t Hn Ht) in Hrun by eauto.
      discriminate Hrun.
    + destruct (AddTask_spec cb s ni task t v Hwf Hv Ht Hk)
        as (s' & _ & Hrun' & _ & _ & Hwf' & Hv').
      rewrite Hrun' in Hrun. injection Hrun as <-. done.
  - unfold AddTask in Hrun. revert Hrun. run_step.
    rewrite run_bind_panic; [done|]. unfold getTask. by rewrite Ht.
Qed.

Lemma RemoveTask_ok_inv s ni task s1 v :
  wfNode s ni ->
  view s ni = Some v ->
  RemoveTask ni task s = Some (None, s1) ->
  exists t c,
    taskinfos s !! task = Some t /\
    vTasks v !! PodKey (TaskPod t) = Some c /\
    wfNode s1 ni /\
    view s1 ni = Some (removeTaskView (PodKey (TaskPod t)) c v).
Proof.
  intros Hwf Hv Hrun.
  pose proof Hv as Hv0. apply view_unfold in Hv0 as (n & Hn & Hvn).
  pose proof Hwf as Hwfn. rewrite (wfNode_unfold _ _ _ Hn) in Hwfn.
  pose proof (viewOf_Some _ _ _ Hvn) as (_ & _ & _ & _ & _ & _ & _ & Hts).
  destruct (taskinfos s !! task) as [t|] eqn:Ht.
  - exists t.
    destruct (vTasks v !! PodKey (TaskPod t)) as [c|] eqn:Hk.
    + exists c. split; [done|]. split; [done|].
      destruct (RemoveTask_spec s ni task t v c Hwf Hv Ht Hk)
        as (s' & _ & Hrun' & _ & _ & Hwf' & Hv').
      rewrite Hrun' in Hrun. injection Hrun as <-. done.
    + rewrite Hts in Hk. apply (derefTasks_None _ _ _ Hwfn) in Hk.
      rewrite (RemoveTask_missing s ni task n t Hn Ht Hk) in Hrun.
      discriminate Hrun.
  - unfold RemoveTask in Hrun. revert Hrun. run_step.
    rewrite run_bind_panic; [done|]. unfold getTask. by rewrite Ht.
Qed.

Lemma runOps_cons cb ni op rest s s' :
  runOps cb ni (op :: rest) s = Some (None, s') ->
  exists s1, runOp cb ni op s = Some (None, s1) /\
             runOps cb ni rest s1 = Some (None, s').
Proof.
  simpl. unfold mbind at 1, M_bind at 1.
  destruct (runOp cb ni op s) as [[[e|] s1]|]; [done| |done].
  intros H. eauto.
Qed.

Lemma runOps_invariant cb ni ops : forall s s' v,
  wfNode s ni ->
  view s ni = Some v ->
  is_Some (vNode v) ->
  usedCounted v ->
  backfilledBounded v ->
  runOps cb ni ops s = Some (None, s') ->
  exists v',
    wfNode s' ni /\
    view s' ni = Some v' /\
    vNode v' = vNode v /\
    vAllocatable v' = vAllocatable v /\
    usedCounted v' /\
    backfilledBounded v' /\
    (idleBalanced v -> fitsIdle cb ni ops s = true -> idleBalanced v').
Proof.
  induction ops as [|op rest IH]; intros s s' v Hwf Hv Hnode HU HB Hrun.
  - injection Hrun as <-. exists v.
    split; [done|]. split; [done|]. split; [done|]. split; [done|].
    split; [done|]. split; [done|]. by intros HI _.
  - apply runOps_cons in Hrun as (s1 & Hop & Hrest).
    destruct op as [task|task]; simpl in Hop.
    + destruct (AddTask_ok_inv cb s ni task s1 v Hwf Hv Hop)
        as (t & Ht & Hk & Hwf1 & Hv1).
      destruct (addTaskView_counted cb t v Hk Hnode HU HB) as [HU1 HB1].
      assert (Hnode1 : is_Some (vNode (addTaskView cb t v)))
        by (by rewrite addTaskView_node).
      destruct (IH s1 s' _ Hwf1 Hv1 Hnode1 HU1 HB1 Hrest)
        as (v' & Hwf' & Hv' & Hn' & Ha' & HU' & HB' & HI').
      exists v'. split; [done|]. split; [done|].
      split; [by rewrite Hn', addTaskView_node|].
      split; [by rewrite Ha', addTaskView_allocatable|].
      split; [done|]. split; [done|].
      intros HI Hfit. simpl in Hfit. rewrite Ht, Hv, Hop in Hfit.
      apply andb_true_iff in Hfit as [Hfit1 Hfit2].
      apply HI'; [|done].
      apply addTaskView_balanced; try done.
      intros Hp. rewrite Hp in Hfit1. simpl in Hfit1.
      by apply LessEqual_rle.
    + destruct (RemoveTask_ok_inv s ni task s1 v Hwf Hv Hop)
        as (t & c & Ht & Hk & Hwf1 & Hv1).
      destruct (removeTaskView_counted _ c v Hk Hnode HU HB) as [HU1 HB1].
      assert (Hnode1 : is_Some (vNode (removeTaskView (PodKey (TaskPod t)) c v)))
        by (by rewrite removeTaskView_node).
      destruct (IH s1 s' _ Hwf1 Hv1 Hnode1 HU1 HB1 Hrest)
        as (v' & Hwf' & Hv' & Hn' & Ha' & HU' & HB' & HI').
      exists v'. split; [done|]. split; [done|].
      split; [by rewrite Hn', removeTaskView_node|].
      split; [by rewrite Ha', removeTaskView_allocatable|].
      split; [done|]. split; [done|].
      intros HI Hfit. simpl in Hfit. rewrite Hop in Hfit. simpl in Hfit.
      apply HI'; [|done].
      by apply removeTaskView_balanced.
Qed.

(** C2, as the code has it.  On a node made by [NewNodeInfo] from a node
    object, after any sequence of successful [AddTask] and [RemoveTask]:
    [Allocatable] is the allocatable of the node object, [Used] is the sum
    of the requests of the tasks on the node, and
    [0 <= Backfilled <= Used], component by component.  If moreover no
    [AddTask] of the sequence asked [Idle] for more than it held, then
    [Idle + Used = Allocatable + the requests of the Pipelined tasks on
    the node]; [Releasing] is no part of that identity. *)
Theorem bookkeeping_invariant cb nd s0 ni s1 ops s' :
  NewNodeInfo (Some nd) s0 = Some (ni, s1) ->
  runOps cb ni ops s1 = Some (None, s') ->
  exists v,
    view s' ni = Some v /\
    vAllocatable v = StatusAllocatable nd /\
    vUsed v = sumReq allTasks (vTasks v) /\
    rle zeroResource (vBackfilled v) /\
    rle (vBackfilled v) (vUsed v) /\
    (fitsIdle cb ni ops s1 = true ->
     radd (vIdle v) (vUsed v) =
     radd (vAllocatable v) (sumReq (isStatus Pipelined) (vTasks v))).
Proof.
  intros Hnew Hrun.
  destruct (NewNodeInfo_spec (Some nd) s0)
    as (ni' & n & s1' & Hnew' & _ & _ & _ & _ & _ & _ & _ & Hwf & Hv).
  rewrite Hnew in Hnew'. injection Hnew' as <- <-.
  assert (HU : usedCounted (newView (Some nd))).
  { unfold usedCounted. simpl. by rewrite sumReq_empty. }
  assert (HB : backfilledBounded (newView (Some nd))).
  { unfold backfilledBounded. simpl. rewrite sumReq_empty. resource_arith. }
  assert (HI : idleBalanced (newView (Some nd))).
  { unfold idleBalanced. simpl. by rewrite sumReq_empty. }
  destruct (runOps_invariant cb ni ops s1 s' _ Hwf Hv (ltac:(simpl; eauto))
              HU HB Hrun)
    as (v & _ & Hv' & _ & Ha & HU' & HB' & HI').
  exists v. split; [done|]. split; [by rewrite Ha|]. split; [done|].
  split; [resource_arith|]. split.
  - unfold usedCounted in HU'. rewrite HU'.
    unfold backfilledBounded in HB'.
    pose proof (sumReq_mono IsBackfill allTasks (vTasks v) (fun _ _ => eq_refl)).
    resource_arith.
  - intros Hfit. by apply HI'.
Qed.

Lemma bookkeeping_invariant_witness :
  let t := task1 Releasing true req1 in
  let ops := [OpAddTask 1%positive; OpRemoveTask 1%positive;
              OpAddTask 1%positive] in
  let s1 := freshNodeStore (Some node1) t in
  exists v,
    view (exec (runOps noBackfill 1%positive ops) s1) 1%positive = Some v /\
    vAllocatable v = StatusAllocatable node1 /\
    vUsed v = sumReq allTasks (vTasks v) /\
    rle zeroResource (vBackfilled v) /\
    rle (vBackfilled v) (vUsed v) /\
    (fitsIdle noBackfill 1%positive ops s1 = true ->
     radd (vIdle v) (vUsed v) =
     radd (vAllocatable v) (sumReq (isStatus Pipelined) (vTasks v))).
Proof.
  apply (bookkeeping_invariant noBackfill node1
           (oneTaskStore (task1 Releasing true req1)) 1%positive
           (freshNodeStore (Some node1) (task1 Releasing true req1))).
  - vm_compute. reflexivity.
  - vm_compute. reflexivity.
Defined.

(** C2 as it is worded fails, and no subtraction is clamped where it
    does: a Releasing task added to a node just made takes its request
    from [Idle] and adds it to [Used] and to [Releasing], so that
    [Idle + Used] is still [Allocatable] and [Idle + Used - Releasing]
    falls short of it by the request. *)
Lemma bookkeeping_releasing_breaks_identity :
  let t := task1 Releasing false req1 in
  let s0 := oneTaskStore t in
  let s1 := freshNodeStore (Some node1) t in
  let s' := exec (runOps noBackfill 1%positive [OpAddTask 1%positive]) s1 in
  let v := mkNodeView (Some node1) (mkResource 1 2 0) (mkResource 3 6 0)
                      (mkResource 1 2 0) zeroResource (mkResource 4 8 0)
                      (mkResource 4 8 0) {["c1/p1" := t]} in
  NewNodeInfo (Some node1) s0 = Some (1%positive, s1) /\
  runOps noBackfill 1%positive [OpAddTask 1%positive] s1 = Some (None, s') /\
  fitsIdle noBackfill 1%positive [OpAddTask 1%positive] s1 = true /\
  view s' 1%positive = Some v /\
  rsub (radd (vIdle v) (vUsed v)) (vReleasing v) <> vAllocatable v /\
  radd (vIdle v) (vUsed v) <> radd (vAllocatable v) (vReleasing v).
Proof.
  split; [vm_compute; reflexivity|].
  split; [vm_compute; reflexivity|].
  split; [vm_compute; reflexivity|].
  split; [vm_compute; reflexivity|].
  split; vm_compute; intros H; discriminate H.
Qed.

(** * SetNode *)

(** C7, where the code departs from it.  A node made from a node object
    gets a Running task, then [SetNode] with the same node object (an
    update of the node): the loop adds the request of the task to a
    [Used] that already counts it.  The node then holds one task of
    request (1, 2, 0) and shows [Used] = (2, 4, 0), with
    [Idle + Used] beyond [Allocatable]. *)
Lemma SetNode_counts_used_twice :
  let t := task1 Running false req1 in
  let s := freshNodeStore (Some node1) t in
  let s1 := exec (AddTask noBackfill 1%positive 1%positive) s in
  let s2 := exec (SetNode map_to_list 1%positive node1) s1 in
  AddTask noBackfill 1%positive 1%positive s = Some (None, s1) /\
  view s1 1%positive =
    Some (mkNodeView (Some node1) zeroResource (mkResource 3 6 0)
                     (mkResource 1 2 0) zeroResource (mkResource 4 8 0)
                     (mkResource 4 8 0) {["c1/p1" := t]}) /\
  SetNode map_to_list 1%positive node1 s1 = Some (tt, s2) /\
  view s2 1%positive =
    Some (mkNodeView (Some node1) zeroResource (mkResource 3 6 0)
                     (mkResource 2 4 0) zeroResource (mkResource 4 8 0)
                     (mkResource 4 8 0) {["c1/p1" := t]}) /\
  sumReq allTasks {["c1/p1" := t]} = mkResource 1 2 0.
Proof.
  split; [vm_compute; reflexivity|].
  split; [vm_compute; reflexivity|].
  split; [vm_compute; reflexivity|].
  split; [vm_compute; reflexivity|].
  vm_compute; reflexivity.
Qed.

(** [SetNode] on a node that had no node object and holds a Pipelined
    task: the loop takes the request from [Idle], where [AddTask] on a
    node made from the node object takes it from [Releasing] and leaves
    [Idle] alone. *)
Lemma SetNode_pipelined_differs_from_AddTask :
  let t := task1 Pipelined false req1 in
  let s := freshNodeStore None t in
  let s1 := exec (AddTask noBackfill 1%positive 1%positive) s in
  let s2 := exec (SetNode map_to_list 1%positive node1) s1 in
  let s' := exec (AddTask noBackfill 1%positive 1%positive)
                 (freshNodeStore (Some node1) t) in
  AddTask noBackfill 1%positive 1%positive s = Some (None, s1) /\
  SetNode map_to_list 1%positive node1 s1 = Some (tt, s2) /\
  view s2 1%positive =
    Some (mkNodeView (Some node1) zeroResource (mkResource 3 6 0)
                     (mkResource 1 2 0) zeroResource (mkResource 4 8 0)
                     (mkResource 4 8 0) {["c1/p1" := t]}) /\
  view s' 1%positive =
    Some (mkNodeView (Some node1) zeroResource (mkResource 4 8 0)
                     (mkResource 1 2 0) zeroResource (mkResource 4 8 0)
                     (mkResource 4 8 0) {["c1/p1" := t]}).
Proof.
  split; [vm_compute; reflexivity|].
  split; [vm_compute; reflexivity|].
  split; [vm_compute; reflexivity|].
  vm_compute; reflexivity.
Qed.

(** * Clone *)

#[global] Instance taskSettled_dec cb k t : Decision (taskSettled cb k t).
Proof. unfold taskSettled. apply _. Defined.

#[global] Instance recounted_dec cb v : Decision (recounted cb v).
Proof. unfold recounted. destruct (vNode v); apply _. Defined.

Lemma writesOnly_refl ni L s : writesOnly ni L s s.
Proof. repeat split; done. Qed.

Lemma writesOnly_trans ni L s1 s2 s3 :
  writesOnly ni L s1 s2 -> writesOnly ni L s2 s3 -> writesOnly ni L s1 s3.
Proof.
  intros (Hr1 & Ht1 & Hn1) (Hr2 & Ht2 & Hn2). split; [|split].
  - intros l Hl. by rewrite Hr2, Hr1.
  - by etrans.
  - intros l Hl. by rewrite Hn2, Hn1.
Qed.

Lemma addTaskResources_other n t m l :
  l ∉ counterLocs n -> addTaskResources n t m !! l = m !! l.
Proof.
  intros Hl. unfold counterLocs in Hl.
  repeat (apply not_elem_of_cons in Hl as [? Hl]).
  unfold addTaskResources.
  destruct (NNode n); [|done].
  destruct (IsBackfill t), (Status t); simpl;
    rewrite ?lookup_alter_ne by done; reflexivity.
Qed.

(** What [AddTask] writes: counters of the node, the node itself, and a
    task object that did not exist. *)
Lemma AddTask_writesOnly cb s ni task t v :
  wfNode s ni ->
  view s ni = Some v ->
  taskinfos s !! task = Some t ->
  vTasks v !! PodKey (TaskPod t) = None ->
  exists s' n ti,
    AddTask cb ni task s = Some (None, s') /\
    nodeinfos s !! ni = Some n /\
    taskinfos s !! ti = None /\
    nodeinfos s' !! ni =
      Some (setTasks (<[PodKey (TaskPod t) := ti]> (Tasks n)) n) /\
    wfNode s' ni /\
    view s' ni = Some (addTaskView cb t v) /\
    writesOnly ni (counterLocs n) s s'.
Proof.
  intros Hwf Hv Ht Hk.
  destruct (AddTask_spec cb s ni task t v Hwf Hv Ht Hk)
    as (s' & n & Hrun & Hn & Hs' & Hwf' & Hv').
  exists s', n, (fresh (dom (taskinfos s))).
  split; [done|]. split; [done|]. split; [apply fresh_task_None|].
  split; [subst s'; simpl; by rewrite lookup_insert_eq|].
  split; [done|]. split; [done|].
  subst s'. split; [|split]; simpl.
  - intros l Hl. by apply addTaskResources_other.
  - apply insert_subseteq, fresh_task_None.
  - intros l Hl. by rewrite lookup_insert_ne.
Qed.

Lemma addTaskView_tasks cb t v :
  vTasks (addTaskView cb t v) =
  <[PodKey (TaskPod t) := storedCopy cb t]> (vTasks v).
Proof. unfold addTaskView. by destruct (vNode v). Qed.

(** The loop of [Clone]: every task of the list is added to the new
    node.  [sb] is the store before [Clone], whose task objects are the
    ones walked; [Q] is any property of the view of the new node kept by
    the addition of a task satisfying [G]. *)
Lemma cloneTasks_spec cb ni' sb n0 (Q : NodeView -> Prop) (G : TaskInfo -> Prop) :
  (forall w t, Q w -> G t -> vTasks w !! PodKey (TaskPod t) = None ->
               Q (addTaskView cb t w)) ->
  forall ts s1 w,
    wfNode s1 ni' ->
    view s1 ni' = Some w ->
    Q w ->
    taskinfos sb ⊆ taskinfos s1 ->
    (exists m, nodeinfos s1 !! ni' = Some (setTasks m n0) /\
               map_Forall (fun _ l => taskinfos sb !! l = None) m) ->
    NoDup ts.*1 ->
    Forall (fun kl => exists t,
              taskinfos sb !! kl.2 = Some t /\ PodKey (TaskPod t) = kl.1 /\
              G t /\ vTasks w !! kl.1 = None) ts ->
    exists s2 w2,
      cloneTasks cb ni' ts s1 = Some (tt, s2) /\
      wfNode s2 ni' /\
      view s2 ni' = Some w2 /\
      Q w2 /\
      (forall k, vTasks w2 !! k =
                 match (list_to_map ts : gmap TaskID loc) !! k with
                 | Some l => storedCopy cb <$> (taskinfos sb !! l)
                 | None => vTasks w !! k
                 end) /\
      writesOnly ni' (counterLocs n0) s1 s2 /\
      (exists m, nodeinfos s2 !! ni' = Some (setTasks m n0) /\
                 map_Forall (fun _ l => taskinfos sb !! l = None) m).
Proof.
  intros Hstep. induction ts as [|[k0 l0] rest IH];
    intros s1 w Hwf Hv HQ Hsb Hnode Hnd Hall.
  - exists s1, w. split; [reflexivity|]. split; [done|]. split; [done|].
    split; [done|]. split; [intros k; simpl; by rewrite lookup_empty|].
    split; [apply writesOnly_refl | done].
  - apply Forall_cons in Hall as [(t0 & Ht0 & Hkey & HG & Hk0) Hall].
    simpl in Ht0, Hkey, Hk0. subst k0.
    simpl in Hnd. apply NoDup_cons in Hnd as [Hnotin Hnd].
    destruct Hnode as (m & Hm & Hfresh).
    assert (Ht0' : taskinfos s1 !! l0 = Some t0) by (eapply lookup_weaken; eauto).
    destruct (AddTask_writesOnly cb s1 ni' l0 t0 w Hwf Hv Ht0' Hk0)
      as (s' & n & ti & Hrun & Hn & Hti & Hn' & Hwf' & Hv' & Hw).
    assert (n = setTasks m n0) as -> by congruence.
    assert (Hsb' : taskinfos sb ⊆ taskinfos s').
    { etrans; [exact Hsb|]. apply Hw. }
    destruct (IH s' (addTaskView cb t0 w) Hwf' Hv') as
      (s2 & w2 & Hloop & Hwf2 & Hv2 & HQ2 & Hlk & Hw2 & Hnode2).
    + by apply Hstep.
    + done.
    + exists (<[PodKey (TaskPod t0) := ti]> m). split; [exact Hn'|].
      apply map_Forall_insert_2; [|done].
      destruct (taskinfos sb !! ti) as [x|] eqn:E; [|done].
      eapply lookup_weaken in E; [|exact Hsb]. congruence.
    + done.
    + rewrite Forall_forall in Hall |- *.
      intros [k l] Hin. destruct (Hall _ Hin) as (t & Ht & Hkt & HGt & Hkw).
      simpl in *.
      exists t. split; [done|]. split; [done|]. split; [done|].
      rewrite addTaskView_tasks. rewrite lookup_insert_ne; [done|].
      intros E. apply Hnotin. rewrite E. apply list_elem_of_fmap.
      by exists (k, l).
    + exists s2, w2. split.
      { simpl. erewrite run_bind by exact Hrun. exact Hloop. }
      split; [done|]. split; [done|]. split; [done|]. split.
      { intros k. rewrite Hlk. simpl.
        destruct (decide (k = PodKey (TaskPod t0))) as [->|Hne].
        - rewrite lookup_insert_eq.
          rewrite (not_elem_of_list_to_map_1 _ _ Hnotin).
          rewrite addTaskView_tasks, lookup_insert_eq. by rewrite Ht0.
        - rewrite lookup_insert_ne by done.
          rewrite addTaskView_tasks, lookup_insert_ne by done. done. }
      split; [|done].
      eapply writesOnly_trans; [exact Hw|exact Hw2].
Qed.

Lemma cloneInv_new node : cloneInv node (newView node).
Proof.
  destruct node as [nd|]; split; try done; simpl.
  rewrite !sumReq_empty. repeat split; try done. resource_arith.
Qed.

Lemma cloneInv_addTaskView cb node w t :
  cloneInv node w ->
  (is_Some node -> Status t <> Pipelined) ->
  (cb (TaskPod t) = true -> IsBackfill t = true) ->
  vTasks w !! PodKey (TaskPod t) = None ->
  cloneInv node (addTaskView cb t w).
Proof.
  intros [Hnode Hinv] Hst Hflag Hk.
  split; [by rewrite addTaskView_node|].
  unfold addTaskView. rewrite (storedCopy_flagged cb t Hflag), Hnode.
  destruct node as [nd|]; simpl; [|done].
  destruct Hinv as (Ha & Hc & HU & HB & HR & HI).
  specialize (Hst (ltac:(eauto))).
  rewrite !sumReq_insert by done. unfold allTasks at 1 3. simpl.
  unfold isStatus. rewrite HU, HB, HR, HI.
  split; [done|]. split; [done|]. split; [done|].
  split; [by destruct (IsBackfill t)|].
  destruct (Status t); try congruence;
    (rewrite ?bool_decide_eq_true_2 by done);
    (rewrite ?bool_decide_eq_false_2 by done);
    (split; [reflexivity | resource_arith]).
Qed.

Lemma extends_setRes s s' l r :
  extends s s' -> resources s !! l = None -> extends s (setRes l r s').
Proof.
  intros (Hr & Ht & Hn) Hl. split; [|done]. simpl.
  by apply insert_subseteq_r.
Qed.

Lemma extends_setTask s s' l t :
  extends s s' -> taskinfos s !! l = None -> extends s (setTask l t s').
Proof.
  intros (Hr & Ht & Hn) Hl. split; [done|]. split; [|done]. simpl.
  by apply insert_subseteq_r.
Qed.

Lemma extends_setNode s s' l n :
  extends s s' -> nodeinfos s !! l = None -> extends s (setNode l n s').
Proof.
  intros (Hr & Ht & Hn) Hl. split; [done|]. split; [done|]. simpl.
  by apply insert_subseteq_r.
Qed.

Lemma range_list_to_map (rangeOrder : gmap TaskID loc -> list (TaskID * loc)) m :
  rangeOrder m ≡ₚ map_to_list m ->
  NoDup (rangeOrder m).*1 /\ list_to_map (rangeOrder m) = m.
Proof.
  intros Hperm.
  assert (Hnd : NoDup (rangeOrder m).*1).
  { rewrite Hperm. apply NoDup_fst_map_to_list. }
  split; [done|].
  rewrite (list_to_map_proper _ _ Hnd Hperm). apply list_to_map_to_list.
Qed.

(** The loop of [Clone] on any task map whose task objects exist: it
    runs to its end, whether or not some [AddTask] reports a duplicate,
    and writes nothing but the new node. *)
Lemma cloneTasks_frame cb ni' sb n0 : forall ts s1,
  wfNode s1 ni' ->
  is_Some (view s1 ni') ->
  taskinfos sb ⊆ taskinfos s1 ->
  (exists m, nodeinfos s1 !! ni' = Some (setTasks m n0) /\
             map_Forall (fun _ l => taskinfos sb !! l = None) m) ->
  Forall (fun kl : TaskID * loc => is_Some (taskinfos sb !! kl.2)) ts ->
  exists s2,
    cloneTasks cb ni' ts s1 = Some (tt, s2) /\
    wfNode s2 ni' /\
    is_Some (view s2 ni') /\
    writesOnly ni' (counterLocs n0) s1 s2 /\
    (exists m, nodeinfos s2 !! ni' = Some (setTasks m n0) /\
               map_Forall (fun _ l => taskinfos sb !! l = None) m).
Proof.
  induction ts as [|[k0 l0] rest IH]; intros s1 Hwf [w Hv] Hsb Hnode Hall.
  - exists s1. split; [reflexivity|]. split; [done|]. split; [eauto|].
    split; [apply writesOnly_refl | done].
  - apply Forall_cons in Hall as [[t0 Ht0] Hall]. simpl in Ht0.
    destruct Hnode as (m & Hm & Hfresh).
    assert (Ht0' : taskinfos s1 !! l0 = Some t0) by (eapply lookup_weaken; eauto).
    destruct (vTasks w !! PodKey (TaskPod t0)) as [c|] eqn:Hk.
    + pose proof Hv as Hv0. apply view_unfold in Hv0 as (n & Hn & Hvn).
      pose proof (viewOf_Some _ _ _ Hvn) as (_ & _ & _ & _ & _ & _ & _ & Hts).
      rewrite Hts in Hk. apply derefTasks_Some in Hk as (l & Hl & _).
      destruct (IH s1) as (s2 & Hloop & Hrest); eauto.
      exists s2. split; [|done]. simpl.
      erewrite run_bind; [exact Hloop|].
      apply (AddTask_duplicate cb s1 ni' l0 n t0 Hn Ht0'). eauto.
    + destruct (AddTask_writesOnly cb s1 ni' l0 t0 w Hwf Hv Ht0' Hk)
        as (s' & n & ti & Hrun & Hn & Hti & Hn' & Hwf' & Hv' & Hw).
      assert (n = setTasks m n0) as -> by congruence.
      assert (Hsb' : taskinfos sb ⊆ taskinfos s').
      { etrans; [exact Hsb|]. apply Hw. }
      destruct (IH s') as (s2 & Hloop & Hwf2 & Hv2 & Hw2 & Hnode2);
        [done|eauto|done| |done|].
      { exists (<[PodKey (TaskPod t0) := ti]> m). split; [exact Hn'|].
        apply map_Forall_insert_2; [|done].
        destruct (taskinfos sb !! ti) as [x|] eqn:E; [|done].
        eapply lookup_weaken in E; [|exact Hsb]. congruence. }
      exists s2. split.
      { simpl. erewrite run_bind by exact Hrun. exact Hloop. }
      split; [done|]. split; [done|]. split; [|done].
      eapply writesOnly_trans; [exact Hw|exact Hw2].
Qed.

(** C5, as the code has it.  [Clone] does not copy the counters: it makes
    a new node from the node object and adds the tasks again, in the order
    in which the task map is walked.  For every node, the clone is made of
    new objects only (node, counters, tasks) and [Clone] writes no object
    of the original store: the original is unchanged by the cloning, and by
    any later write to a counter, a task or the node record of the clone.
    When the counters of the original agree with its node object and its
    task set ([recounted]), the clone shows the same node object, the same
    six counters and the same tasks. *)
Theorem Clone_fresh_and_equal cb rangeOrder s ni v :
  (forall m, rangeOrder m ≡ₚ map_to_list m) ->
  wfNode s ni ->
  view s ni = Some v ->
  exists ni' n' s',
    Clone cb rangeOrder ni s = Some (ni', s') /\
    nodeinfos s !! ni' = None /\
    nodeinfos s' !! ni' = Some n' /\
    Forall (fun l => resources s !! l = None) (counterLocs n') /\
    map_Forall (fun _ l => taskinfos s !! l = None) (Tasks n') /\
    extends s s' /\
    view s' ni = Some v /\
    (forall l r, l ∈ counterLocs n' -> view (setRes l r s') ni = Some v) /\
    (forall k l t, Tasks n' !! k = Some l -> view (setTask l t s') ni = Some v) /\
    (forall m, view (setNode ni' m s') ni = Some v) /\
    (recounted cb v -> view s' ni' = Some v).
Proof.
  intros Hperm Hwf Hv.
  pose proof Hv as Hv0. apply view_unfold in Hv0 as (n & Hn & Hvn).
  pose proof Hwf as Hwfn. rewrite (wfNode_unfold _ _ _ Hn) in Hwfn.
  destruct Hwfn as [Hnd Hall].
  pose proof (viewOf_Some _ _ _ Hvn)
    as (Hrel & Hidle & Hused & Hbf & Halloc & Hcap & Hnode & Hts).
  destruct (NewNodeInfo_spec (NNode n) s)
    as (ni' & n0 & s1 & Hnew & Hni' & Hnodes1 & Htasks1 & Hres1 & Hfr &
        Htasks0 & Hnode0 & Hwf1 & Hv1).
  destruct (range_list_to_map rangeOrder (Tasks n) (Hperm _)) as [Hndts Hl2m].
  assert (Hn0 : nodeinfos s1 !! ni' = Some (setTasks ∅ n0)).
  { rewrite Hnodes1, lookup_insert_eq. f_equal.
    rewrite <- Htasks0. symmetry. apply setTasks_same. }
  assert (Hin : forall k l, (k, l) ∈ rangeOrder (Tasks n) -> Tasks n !! k = Some l).
  { intros k l Hkl. rewrite Hperm in Hkl. by apply elem_of_map_to_list. }
  destruct (cloneTasks_frame cb ni' s n0 (rangeOrder (Tasks n)) s1)
    as (s2 & Hloop & Hwf2 & Hv2 & Hw2 & (m2 & Hn2 & Hfresh2)).
  { done. }
  { eauto. }
  { by rewrite Htasks1. }
  { exists ∅. split; [done|]. apply map_Forall_empty. }
  { rewrite Forall_forall. intros [k l] Hkl. simpl.
    by apply (Hall k l), Hin. }
  assert (Hext : extends s s2).
  { destruct Hw2 as (Hwr & Hwt & Hwn). split; [|split].
    - apply map_subseteq_spec. intros l x Hl.
      rewrite Hwr; [by eapply lookup_weaken|].
      intros Hl'. rewrite Forall_forall in Hfr.
      rewrite (Hfr l Hl') in Hl. discriminate Hl.
    - by rewrite <- Htasks1.
    - apply map_subseteq_spec. intros l x Hl.
      assert (l <> ni') by (intros ->; congruence).
      rewrite Hwn by done. rewrite Hnodes1. by rewrite lookup_insert_ne. }
  exists ni', (setTasks m2 n0), s2.
  split.
  { unfold Clone. run_step.
    erewrite run_bind by exact Hnew.
    do 6 (erewrite run_bind by
            (apply getResource_run; eapply lookup_weaken; eauto)).
    erewrite run_bind by exact Hloop. reflexivity. }
  split; [done|]. split; [done|].
  split; [exact Hfr|]. split; [exact Hfresh2|]. split; [done|].
  split; [by apply (view_extends s)|].
  split; [|split; [|split]].
  - intros l r Hl. apply (view_extends s); [|done|done].
    apply extends_setRes; [done|].
    rewrite Forall_forall in Hfr. by apply Hfr.
  - intros k l t Hl. apply (view_extends s); [|done|done].
    apply extends_setTask; [done|]. by apply (Hfresh2 k).
  - intros m. apply (view_extends s); [|done|done].
    by apply extends_setNode.
  - intros [Hsettled Hrec].
    set (G := fun t : TaskInfo =>
                (is_Some (NNode n) -> Status t <> Pipelined) /\
                (cb (TaskPod t) = true -> IsBackfill t = true)).
    destruct (cloneTasks_spec cb ni' s n0 (cloneInv (NNode n)) G) with
      (ts := rangeOrder (Tasks n)) (s1 := s1) (w := newView (NNode n))
      as (s2' & w2 & Hloop' & _ & Hv2' & HQ2 & Hlk & _).
    { intros w t HQ [HG1 HG2] Hk. by apply cloneInv_addTaskView. }
    { done. }
    { done. }
    { apply cloneInv_new. }
    { by rewrite Htasks1. }
    { exists ∅. split; [done|]. apply map_Forall_empty. }
    { done. }
    { rewrite Forall_forall. intros [k l] Hkl. simpl.
      apply Hin in Hkl.
      destruct (Hall k l Hkl) as [t Ht].
      assert (Hvt : vTasks v !! k = Some t).
      { rewrite Hts. apply derefTasks_Some. eauto. }
      destruct (Hsettled k t Hvt) as [Hkey Hflag].
      exists t. split; [done|]. split; [done|]. split.
      - split; [|done]. intros Hsome. rewrite <- Hnode in Hsome.
        destruct (vNode v) as [nd|]; [|by destruct Hsome].
        destruct Hrec as (Hnp & _). by apply (Hnp k t).
      - destruct (NNode n); simpl; apply lookup_empty. }
    rewrite Hloop in Hloop'. injection Hloop' as <-.
    rewrite Hv2'. f_equal.
    assert (Htasks : vTasks w2 = vTasks v).
    { apply map_eq. intros k. rewrite Hlk, Hl2m, Hts, derefTasks_lookup.
      destruct (Tasks n !! k) as [l|] eqn:Hl; simpl.
      - destruct (Hall k l Hl) as [t Ht]. rewrite Ht. simpl. f_equal.
        apply storedCopy_flagged.
        assert (Hvt : vTasks v !! k = Some t).
        { rewrite Hts. apply derefTasks_Some. eauto. }
        by destruct (Hsettled k t Hvt).
      - destruct (NNode n); simpl; apply lookup_empty. }
    destruct HQ2 as [HQnode HQ]. rewrite <- Hnode in HQ, HQnode.
    clear Hv2' Hlk Hv Hvn Hrel Hidle Hused Hbf Halloc Hcap Hts Hsettled.
    destruct w2 as [node2 rel2 idle2 used2 bf2 alloc2 cap2 tasks2].
    destruct v as [node rel idle used bf alloc cap tasks].
    simpl in *. subst tasks2 node2.
    destruct node as [nd|].
    + destruct HQ as (-> & -> & -> & -> & -> & ->).
      destruct Hrec as (_ & -> & -> & -> & -> & -> & HI).
      f_equal. resource_arith.
    + destruct HQ as (-> & -> & -> & -> & -> & ->).
      by destruct Hrec as (-> & -> & -> & -> & -> & ->).
Qed.

Lemma Clone_fresh_and_equal_witness :
  exists ni' n' s',
    Clone noBackfill map_to_list 1%positive oneTaskNodeStore = Some (ni', s') /\
    nodeinfos oneTaskNodeStore !! ni' = None /\
    nodeinfos s' !! ni' = Some n' /\
    Forall (fun l => resources oneTaskNodeStore !! l = None) (counterLocs n') /\
    map_Forall (fun _ l => taskinfos oneTaskNodeStore !! l = None) (Tasks n') /\
    extends oneTaskNodeStore s' /\
    view s' 1%positive = Some oneTaskView /\
    (forall l r, l ∈ counterLocs n' ->
                 view (setRes l r s') 1%positive = Some oneTaskView) /\
    (forall k l t, Tasks n' !! k = Some l ->
                   view (setTask l t s') 1%positive = Some oneTaskView) /\
    (forall m, view (setNode ni' m s') 1%positive = Some oneTaskView) /\
    (recounted noBackfill oneTaskView -> view s' ni' = Some oneTaskView).
Proof.
  apply (Clone_fresh_and_equal noBackfill map_to_list oneTaskNodeStore
           1%positive oneTaskView).
  - intros m. reflexivity.
  - apply (bool_decide_unpack _). vm_compute. reflexivity.
  - vm_compute. reflexivity.
Defined.

(** The node of the witness does agree with its tasks. *)
Example oneTaskView_recounted : recounted noBackfill oneTaskView.
Proof. apply (bool_decide_unpack _). vm_compute. reflexivity. Qed.

(** C5 as it is worded fails.  First scenario: a node that has a task
    and is then given its node object again by [SetNode] shows [Used] at
    twice the request; its clone shows the request once.  Second
    scenario: a task larger than [Idle] is added (the subtraction is
    clamped) and removed, which leaves [Idle] above [Allocatable]; the
    clone starts again from [Allocatable]. *)
Lemma Clone_counters_differ :
  (let s := exec (SetNode map_to_list 1%positive node1)
              (exec (AddTask noBackfill 1%positive 1%positive)
                 (freshNodeStore (Some node1) (task1 Running false req1))) in
   exists s',
     wfNode s 1%positive /\
     Clone noBackfill map_to_list 1%positive s = Some (2%positive, s') /\
     vUsed <$> view s' 1%positive = Some (mkResource 2 4 0) /\
     vUsed <$> view s' 2%positive = Some (mkResource 1 2 0)) /\
  (let s := exec (RemoveTask 1%positive 1%positive)
              (exec (AddTask noBackfill 1%positive 1%positive)
                 (freshNodeStore (Some node1)
                    (task1 Running false (mkResource 5 0 0)))) in
   exists s',
     wfNode s 1%positive /\
     Clone noBackfill map_to_list 1%positive s = Some (2%positive, s') /\
     vIdle <$> view s' 1%positive = Some (mkResource 5 8 0) /\
     vIdle <$> view s' 2%positive = Some (mkResource 4 8 0)).
Proof.
  split.
  - eexists. split; [apply (bool_decide_unpack _); vm_compute; reflexivity|].
    split; [vm_compute; reflexivity|].
    split; vm_compute; reflexivity.
  - eexists. split; [apply (bool_decide_unpack _); vm_compute; reflexivity|].
    split; [vm_compute; reflexivity|].
    split; vm_compute; reflexivity.
Qed.

(** * Loading the configuration *)

Import Scheduler.

Section LoadFacts.

Variable Unmarshal : string -> string + SchedulerConfiguration.
Variable Action : Type.
Variable GetAction : string -> option Action.
Variable ApplyPluginConfDefaults : PluginOption -> PluginOption.
Variable BackfillFlagName : string.

Abbreviation loadAction := (loadAction Action GetAction BackfillFlagName).
Abbreviation loadActions := (loadActions Action GetAction BackfillFlagName).
Abbreviation loadSchedulerConf :=
  (loadSchedulerConf Unmarshal Action GetAction ApplyPluginConfDefaults
                     BackfillFlagName).

Lemma loadAction_inl action e :
  loadAction action = inl e ->
  GetAction (ActionName action) = None /\
  e = ErrActionNotFound (ActionName action).
Proof.
  unfold Scheduler.loadAction.
  destruct (GetAction (ActionName action)); [done|].
  by intros [= <-].
Qed.

Lemma loadAction_inr action action' :
  loadAction action = inr action' ->
  is_Some (GetAction (ActionName action)) /\
  ActionName action' = ActionName action /\
  is_Some (Options action').
Proof.
  unfold Scheduler.loadAction.
  destruct (GetAction (ActionName action)); [|done].
  intros [= <-]. simpl. eauto.
Qed.

Lemma loadActions_inl actions :
  (exists e, loadActions actions = inl e) <->
  Exists (fun a => GetAction (ActionName a) = None) actions.
Proof.
  induction actions as [|a rest IH]; simpl.
  - split; [by intros [e ?] | by intros ?%Exists_nil].
  - rewrite Exists_cons.
    destruct (loadAction a) as [e|a'] eqn:Ha.
    + apply loadAction_inl in Ha as [Hnone _]. split; [by left | eauto].
    + apply loadAction_inr in Ha as ([x Hx] & _). rewrite <- IH.
      destruct (loadActions rest) as [e|rest'].
      * split; [right; eauto | eauto].
      * split; [by intros [e ?]|]. intros [Hn|[e He]]; [congruence|done].
Qed.

Lemma loadActions_inr actions : forall actions',
  loadActions actions = inr actions' ->
  Forall2 (fun a a' => loadAction a = inr a') actions actions'.
Proof.
  induction actions as [|a rest IH]; simpl; intros actions' H.
  - injection H as <-. constructor.
  - destruct (loadAction a) as [e|a'] eqn:Ha; [done|].
    destruct (loadActions rest) as [e|rest']; [done|].
    injection H as <-. constructor; [done|]. by apply IH.
Qed.

(** C9.  [loadSchedulerConf] returns an error exactly when the string is
    refused by the YAML reader or an action it lists is not in the
    registry; when it succeeds, the actions returned are the actions
    listed, in order, each of them registered and each with an options map
    that is not nil. *)
Theorem loadSchedulerConf_errors confStr :
  ((exists e, loadSchedulerConf confStr = inl e) <->
   (exists msg, Unmarshal confStr = inl msg) \/
   (exists c, Unmarshal confStr = inr c /\
              Exists (fun a => GetAction (ActionName a) = None) (Actions c))) /\
  (forall c', loadSchedulerConf confStr = inr c' ->
     exists c, Unmarshal confStr = inr c /\
       map ActionName (Actions c') = map ActionName (Actions c) /\
       Forall (fun a => is_Some (GetAction (ActionName a)) /\
                        is_Some (Options a)) (Actions c')).
Proof.
  unfold Scheduler.loadSchedulerConf.
  destruct (Unmarshal confStr) as [msg|c] eqn:Hu.
  - split.
    + split; [intros _; left; eauto | intros _; eauto].
    + intros c' H. discriminate H.
  - pose proof (loadActions_inl (Actions c)) as Hinl.
    pose proof (loadActions_inr (Actions c)) as Hinr.
    destruct (loadActions (Actions c)) as [e|actions'].
    + split.
      * split; [|eauto]. intros _. right. exists c. split; [done|].
        apply Hinl. eauto.
      * intros c' H. discriminate H.
    + split.
      * split.
        -- intros [e H]. discriminate H.
        -- intros [[msg H]|(c0 & [= <-] & Hex)]; [discriminate H|].
           apply Hinl in Hex as [e He]. discriminate He.
      * intros c' [= <-]. exists c. split; [done|]. simpl.
        specialize (Hinr actions' eq_refl). clear Hinl.
        induction Hinr as [|a a' l l' Ha Hl IH]; simpl.
        -- split; [done | constructor].
        -- apply loadAction_inr in Ha as (Hreg & Hname & Hopt).
           destruct IH as [IH1 IH2].
           split; [by rewrite Hname, IH1|].
           constructor; [|done]. by rewrite Hname.
Qed.

(** C8, as the code has it.  When the string is accepted by the YAML
    reader, every action it lists is registered and it lists the backfill
    action without options, [loadSchedulerConf] returns a configuration
    where the options of that action are the single entry
    [conf.BackfillFlagName] with value "false".  No option for the
    starvation threshold is put there. *)
Theorem loadSchedulerConf_backfill_default confStr c i action :
  Unmarshal confStr = inr c ->
  Forall (fun a => is_Some (GetAction (ActionName a))) (Actions c) ->
  Actions c !! i = Some action ->
  ActionName action = "backfill" ->
  Options action = None \/ Options action = Some ∅ ->
  exists c',
    loadSchedulerConf confStr = inr c' /\
    Actions c' !! i =
      Some (mkActionOption "backfill" (Some {[BackfillFlagName := "false"]})).
Proof.
  intros Hu Hreg Hi Hname Hopts.
  unfold Scheduler.loadSchedulerConf. rewrite Hu.
  destruct (loadActions (Actions c)) as [e|actions'] eqn:Hload.
  - assert (Hex : exists e, loadActions (Actions c) = inl e) by eauto.
    apply loadActions_inl in Hex. apply Exists_exists in Hex as (a & Hin & Hn).
    rewrite Forall_forall in Hreg. destruct (Hreg a Hin) as [x Hx]. congruence.
  - eexists. split; [reflexivity|]. simpl.
    apply loadActions_inr in Hload.
    destruct (Forall2_lookup_l _ _ _ _ _ Hload Hi) as (a' & Hi' & Ha').
    rewrite Hi'. f_equal.
    unfold Scheduler.loadAction in Ha'.
    rewrite Forall_forall in Hreg.
    destruct (Hreg action) as [x Hx].
    { eapply list_elem_of_lookup_2; eauto. }
    rewrite Hx, Hname in Ha'. rewrite decide_True in Ha' by done.
    destruct Hopts as [Ho | Ho]; rewrite Ho, lookup_empty in Ha';
      injection Ha' as <-; by rewrite insert_empty.
Qed.

End LoadFacts.

Lemma loadSchedulerConf_backfill_default_witness :
  exists c',
    loadSchedulerConf exampleUnmarshal unit exampleGetAction (fun p => p)
                      exampleFlagName defaultSchedulerConf = inr c' /\
    Actions c' !! 1%nat =
      Some (mkActionOption "backfill" (Some {[exampleFlagName := "false"]})).
Proof.
  apply (loadSchedulerConf_backfill_default exampleUnmarshal unit
           exampleGetAction (fun p => p) exampleFlagName
           defaultSchedulerConf defaultParsed 1%nat
           (mkActionOption "backfill" None)).
  - vm_compute. reflexivity.
  - repeat constructor; vm_compute; eauto.
  - reflexivity.
  - reflexivity.
  - left. reflexivity.
Defined.

(** C8 as it is worded fails on the default configuration: the options
    returned for the backfill action are the one entry set by the code,
    so no key holds a starvation threshold, of 30 seconds or other. *)
Lemma loadSchedulerConf_sets_no_threshold :
  let options : gmap string string := {[exampleFlagName := "false"]} in
  loadSchedulerConf exampleUnmarshal unit exampleGetAction (fun p => p)
                    exampleFlagName defaultSchedulerConf =
    inr (mkSchedulerConfiguration
           [mkActionOption "allocate" (Some ∅);
            mkActionOption "backfill" (Some options)]
           (Tiers defaultParsed)) /\
  size options = 1%nat /\
  (forall key, key <> exampleFlagName -> options !! key = None).
Proof.
  split; [vm_compute; reflexivity|].
  split; [vm_compute; reflexivity|].
  intros key Hkey. by apply lookup_singleton_ne.
Qed.

(** * Further properties of the node operations *)

(** ** UpdateTask *)

(** X1.  [UpdateTask] fails exactly when the key of the task is not on
    the node, with the error of [RemoveTask] and without writing
    anything; it never fails with the duplicate error of [AddTask].  When
    the key is on the node, the stored copy is taken off the counters, the
    task given is added as [AddTask] adds it, and the key holds a new copy
    of the task given, every other key being as before. *)
Theorem UpdateTask_replaces cb s ni task t v :
  wfNode s ni ->
  view s ni = Some v ->
  taskinfos s !! task = Some t ->
  let key := PodKey (TaskPod t) in
  (vTasks v !! key = None ->
   exists host,
     UpdateTask cb ni task s =
     Some (Some (ErrTaskNotOnHost (Namespace t) (Name t) host), s)) /\
  (forall c, vTasks v !! key = Some c ->
   exists s' v',
     UpdateTask cb ni task s = Some (None, s') /\
     wfNode s' ni /\
     view s' ni = Some v' /\
     v' = addTaskView cb t (removeTaskView key c v) /\
     vTasks v' = <[key := storedCopy cb t]> (vTasks v)).
Proof.
  intros Hwf Hv Ht key. split.
  - intros Hk.
    pose proof Hv as Hv0. apply view_unfold in Hv0 as (n & Hn & Hvn).
    pose proof Hwf as Hwfn. rewrite (wfNode_unfold _ _ _ Hn) in Hwfn.
    pose proof (viewOf_Some _ _ _ Hvn) as (_ & _ & _ & _ & _ & _ & _ & Hts).
    rewrite Hts in Hk. apply (derefTasks_None _ _ _ Hwfn) in Hk.
    exists (NName n). unfold UpdateTask.
    erewrite run_bind by (by apply (RemoveTask_missing s ni task n t)).
    reflexivity.
  - intros c Hk.
    destruct (RemoveTask_spec s ni task t v c Hwf Hv Ht Hk)
      as (s1 & n & Hrem & Hn & Hs1 & Hwf1 & Hv1).
    assert (Ht1 : taskinfos s1 !! task = Some t) by (by rewrite Hs1).
    assert (Hk1 : vTasks (removeTaskView key c v) !! key = None).
    { unfold removeTaskView. destruct (vNode v); simpl; apply lookup_delete_eq. }
    destruct (AddTask_spec cb s1 ni task t _ Hwf1 Hv1 Ht1 Hk1)
      as (s2 & n1 & Hadd & _ & _ & Hwf2 & Hv2).
    exists s2, (addTaskView cb t (removeTaskView key c v)).
    split.
    { unfold UpdateTask. erewrite run_bind by exact Hrem. exact Hadd. }
    split; [done|]. split; [done|]. split; [done|].
    rewrite addTaskView_tasks.
    unfold removeTaskView. destruct (vNode v); simpl; apply insert_delete_eq.
Qed.

Lemma UpdateTask_replaces_witness :
  let t := task1 Running true req1 in
  let key := PodKey (TaskPod t) in
  (vTasks oneTaskView !! key = None ->
   exists host,
     UpdateTask noBackfill 1%positive 1%positive oneTaskNodeStore =
     Some (Some (ErrTaskNotOnHost (Namespace t) (Name t) host),
           oneTaskNodeStore)) /\
  (forall c, vTasks oneTaskView !! key = Some c ->
   exists s' v',
     UpdateTask noBackfill 1%positive 1%positive oneTaskNodeStore =
       Some (None, s') /\
     wfNode s' 1%positive /\
     view s' 1%positive = Some v' /\
     v' = addTaskView noBackfill t (removeTaskView key c oneTaskView) /\
     vTasks v' = <[key := storedCopy noBackfill t]> (vTasks oneTaskView)).
Proof.
  apply (UpdateTask_replaces noBackfill oneTaskNodeStore 1%positive 1%positive
           (task1 Running true req1) oneTaskView).
  - apply (bool_decide_unpack _). vm_compute. reflexivity.
  - vm_compute. reflexivity.
  - vm_compute. reflexivity.
Defined.

Lemma sameCounters_update_views cb t c v k nd :
  vNode v = Some nd ->
  Resreq c = Resreq t ->
  IsBackfill c = IsBackfill t ->
  sameCharge (Status c) (Status t) = true ->
  rle (Resreq t) (vUsed v) ->
  (Status c = Releasing -> rle (Resreq t) (vReleasing v)) ->
  (IsBackfill c = true -> rle (Resreq t) (vBackfilled v)) ->
  sameCounters v (addTaskView cb t (removeTaskView k c v)).
Proof.
  intros Hnd Hr Hb Hch HU HR HB.
  unfold sameCounters, addTaskView, removeTaskView. rewrite Hnd. simpl.
  rewrite Hr, Hb. rewrite Hb in HB.
  split; [|split; [|split; [|split; [|done]]]].
  - destruct (Status c), (Status t); try discriminate Hch;
      rewrite ?radd_rsub; try reflexivity.
    apply rsub_radd. by apply HR.
  - destruct (Status c), (Status t); try discriminate Hch;
      rewrite ?radd_rsub; reflexivity.
  - by apply rsub_radd.
  - destruct (IsBackfill t); [|done]. apply rsub_radd. by apply HB.
Qed.

(** X2.  [UpdateTask] of a task that asks what its stored copy asks, has
    the same backfill flag and a status that charges the same counters
    (both Releasing, both Pipelined, or both any other status, say
    Allocated then Running) leaves the six counters as they were, provided
    the counters did hold the request of the stored copy: the request is
    at most [Used], at most [Releasing] if the copy is Releasing, at most
    [Backfilled] if it is a backfill task. *)
Theorem UpdateTask_same_charge cb s ni task t v c nd :
  wfNode s ni ->
  view s ni = Some v ->
  vNode v = Some nd ->
  taskinfos s !! task = Some t ->
  vTasks v !! PodKey (TaskPod t) = Some c ->
  Resreq c = Resreq t ->
  IsBackfill c = IsBackfill t ->
  sameCharge (Status c) (Status t) = true ->
  rle (Resreq t) (vUsed v) ->
  (Status c = Releasing -> rle (Resreq t) (vReleasing v)) ->
  (IsBackfill c = true -> rle (Resreq t) (vBackfilled v)) ->
  exists s' v',
    UpdateTask cb ni task s = Some (None, s') /\
    view s' ni = Some v' /\
    sameCounters v v' /\
    vTasks v' = <[PodKey (TaskPod t) := storedCopy cb t]> (vTasks v).
Proof.
  intros Hwf Hv Hnd Ht Hk Hr Hb Hch HU HR HB.
  destruct (RemoveTask_spec s ni task t v c Hwf Hv Ht Hk)
    as (s1 & n & Hrem & Hn & Hs1 & Hwf1 & Hv1).
  assert (Ht1 : taskinfos s1 !! task = Some t) by (by rewrite Hs1).
  assert (Hk1 : vTasks (removeTaskView (PodKey (TaskPod t)) c v)
                  !! PodKey (TaskPod t) = None).
  { unfold removeTaskView. destruct (vNode v); simpl; apply lookup_delete_eq. }
  destruct (AddTask_spec cb s1 ni task t _ Hwf1 Hv1 Ht1 Hk1)
    as (s2 & n1 & Hadd & _ & _ & Hwf2 & Hv2).
  exists s2, (addTaskView cb t (removeTaskView (PodKey (TaskPod t)) c v)).
  split.
  { unfold UpdateTask. erewrite run_bind by exact Hrem. exact Hadd. }
  split; [done|]. split.
  - by eapply sameCounters_update_views.
  - rewrite addTaskView_tasks.
    unfold removeTaskView. destruct (vNode v); simpl; apply insert_delete_eq.
Qed.

Lemma UpdateTask_same_charge_witness :
  exists s' v',
    UpdateTask noBackfill 1%positive 1%positive oneTaskNodeStore =
      Some (None, s') /\
    view s' 1%positive = Some v' /\
    sameCounters oneTaskView v' /\
    vTasks v' =
      <["c1/p1" := storedCopy noBackfill (task1 Running true req1)]>
        (vTasks oneTaskView).
Proof.
  apply (UpdateTask_same_charge noBackfill oneTaskNodeStore 1%positive
           1%positive (task1 Running true req1) oneTaskView
           (task1 Running true req1) node1).
  - apply (bool_decide_unpack _). vm_compute. reflexivity.
  - vm_compute. reflexivity.
  - reflexivity.
  - vm_compute. reflexivity.
  - vm_compute. reflexivity.
  - reflexivity.
  - reflexivity.
  - reflexivity.
  - apply (bool_decide_unpack _). vm_compute. reflexivity.
  - intros H. discriminate H.
  - intros _. apply (bool_decide_unpack _). vm_compute. reflexivity.
Defined.

(** ** One operation after another *)

(** X3.  A task just added is on the node: adding it again is refused
    with the duplicate error and nothing is written.  A task just removed
    is no longer there: removing it again is refused and nothing is
    written. *)
Theorem second_AddTask_RemoveTask_refused cb s ni task t v :
  wfNode s ni ->
  view s ni = Some v ->
  taskinfos s !! task = Some t ->
  (vTasks v !! PodKey (TaskPod t) = None ->
   exists s1 node,
     AddTask cb ni task s = Some (None, s1) /\
     AddTask cb ni task s1 =
       Some (Some (ErrTaskAlreadyOnNode (Namespace t) (Name t) node), s1)) /\
  (is_Some (vTasks v !! PodKey (TaskPod t)) ->
   exists s1 host,
     RemoveTask ni task s = Some (None, s1) /\
     RemoveTask ni task s1 =
       Some (Some (ErrTaskNotOnHost (Namespace t) (Name t) host), s1)).
Proof.
  intros Hwf Hv Ht. split.
  - intros Hk.
    destruct (AddTask_spec cb s ni task t v Hwf Hv Ht Hk)
      as (s1 & n & Hadd & Hn & Hs1 & Hwf1 & Hv1).
    exists s1, (NName n). split; [done|].
    assert (Ht1 : taskinfos s1 !! task = Some t).
    { rewrite Hs1. simpl. by apply lookup_fresh_task_ne. }
    eapply (AddTask_duplicate cb s1 ni task
              (setTasks (<[PodKey (TaskPod t) := fresh (dom (taskinfos s))]>
                           (Tasks n)) n) t); [|done|].
    + rewrite Hs1. simpl. apply lookup_insert_eq.
    + simpl. rewrite lookup_insert_eq. eauto.
  - intros [c Hk].
    destruct (RemoveTask_spec s ni task t v c Hwf Hv Ht Hk)
      as (s1 & n & Hrem & Hn & Hs1 & Hwf1 & Hv1).
    exists s1, (NName n). split; [done|].
    assert (Ht1 : taskinfos s1 !! task = Some t) by (by rewrite Hs1).
    eapply (RemoveTask_missing s1 ni task
              (setTasks (delete (PodKey (TaskPod t)) (Tasks n)) n) t); [|done|].
    + rewrite Hs1. simpl. apply lookup_insert_eq.
    + simpl. apply lookup_delete_eq.
Qed.

Lemma second_AddTask_RemoveTask_refused_witness :
  let s := freshNodeStore (Some node1) (task1 Running false req1) in
  let t := task1 Running false req1 in
  (vTasks (freshView node1) !! PodKey (TaskPod t) = None ->
   exists s1 node,
     AddTask noBackfill 1%positive 1%positive s = Some (None, s1) /\
     AddTask noBackfill 1%positive 1%positive s1 =
       Some (Some (ErrTaskAlreadyOnNode (Namespace t) (Name t) node), s1)) /\
  (is_Some (vTasks (freshView node1) !! PodKey (TaskPod t)) ->
   exists s1 host,
     RemoveTask 1%positive 1%positive s = Some (None, s1) /\
     RemoveTask 1%positive 1%positive s1 =
       Some (Some (ErrTaskNotOnHost (Namespace t) (Name t) host), s1)).
Proof.
  apply (second_AddTask_RemoveTask_refused noBackfill
           (freshNodeStore (Some node1) (task1 Running false req1))
           1%positive 1%positive (task1 Running false req1) (freshView node1)).
  - apply (bool_decide_unpack _). vm_compute. reflexivity.
  - vm_compute. reflexivity.
  - vm_compute. reflexivity.
Defined.

(** ** The node holds a copy of the task *)

Lemma derefTasks_setTask_other s (m : gmap TaskID loc) l t :
  map_Forall (fun _ l' => l' <> l) m ->
  derefTasks (setTask l t s) m = derefTasks s m.
Proof.
  intros Hne. apply map_eq. intros k. rewrite !derefTasks_lookup.
  destruct (m !! k) as [l'|] eqn:Hl; [|done]. simpl.
  apply lookup_insert_ne. intros <-. by apply (Hne k l).
Qed.

Lemma view_setTask_other s ni n l t :
  nodeinfos s !! ni = Some n ->
  map_Forall (fun _ l' => l' <> l) (Tasks n) ->
  view (setTask l t s) ni = view s ni.
Proof.
  intros Hn Hne. unfold view. simpl. rewrite Hn. simpl.
  unfold viewOf. simpl. by rewrite derefTasks_setTask_other.
Qed.

Lemma wfNode_setTask s ni l t :
  wfNode s ni -> wfNode (setTask l t s) ni.
Proof.
  unfold wfNode. simpl. destruct (nodeinfos s !! ni) as [n|]; [|done].
  intros [Hnd Hall]. split; [done|].
  intros k l' Hl'. simpl. destruct (Hall k l' Hl') as [x Hx].
  destruct (decide (l = l')) as [->|Hne].
  - rewrite lookup_insert_eq. eauto.
  - rewrite lookup_insert_ne by done. eauto.
Qed.

(** X4.  The node stores a copy of the task it is given, a new object:
    whatever the caller writes afterwards in its own task object (a new
    status, a new request), the node shows the same counters and the same
    tasks.  The object given must not be one the node already stores. *)
Theorem AddTask_stores_a_copy cb s ni n task t v :
  wfNode s ni ->
  nodeinfos s !! ni = Some n ->
  view s ni = Some v ->
  taskinfos s !! task = Some t ->
  vTasks v !! PodKey (TaskPod t) = None ->
  map_Forall (fun _ l => l <> task) (Tasks n) ->
  exists s1 ti,
    AddTask cb ni task s = Some (None, s1) /\
    ti <> task /\
    taskinfos s !! ti = None /\
    (Tasks <$> nodeinfos s1 !! ni) =
      Some (<[PodKey (TaskPod t) := ti]> (Tasks n)) /\
    forall t', view (setTask task t' s1) ni = view s1 ni.
Proof.
  intros Hwf Hn Hv Ht Hk Hne.
  destruct (AddTask_spec cb s ni task t v Hwf Hv Ht Hk)
    as (s1 & n' & Hadd & Hn' & Hs1 & Hwf1 & Hv1).
  assert (n' = n) as -> by congruence.
  assert (Hti : fresh (dom (taskinfos s)) <> task).
  { intros E. rewrite <- E in Ht. by rewrite fresh_task_None in Ht. }
  exists s1, (fresh (dom (taskinfos s))).
  split; [done|]. split; [done|]. split; [apply fresh_task_None|].
  assert (Hn1 : nodeinfos s1 !! ni =
                Some (setTasks (<[PodKey (TaskPod t) := fresh (dom (taskinfos s))]>
                                  (Tasks n)) n)).
  { rewrite Hs1. simpl. apply lookup_insert_eq. }
  split; [by rewrite Hn1|].
  intros t'. eapply view_setTask_other; [exact Hn1|]. simpl.
  by apply map_Forall_insert_2.
Qed.

Lemma AddTask_stores_a_copy_witness :
  let s := freshNodeStore (Some node1) (task1 Running false req1) in
  let n := mkNodeInfo "n1" (Some node1) 1%positive 2%positive 3%positive
                      4%positive 5%positive 6%positive ∅ in
  exists s1 ti,
    AddTask noBackfill 1%positive 1%positive s = Some (None, s1) /\
    ti <> 1%positive /\
    taskinfos s !! ti = None /\
    (Tasks <$> nodeinfos s1 !! 1%positive) =
      Some (<[PodKey (TaskPod (task1 Running false req1)) := ti]> (Tasks n)) /\
    forall t', view (setTask 1%positive t' s1) 1%positive = view s1 1%positive.
Proof.
  apply (AddTask_stores_a_copy noBackfill
           (freshNodeStore (Some node1) (task1 Running false req1)) 1%positive
           (mkNodeInfo "n1" (Some node1) 1%positive 2%positive 3%positive
                       4%positive 5%positive 6%positive ∅)
           1%positive (task1 Running false req1) (freshView node1)).
  - apply (bool_decide_unpack _). vm_compute. reflexivity.
  - vm_compute. reflexivity.
  - vm_compute. reflexivity.
  - vm_compute. reflexivity.
  - vm_compute. reflexivity.
  - apply map_Forall_empty.
Defined.

(** X5.  [RemoveTask] finds the stored copy by the key of the pod and
    takes from the counters what the copy holds, not what its argument
    holds.  So a task that was added, and whose object the caller has
    since changed (status, request, flag: anything but the key of the
    pod), is still removed as it was added: when no [Sub] of the addition
    is a policy error and the flag agrees with [CheckBackfill] on
    the task as it was added, the node is back as it was before the
    addition. *)
Theorem RemoveTask_uses_the_copy cb s ni n task t v t' :
  wfNode s ni ->
  nodeinfos s !! ni = Some n ->
  view s ni = Some v ->
  taskinfos s !! task = Some t ->
  vTasks v !! PodKey (TaskPod t) = None ->
  map_Forall (fun _ l => l <> task) (Tasks n) ->
  (is_Some (vNode v) ->
   rle (Resreq t)
       (match Status t with Pipelined => vReleasing v | _ => vIdle v end)) ->
  (cb (TaskPod t) = true -> IsBackfill t = true) ->
  PodKey (TaskPod t') = PodKey (TaskPod t) ->
  exists s1 s2,
    AddTask cb ni task s = Some (None, s1) /\
    RemoveTask ni task (setTask task t' s1) = Some (None, s2) /\
    view s2 ni = Some v /\
    nodeinfos s2 !! ni = Some n.
Proof.
  intros Hwf Hn Hv Ht Hk Hne Hfit Hflag Hkey.
  destruct (AddTask_spec cb s ni task t v Hwf Hv Ht Hk)
    as (s1 & n' & Hadd & Hn' & Hs1 & Hwf1 & Hv1).
  assert (n' = n) as -> by congruence.
  assert (Hti : fresh (dom (taskinfos s)) <> task).
  { intros E. rewrite <- E in Ht. by rewrite fresh_task_None in Ht. }
  assert (Hn1 : nodeinfos s1 !! ni =
                Some (setTasks (<[PodKey (TaskPod t) := fresh (dom (taskinfos s))]>
                                  (Tasks n)) n)).
  { rewrite Hs1. simpl. apply lookup_insert_eq. }
  set (s1' := setTask task t' s1).
  assert (Hv1' : view s1' ni = Some (addTaskView cb t v)).
  { unfold s1'. erewrite view_setTask_other; [exact Hv1|exact Hn1|].
    simpl. by apply map_Forall_insert_2. }
  assert (Hwf1' : wfNode s1' ni) by (by apply wfNode_setTask).
  assert (Ht1' : taskinfos s1' !! task = Some t').
  { unfold s1'. simpl. apply lookup_insert_eq. }
  assert (Hk1 : vTasks (addTaskView cb t v) !! PodKey (TaskPod t') =
                Some (storedCopy cb t)).
  { rewrite Hkey, addTaskView_tasks. apply lookup_insert_eq. }
  destruct (RemoveTask_spec s1' ni task t' _ _ Hwf1' Hv1' Ht1' Hk1)
    as (s2 & n1 & Hrem & Hn1' & Hs2 & Hwf2 & Hv2).
  exists s1, s2. split; [done|]. split; [done|]. split.
  - rewrite Hv2, Hkey. f_equal. by apply removeTaskView_addTaskView.
  - rewrite Hs2. simpl. rewrite lookup_insert_eq.
    unfold s1' in Hn1'. simpl in Hn1'. rewrite Hn1 in Hn1'.
    injection Hn1' as <-. simpl. f_equal.
    rewrite Hkey, delete_insert_eq.
    pose proof Hv as Hv0. apply view_unfold in Hv0 as (n0 & Hn0 & Hvn).
    assert (n0 = n) as -> by congruence.
    rewrite (wfNode_unfold _ _ _ Hn) in Hwf.
    pose proof (viewOf_Some _ _ _ Hvn) as (_ & _ & _ & _ & _ & _ & _ & Hts).
    rewrite Hts in Hk. apply (derefTasks_None _ _ _ Hwf) in Hk.
    rewrite (delete_id _ _ Hk). by destruct n.
Qed.

Lemma RemoveTask_uses_the_copy_witness :
  let s := freshNodeStore (Some node1) (task1 Running false req1) in
  let n := mkNodeInfo "n1" (Some node1) 1%positive 2%positive 3%positive
                      4%positive 5%positive 6%positive ∅ in
  exists s1 s2,
    AddTask noBackfill 1%positive 1%positive s = Some (None, s1) /\
    RemoveTask 1%positive 1%positive
      (setTask 1%positive (task1 Releasing true (mkResource 9 9 9)) s1) =
      Some (None, s2) /\
    view s2 1%positive = Some (freshView node1) /\
    nodeinfos s2 !! 1%positive = Some n.
Proof.
  apply (RemoveTask_uses_the_copy noBackfill
           (freshNodeStore (Some node1) (task1 Running false req1)) 1%positive
           (mkNodeInfo "n1" (Some node1) 1%positive 2%positive 3%positive
                       4%positive 5%positive 6%positive ∅)
           1%positive (task1 Running false req1) (freshView node1)
           (task1 Releasing true (mkResource 9 9 9))).
  - apply (bool_decide_unpack _). vm_compute. reflexivity.
  - vm_compute. reflexivity.
  - vm_compute. reflexivity.
  - vm_compute. reflexivity.
  - vm_compute. reflexivity.
  - apply map_Forall_empty.
  - intros _. apply (bool_decide_unpack _). vm_compute. reflexivity.
  - intros H. discriminate H.
  - reflexivity.
Defined.

(** ** Operations on one node and the other nodes *)

Lemma removeTaskResources_other n t m l :
  l ∉ counterLocs n -> removeTaskResources n t m !! l = m !! l.
Proof.
  intros Hl. unfold counterLocs in Hl.
  repeat (apply not_elem_of_cons in Hl as [? Hl]).
  unfold removeTaskResources.
  destruct (NNode n); [|done].
  destruct (IsBackfill t), (Status t); simpl;
    rewrite ?lookup_alter_ne by done; reflexivity.
Qed.

(** Whatever one operation returns, it writes nothing but the counters
    and the record of its node, and a task object that did not exist. *)
Lemma runOp_writesOnly cb s ni op r s' n :
  wfNode s ni ->
  is_Some (view s ni) ->
  nodeinfos s !! ni = Some n ->
  runOp cb ni op s = Some (r, s') ->
  (exists m, nodeinfos s' !! ni = Some (setTasks m n)) /\
  wfNode s' ni /\
  is_Some (view s' ni) /\
  writesOnly ni (counterLocs n) s s'.
Proof.
  intros Hwf [v Hv] Hn Hop.
  pose proof Hv as Hv0. apply view_unfold in Hv0 as (n' & Hn' & Hvn).
  assert (n' = n) as -> by congruence.
  pose proof Hwf as Hwfn. rewrite (wfNode_unfold _ _ _ Hn) in Hwfn.
  pose proof (viewOf_Some _ _ _ Hvn) as (_ & _ & _ & _ & _ & _ & _ & Hts).
  assert (Hsame : forall e, Some (r, s') = Some (Some e, s) ->
            (exists m, nodeinfos s' !! ni = Some (setTasks m n)) /\
            wfNode s' ni /\ is_Some (view s' ni) /\
            writesOnly ni (counterLocs n) s s').
  { intros e [= -> ->]. split; [|split; [done|split; [eauto|]]].
    - exists (Tasks n). by rewrite setTasks_same.
    - apply writesOnly_refl. }
  destruct op as [task|task]; simpl in Hop.
  - destruct (taskinfos s !! task) as [t|] eqn:Ht.
    + destruct (vTasks v !! PodKey (TaskPod t)) as [c|] eqn:Hk.
      * rewrite Hts in Hk. apply derefTasks_Some in Hk as (l & Hl & _).
        rewrite (AddTask_duplicate cb s ni task n t Hn Ht) in Hop by eauto.
        by eapply Hsame.
      * destruct (AddTask_writesOnly cb s ni task t v Hwf Hv Ht Hk)
          as (s1 & n1 & ti & Hrun & Hn1 & Hti & Hn1' & Hwf1 & Hv1 & Hw).
        assert (n1 = n) as -> by congruence.
        rewrite Hrun in Hop. injection Hop as <- <-.
        split; [eauto|]. split; [done|]. split; [eauto|done].
    + exfalso. revert Hop. unfold AddTask. run_step.
      rewrite run_bind_panic; [done|]. unfold getTask. by rewrite Ht.
  - destruct (taskinfos s !! task) as [t|] eqn:Ht.
    + destruct (vTasks v !! PodKey (TaskPod t)) as [c|] eqn:Hk.
      * destruct (RemoveTask_spec s ni task t v c Hwf Hv Ht Hk)
          as (s1 & n1 & Hrun & Hn1 & Hs1 & Hwf1 & Hv1).
        assert (n1 = n) as -> by congruence.
        rewrite Hrun in Hop. injection Hop as <- <-.
        split; [|split; [done|split; [eauto|]]].
        -- rewrite Hs1. simpl. rewrite lookup_insert_eq. eauto.
        -- rewrite Hs1. split; [|split]; simpl.
           ++ intros l Hl. by apply removeTaskResources_other.
           ++ done.
           ++ intros l Hl. by rewrite lookup_insert_ne.
      * rewrite Hts in Hk. apply (derefTasks_None _ _ _ Hwfn) in Hk.
        rewrite (RemoveTask_missing s ni task n t Hn Ht Hk) in Hop.
        by eapply Hsame.
    + exfalso. revert Hop. unfold RemoveTask. run_step.
      rewrite run_bind_panic; [done|]. unfold getTask. by rewrite Ht.
Qed.

Lemma runOps_writesOnly cb ni n0 ops : forall s r s',
  wfNode s ni ->
  is_Some (view s ni) ->
  (exists m, nodeinfos s !! ni = Some (setTasks m n0)) ->
  runOps cb ni ops s = Some (r, s') ->
  writesOnly ni (counterLocs n0) s s'.
Proof.
  induction ops as [|op rest IH]; intros s r s' Hwf Hv [m Hm] Hrun.
  - injection Hrun as <- <-. apply writesOnly_refl.
  - simpl in Hrun. unfold mbind at 1, M_bind at 1 in Hrun.
    destruct (runOp cb ni op s) as [[e s1]|] eqn:Hop; [|done].
    destruct (runOp_writesOnly cb s ni op e s1 _ Hwf Hv Hm Hop)
      as ([m1 Hm1] & Hwf1 & Hv1 & Hw1).
    destruct e as [e|].
    + injection Hrun as <- <-. exact Hw1.
    + eapply writesOnly_trans; [exact Hw1|].
      eapply IH; eauto.
Qed.

(** X6.  The operations on a node write the counters and the record of
    that node only.  Another node, whose counters are other objects,
    shows the same counters and the same tasks after any sequence of
    [AddTask] and [RemoveTask] on the first, whether the sequence succeeds
    or stops on an error. *)
Theorem other_node_untouched cb s ni ni2 n n2 v2 ops r s' :
  ni <> ni2 ->
  wfNode s ni ->
  is_Some (view s ni) ->
  nodeinfos s !! ni = Some n ->
  wfNode s ni2 ->
  nodeinfos s !! ni2 = Some n2 ->
  view s ni2 = Some v2 ->
  Forall (fun l => l ∉ counterLocs n) (counterLocs n2) ->
  runOps cb ni ops s = Some (r, s') ->
  nodeinfos s' !! ni2 = Some n2 /\ view s' ni2 = Some v2.
Proof.
  intros Hne Hwf Hv Hn Hwf2 Hn2 Hv2 Hdisj Hrun.
  destruct (runOps_writesOnly cb ni n ops s r s' Hwf Hv) as (Hwr & Hwt & Hwn);
    [exists (Tasks n); by rewrite setTasks_same | done |].
  assert (Hn2' : nodeinfos s' !! ni2 = Some n2).
  { rewrite Hwn; [done|]. by intros ->. }
  split; [done|].
  apply view_unfold in Hv2 as (n2' & Hn2'' & Hv2).
  assert (n2' = n2) as -> by congruence.
  rewrite (wfNode_unfold _ _ _ Hn2) in Hwf2. destruct Hwf2 as [_ Hall].
  apply viewOf_Some in Hv2 as (Ha & Hb & Hc & Hd & He & Hf & Hg & Hh).
  rewrite Forall_forall in Hdisj.
  apply view_unfold. exists n2. split; [done|].
  erewrite viewOf_intro; cycle 1.
  1-6: rewrite Hwr; [eassumption|]; apply Hdisj; unfold counterLocs;
       set_solver.
  destruct v2; simpl in *. subst. f_equal. f_equal.
  apply map_eq. intros k. rewrite !derefTasks_lookup.
  destruct (Tasks n2 !! k) as [l|] eqn:Hl; [|done]. simpl.
  destruct (Hall k l Hl) as [x Hx]. rewrite Hx.
  eapply lookup_weaken; eauto.
Qed.

Lemma other_node_untouched_witness :
  let s := twoNodeStore (task1 Running true req1) in
  let ops := [OpAddTask 1%positive; OpAddTask 1%positive] in
  let n2 := mkNodeInfo "n1" (Some node1) 7%positive 8%positive 9%positive
                       10%positive 11%positive 12%positive ∅ in
  nodeinfos (exec (runOps noBackfill 1%positive ops) s) !! 2%positive = Some n2 /\
  view (exec (runOps noBackfill 1%positive ops) s) 2%positive =
    Some (freshView node1).
Proof.
  apply (other_node_untouched noBackfill
           (twoNodeStore (task1 Running true req1)) 1%positive 2%positive
           (mkNodeInfo "n1" (Some node1) 1%positive 2%positive 3%positive
                       4%positive 5%positive 6%positive ∅)
           (mkNodeInfo "n1" (Some node1) 7%positive 8%positive 9%positive
                       10%positive 11%positive 12%positive ∅)
           (freshView node1)
           [OpAddTask 1%positive; OpAddTask 1%positive]
           (Some (ErrTaskAlreadyOnNode "c1" "p1" "n1"))).
  - intros H. discriminate H.
  - apply (bool_decide_unpack _). vm_compute. reflexivity.
  - vm_compute. eauto.
  - vm_compute. reflexivity.
  - apply (bool_decide_unpack _). vm_compute. reflexivity.
  - vm_compute. reflexivity.
  - vm_compute. reflexivity.
  - apply (bool_decide_unpack _). vm_compute. reflexivity.
  - vm_compute. reflexivity.
Defined.

(** ** Accessible resources and backfill tasks *)

Lemma GetAccessibleResource_view s ni v :
  view s ni = Some v ->
  exists l s',
    GetAccessibleResource ni s = Some (l, s') /\
    resources s' !! l = Some (radd (vIdle v) (vBackfilled v)) /\
    resources s !! l = None.
Proof.
  intros Hv. apply view_unfold in Hv as (n & Hn & Hv).
  apply viewOf_Some in Hv as (_ & Hidle & _ & Hbf & _).
  unfold GetAccessibleResource. run_step.
  erewrite run_bind by (by apply Resource_Clone_run).
  set (l1 := fresh (dom (resources s))).
  assert (Hl1 : resources s !! l1 = None) by apply fresh_resource_None.
  erewrite run_bind; cycle 1.
  { apply getResource_run. simpl. rewrite lookup_insert_ne; [exact Hbf|].
    intros E. congruence. }
  erewrite run_bind; cycle 1.
  { apply Resource_Add_run. simpl. rewrite lookup_insert_eq. eauto. }
  erewrite run_bind; cycle 1.
  { apply (Resource_Clone_run _ _ (radd (vIdle v) (vBackfilled v))). simpl.
    by rewrite lookup_alter, decide_True, lookup_insert_eq. }
  simpl.
  set (m2 := alter (fun x => radd x (vBackfilled v)) l1
               (<[l1:=vIdle v]> (resources s))).
  eexists _, _. split; [reflexivity|]. simpl.
  split; [by rewrite lookup_insert_eq|].
  assert (Hsub : resources s ⊆ m2).
  { apply map_subseteq_spec. intros i x Hi. unfold m2.
    rewrite lookup_alter_ne, lookup_insert_ne; [done|congruence|congruence]. }
  destruct (resources s !! fresh (dom m2)) as [x|] eqn:E; [|done].
  eapply lookup_weaken in E; [|exact Hsub].
  by rewrite fresh_resource_None in E.
Qed.

(** X7.  What [GetAccessibleResource] returns after a task was added, for
    a task that is not Pipelined and fits in [Idle]: if the task is a
    backfill task, the accessible resource is what it was before the
    addition (the request moved from [Idle] to [Backfilled]); if it is
    not, the accessible resource went down by the request. *)
Theorem accessible_after_AddTask cb s ni task t v nd :
  wfNode s ni ->
  view s ni = Some v ->
  vNode v = Some nd ->
  taskinfos s !! task = Some t ->
  vTasks v !! PodKey (TaskPod t) = None ->
  Status t <> Pipelined ->
  rle (Resreq t) (vIdle v) ->
  exists s1 l s2,
    AddTask cb ni task s = Some (None, s1) /\
    GetAccessibleResource ni s1 = Some (l, s2) /\
    resources s2 !! l =
      Some (if IsBackfill t
            then radd (vIdle v) (vBackfilled v)
            else rsub (radd (vIdle v) (vBackfilled v)) (Resreq t)).
Proof.
  intros Hwf Hv Hnd Ht Hk Hst Hfit.
  destruct (AddTask_spec cb s ni task t v Hwf Hv Ht Hk)
    as (s1 & n & Hadd & _ & _ & _ & Hv1).
  destruct (GetAccessibleResource_view s1 ni _ Hv1) as (l & s2 & Hrun & Hl & _).
  exists s1, l, s2. split; [done|]. split; [done|].
  rewrite Hl. f_equal. unfold addTaskView. rewrite Hnd. simpl.
  destruct (IsBackfill t); destruct (Status t); try congruence;
    resource_arith.
Qed.

Lemma accessible_after_AddTask_witness :
  exists s1 l s2,
    AddTask noBackfill 1%positive 1%positive
      (freshNodeStore (Some node1) (task1 Running true req1)) =
      Some (None, s1) /\
    GetAccessibleResource 1%positive s1 = Some (l, s2) /\
    resources s2 !! l = Some (radd (mkResource 4 8 0) zeroResource).
Proof.
  apply (accessible_after_AddTask noBackfill
           (freshNodeStore (Some node1) (task1 Running true req1))
           1%positive 1%positive (task1 Running true req1)
           (freshView node1) node1).
  - apply (bool_decide_unpack _). vm_compute. reflexivity.
  - vm_compute. reflexivity.
  - reflexivity.
  - vm_compute. reflexivity.
  - vm_compute. reflexivity.
  - intros H. discriminate H.
  - apply (bool_decide_unpack _). vm_compute. reflexivity.
Defined.

(** ** SetNode, in general *)

Lemma alloc_three (rs : gmap loc Resource) r1 r2 r3 :
  let l1 := fresh (dom rs) in let m1 := <[l1:=r1]> rs in
  let l2 := fresh (dom m1) in let m2 := <[l2:=r2]> m1 in
  let l3 := fresh (dom m2) in let m3 := <[l3:=r3]> m2 in
  NoDup [l1; l2; l3] /\
  Forall (fun l => rs !! l = None) [l1; l2; l3] /\
  rs ⊆ m3 /\
  m3 !! l1 = Some r1 /\ m3 !! l2 = Some r2 /\ m3 !! l3 = Some r3.
Proof.
  intros.
  assert (Hfresh1 : l1 ∉ dom rs) by apply is_fresh.
  assert (Hfresh2 : l2 ∉ dom m1) by apply is_fresh.
  assert (Hfresh3 : l3 ∉ dom m2) by apply is_fresh.
  clearbody l1 l2 l3.
  subst m1 m2 m3.
  rewrite !dom_insert_L in *.
  assert (Hne : NoDup [l1; l2; l3]).
  { repeat (apply NoDup_cons; split; [set_solver|]). apply NoDup_nil_2. }
  split; [done|]. split.
  { repeat (apply Forall_cons; split; [apply not_elem_of_dom; set_solver|]).
    apply Forall_nil_2. }
  split.
  { repeat (etrans; [|apply insert_subseteq; apply not_elem_of_dom;
                       rewrite ?dom_insert_L; set_solver]).
    done. }
  nodup_neqs.
  repeat split; simplify_map_eq; done.
Qed.

Lemma sumList_cons p t l :
  sumList p (t :: l) =
  if p t then radd (sumList p l) (Resreq t) else sumList p l.
Proof. reflexivity. Qed.

(** The loop of [SetNode], on the three counters it writes. *)
Lemma setNodeTasks_run ni n' ts : forall tvs s rel idle used,
  nodeinfos s !! ni = Some n' ->
  Releasing_ n' <> Idle n' ->
  Releasing_ n' <> Used n' ->
  Idle n' <> Used n' ->
  resources s !! Releasing_ n' = Some rel ->
  resources s !! Idle n' = Some idle ->
  resources s !! Used n' = Some used ->
  Forall2 (fun kl t => taskinfos s !! kl.2 = Some t) ts tvs ->
  exists s',
    setNodeTasks ni ts s = Some (tt, s') /\
    taskinfos s' = taskinfos s /\
    nodeinfos s' = nodeinfos s /\
    resources s' !! Releasing_ n' =
      Some (radd rel (sumList (isStatus Releasing) tvs)) /\
    resources s' !! Idle n' = Some (rsub idle (sumList allTasks tvs)) /\
    resources s' !! Used n' = Some (radd used (sumList allTasks tvs)) /\
    (forall l, l <> Releasing_ n' -> l <> Idle n' -> l <> Used n' ->
               resources s' !! l = resources s !! l).
Proof.
  induction ts as [|[k task] rest IH];
    intros tvs s rel idle used Hn Hri Hru Hiu Hrel Hidle Hused Hts.
  - apply Forall2_nil_inv_l in Hts as ->. exists s.
    split; [reflexivity|]. split; [done|]. split; [done|].
    split; [rewrite Hrel; f_equal; resource_arith|].
    split; [rewrite Hidle; f_equal; resource_arith|].
    split; [rewrite Hused; f_equal; resource_arith|done].
  - apply Forall2_cons_inv_l in Hts as (t & tvs' & Ht & Hts & ->).
    simpl in Ht.
    set (rel1 := if decide (Status t = Releasing)
                 then radd rel (Resreq t) else rel).
    set (s1 := mkStore
                 (alter (fun x => radd x (Resreq t)) (Used n')
                    (alter (fun x => rsub x (Resreq t)) (Idle n')
                       (if decide (Status t = Releasing)
                        then alter (fun x => radd x (Resreq t))
                                   (Releasing_ n') (resources s)
                        else resources s)))
                 (taskinfos s) (nodeinfos s)).
    assert (Hstep : forall (f : M ()),
              (n ← getNode ni;
               t0 ← getTask task;
               (if decide (Status t0 = Releasing)
                then Resource_Add (Releasing_ n) (Resreq t0);; skip
                else skip);;
               Resource_Sub (Idle n) (Resreq t0);;
               Resource_Add (Used n) (Resreq t0);; f) s = f s1).
    { intros f. do 2 run_step. unfold s1.
      assert (HI : is_Some (resources s !! Idle n')) by eauto.
      assert (HU : is_Some (resources s !! Used n')) by eauto.
      assert (HR : is_Some (resources s !! Releasing_ n')) by eauto.
      destruct (decide (Status t = Releasing)); repeat run_step; reflexivity. }
    destruct (IH tvs' s1 rel1 (rsub idle (Resreq t)) (radd used (Resreq t)))
      as (s' & Hrun & Htk & Hnd & Hr' & Hi' & Hu' & Hother); try done.
    { unfold s1, rel1. simpl.
      destruct (decide (Status t = Releasing));
        rewrite ?lookup_alter; repeat case_decide; try congruence;
        rewrite Hrel; reflexivity. }
    { unfold s1. simpl.
      destruct (decide (Status t = Releasing));
        rewrite ?lookup_alter; repeat case_decide; try congruence;
        rewrite Hidle; reflexivity. }
    { unfold s1. simpl.
      destruct (decide (Status t = Releasing));
        rewrite ?lookup_alter; repeat case_decide; try congruence;
        rewrite Hused; reflexivity. }
    exists s'. split.
    { simpl. rewrite (Hstep (setNodeTasks ni rest)). exact Hrun. }
    split; [by rewrite Htk|]. split; [by rewrite Hnd|].
    rewrite Hr', Hi', Hu', !sumList_cons. unfold allTasks at 2 4.
    split.
    { f_equal. unfold rel1, isStatus.
      destruct (decide (Status t = Releasing)) as [E|E].
      - rewrite (bool_decide_eq_true_2 _ E). resource_arith.
      - rewrite (bool_decide_eq_false_2 _ E). reflexivity. }
    split; [f_equal; resource_arith|]. split; [f_equal; resource_arith|].
    intros l H1 H2 H3. rewrite Hother by done. unfold s1. simpl.
    destruct (decide (Status t = Releasing));
      rewrite ?lookup_alter_ne by done; reflexivity.
Qed.

Lemma derefTasks_insert s (m : gmap TaskID loc) k l t :
  taskinfos s !! l = Some t ->
  derefTasks s (<[k:=l]> m) = <[k:=t]> (derefTasks s m).
Proof.
  intros Ht. apply map_eq. intros i. rewrite derefTasks_lookup, !lookup_insert.
  destruct (decide (k = i)); simpl; [done|]. by rewrite derefTasks_lookup.
Qed.

(** The sum along the tasks walked is the sum over the task map. *)
Lemma sumList_sumReq s p (ts : list (TaskID * loc)) tvs :
  NoDup ts.*1 ->
  Forall2 (fun kl t => taskinfos s !! kl.2 = Some t) ts tvs ->
  sumList p tvs = sumReq p (derefTasks s (list_to_map ts)).
Proof.
  intros Hnd Hts. induction Hts as [|[k l] t ts tvs Ht Hts IH]; simpl.
  - unfold derefTasks. rewrite omap_empty. by rewrite sumReq_empty.
  - simpl in Hnd. apply NoDup_cons in Hnd as [Hnotin Hnd]. simpl in Ht.
    rewrite (derefTasks_insert _ _ _ _ _ Ht).
    rewrite sumReq_insert.
    + by rewrite IH.
    + rewrite derefTasks_lookup.
      by rewrite (not_elem_of_list_to_map_1 _ _ Hnotin).
Qed.

Lemma deref_walk s (ts : list (TaskID * loc)) :
  Forall (fun kl => is_Some (taskinfos s !! kl.2)) ts ->
  exists tvs, Forall2 (fun kl t => taskinfos s !! kl.2 = Some t) ts tvs.
Proof.
  induction 1 as [|kl ts [t Ht] _ [tvs IH]].
  - exists []. constructor.
  - exists (t :: tvs). by constructor.
Qed.

(** What [SetNode] leaves, for every order in which the task map is
    walked. *)
Lemma SetNode_spec rangeOrder s ni node v :
  (forall m, rangeOrder m ≡ₚ map_to_list m) ->
  wfNode s ni ->
  view s ni = Some v ->
  exists s',
    SetNode rangeOrder ni node s = Some (tt, s') /\
    wfNode s' ni /\
    (NName <$> nodeinfos s' !! ni) = Some (NodeName node) /\
    view s' ni =
      Some (mkNodeView (Some node)
              (radd (vReleasing v) (sumReq (isStatus Releasing) (vTasks v)))
              (rsub (StatusAllocatable node) (sumReq allTasks (vTasks v)))
              (radd (vUsed v) (sumReq allTasks (vTasks v)))
              (vBackfilled v)
              (StatusAllocatable node) (StatusCapacity node)
              (vTasks v)).
Proof.
  intros Hperm Hwf Hv.
  apply view_unfold in Hv as (n & Hn & Hvn).
  rewrite (wfNode_unfold _ _ _ Hn) in Hwf. destruct Hwf as [Hnd Hall].
  pose proof (viewOf_Some _ _ _ Hvn)
    as (Hrel & Hidle & Hused & Hbf & Halloc & Hcap & Hnode & Hts).
  destruct (alloc_three (resources s) (StatusAllocatable node)
              (StatusCapacity node) (StatusAllocatable node))
    as (Hnd3 & Hfr & Hsub & Hla & Hlc & Hli).
  set (la := fresh (dom (resources s))) in *.
  set (m1 := <[la:=StatusAllocatable node]> (resources s)) in *.
  set (lc := fresh (dom m1)) in *.
  set (m2 := <[lc:=StatusCapacity node]> m1) in *.
  set (li := fresh (dom m2)) in *.
  set (m3 := <[li:=StatusAllocatable node]> m2) in *.
  set (n' := mkNodeInfo (NodeName node) (Some node) (Releasing_ n) li
                        (Used n) (Backfilled n) la lc (Tasks n)).
  set (s3 := mkStore m3 (taskinfos s) (<[ni:=n']> (nodeinfos s))).
  assert (Hold : forall l x, resources s !! l = Some x ->
                             l <> la /\ l <> lc /\ l <> li /\ m3 !! l = Some x).
  { intros l x Hl. rewrite Forall_forall in Hfr.
    repeat split.
    - intros ->. rewrite (Hfr la) in Hl by set_solver. discriminate Hl.
    - intros ->. rewrite (Hfr lc) in Hl by set_solver. discriminate Hl.
    - intros ->. rewrite (Hfr li) in Hl by set_solver. discriminate Hl.
    - by eapply lookup_weaken. }
  destruct (Hold _ _ Hrel) as (Hr1 & Hr2 & Hr3 & Hrel3).
  destruct (Hold _ _ Hused) as (Hu1 & Hu2 & Hu3 & Hused3).
  destruct (Hold _ _ Hbf) as (Hb1 & Hb2 & Hb3 & Hbf3).
  unfold counterLocs in Hnd. pose proof Hnd as Hnd0. nodup_neqs.
  pose proof Hnd3 as Hnd3'. nodup_neqs.
  destruct (range_list_to_map rangeOrder (Tasks n) (Hperm _)) as [Hndts Hl2m].
  destruct (deref_walk s (rangeOrder (Tasks n))) as [tvs Htvs].
  { rewrite Forall_forall. intros [k l] Hin. simpl.
    rewrite Hperm in Hin. apply elem_of_map_to_list in Hin.
    by apply (Hall k l). }
  destruct (setNodeTasks_run ni n' (rangeOrder (Tasks n)) tvs s3
              (vReleasing v) (StatusAllocatable node) (vUsed v))
    as (s' & Hloop & Htk & Hnds & Hr' & Hi' & Hu' & Hother);
    [ simpl; first [ done | apply lookup_insert_eq | congruence ] .. |].
  rewrite (sumList_sumReq s _ _ tvs Hndts Htvs), Hl2m, <- Hts in Hr'.
  rewrite (sumList_sumReq s _ _ tvs Hndts Htvs), Hl2m, <- Hts in Hi'.
  rewrite (sumList_sumReq s _ _ tvs Hndts Htvs), Hl2m, <- Hts in Hu'.
  simpl in Hr', Hi', Hu', Hother.
  exists s'. split.
  { unfold SetNode, NewResource. run_step.
    do 3 (erewrite run_bind by reflexivity).
    erewrite run_bind by (apply putNode_run; simpl; eauto).
    exact Hloop. }
  assert (Hn' : nodeinfos s' !! ni = Some n').
  { rewrite Hnds. simpl. apply lookup_insert_eq. }
  split; [|split].
  - unfold wfNode. rewrite Hn'. split.
    + unfold counterLocs. simpl.
      repeat (apply NoDup_cons; split; [set_solver|]). apply NoDup_nil_2.
    + simpl. intros k l Hl. simpl. rewrite Htk. simpl. by apply (Hall k l).
  - by rewrite Hn'.
  - apply view_unfold. exists n'. split; [done|].
    erewrite viewOf_intro; cycle 1.
    + exact Hr'.
    + exact Hi'.
    + exact Hu'.
    + simpl. rewrite Hother by (simpl; congruence). exact Hbf3.
    + simpl. rewrite Hother by (simpl; congruence). exact Hla.
    + simpl. rewrite Hother by (simpl; congruence). exact Hlc.
    + simpl. f_equal. f_equal. rewrite Hts.
      apply map_eq. intros k. rewrite !derefTasks_lookup. by rewrite Htk.
Qed.

(** X8.  [SetNode], for every order in which the task map is walked: the
    node gets the name and the node object given, new [Allocatable] and
    [Capability] from the node object, and a new [Idle] that is the
    allocatable less the requests of all its tasks (clamped at zero).
    [Used] and [Releasing] are not started again: the requests of all the
    tasks are added to the [Used] the node had, those of the Releasing
    tasks to the [Releasing] it had.  [Backfilled] and the tasks are as
    before. *)
Theorem SetNode_effect rangeOrder s ni node v :
  (forall m, rangeOrder m ≡ₚ map_to_list m) ->
  wfNode s ni ->
  view s ni = Some v ->
  exists s',
    SetNode rangeOrder ni node s = Some (tt, s') /\
    wfNode s' ni /\
    (NName <$> nodeinfos s' !! ni) = Some (NodeName node) /\
    view s' ni =
      Some (mkNodeView (Some node)
              (radd (vReleasing v) (sumReq (isStatus Releasing) (vTasks v)))
              (rsub (StatusAllocatable node) (sumReq allTasks (vTasks v)))
              (radd (vUsed v) (sumReq allTasks (vTasks v)))
              (vBackfilled v)
              (StatusAllocatable node) (StatusCapacity node)
              (vTasks v)).
Proof. apply SetNode_spec. Qed.

Lemma SetNode_effect_witness :
  exists s',
    SetNode map_to_list 1%positive node1 oneTaskNodeStore = Some (tt, s') /\
    wfNode s' 1%positive /\
    (NName <$> nodeinfos s' !! 1%positive) = Some (NodeName node1) /\
    view s' 1%positive =
      Some (mkNodeView (Some node1)
              (radd (vReleasing oneTaskView)
                    (sumReq (isStatus Releasing) (vTasks oneTaskView)))
              (rsub (StatusAllocatable node1)
                    (sumReq allTasks (vTasks oneTaskView)))
              (radd (vUsed oneTaskView) (sumReq allTasks (vTasks oneTaskView)))
              (vBackfilled oneTaskView)
              (StatusAllocatable node1) (StatusCapacity node1)
              (vTasks oneTaskView)).
Proof.
  apply (SetNode_effect map_to_list oneTaskNodeStore 1%positive node1
           oneTaskView).
  - intros m. reflexivity.
  - apply (bool_decide_unpack _). vm_compute. reflexivity.
  - vm_compute. reflexivity.
Defined.

(** A node without node object keeps it so, and keeps its counters,
    along any sequence of successful operations. *)
Lemma runOps_nil cb ni ops : forall s s' v,
  wfNode s ni ->
  view s ni = Some v ->
  vNode v = None ->
  runOps cb ni ops s = Some (None, s') ->
  exists v',
    wfNode s' ni /\ view s' ni = Some v' /\ vNode v' = None /\
    sameCounters v v'.
Proof.
  induction ops as [|op rest IH]; intros s s' v Hwf Hv Hnode Hrun.
  - injection Hrun as <-. exists v. repeat split; done.
  - apply runOps_cons in Hrun as (s1 & Hop & Hrest).
    destruct op as [task|task]; simpl in Hop.
    + destruct (AddTask_ok_inv cb s ni task s1 v Hwf Hv Hop)
        as (t & Ht & Hk & Hwf1 & Hv1).
      destruct (IH s1 s' _ Hwf1 Hv1) as (v' & Hwf' & Hv' & Hn' & Hsame);
        [by rewrite addTaskView_node | done |].
      exists v'. split; [done|]. split; [done|]. split; [done|].
      unfold sameCounters, addTaskView in *. rewrite Hnode in Hsame.
      exact Hsame.
    + destruct (RemoveTask_ok_inv s ni task s1 v Hwf Hv Hop)
        as (t & c & Ht & Hk & Hwf1 & Hv1).
      destruct (IH s1 s' _ Hwf1 Hv1) as (v' & Hwf' & Hv' & Hn' & Hsame);
        [by rewrite removeTaskView_node | done |].
      exists v'. split; [done|]. split; [done|]. split; [done|].
      unfold sameCounters, removeTaskView in *. rewrite Hnode in Hsame.
      exact Hsame.
Qed.



(** * Counters that keep agreeing with the tasks *)

Lemma recounted_addTaskView cb t v :
  recounted cb v ->
  vTasks v !! PodKey (TaskPod t) = None ->
  Status t <> Pipelined ->
  rle (Resreq t) (vIdle v) ->
  (cb (TaskPod t) = true -> IsBackfill t = true) ->
  recounted cb (addTaskView cb t v).
Proof.
  intros [Hset Hinv] Hk Hst Hfit Hflag.
  unfold recounted, addTaskView.
  rewrite (storedCopy_flagged cb t Hflag).
  destruct (vNode v) as [nd|] eqn:Hnode; simpl.
  - destruct Hinv as (Hnp & Ha & Hc & HU & HB & HR & HI).
    split; [by apply map_Forall_insert_2|].
    split; [by apply map_Forall_insert_2|].
    rewrite !sumReq_insert by done. unfold allTasks at 1 3. simpl.
    rewrite <- HU, <- HB, <- HR. unfold isStatus.
    split; [done|]. split; [done|]. split; [done|].
    split; [by destruct (IsBackfill t)|].
    destruct (Status t); try congruence;
      (rewrite ?bool_decide_eq_true_2 by done);
      (rewrite ?bool_decide_eq_false_2 by done);
      (split; [reflexivity | resource_arith]).
  - split; [by apply map_Forall_insert_2 | done].
Qed.

Lemma recounted_removeTaskView cb k c v :
  recounted cb v ->
  vTasks v !! k = Some c ->
  recounted cb (removeTaskView k c v).
Proof.
  intros [Hset Hinv] Hk.
  unfold recounted, removeTaskView.
  destruct (vNode v) as [nd|] eqn:Hnode; simpl.
  - destruct Hinv as (Hnp & Ha & Hc & HU & HB & HR & HI).
    pose proof (Hnp k c Hk) as Hst. simpl in Hst.
    split; [by apply map_Forall_delete|].
    split; [by apply map_Forall_delete|].
    rewrite (sumReq_delete allTasks _ k c Hk) in HU.
    rewrite (sumReq_delete IsBackfill _ k c Hk) in HB.
    rewrite (sumReq_delete (isStatus Releasing) _ k c Hk) in HR.
    unfold allTasks at 1 in HU. unfold isStatus at 1 in HR.
    split; [done|]. split; [done|].
    split; [rewrite HU; apply radd_rsub|].
    split; [rewrite HB; destruct (IsBackfill c); [apply radd_rsub | done]|].
    rewrite HU in HI. rewrite HR, HU.
    destruct (Status c); try congruence;
      (rewrite ?bool_decide_eq_true_2 by done);
      (rewrite ?bool_decide_eq_false_2 by done);
      (split; resource_arith).
  - split; [by apply map_Forall_delete | done].
Qed.

(** X10.  Counters that agree with the node object and the tasks keep
    agreeing across any sequence of successful [AddTask] and [RemoveTask],
    as long as every task added is not Pipelined, asks for no more than
    [Idle] holds at that moment, and has [IsBackfill] set when
    [CheckBackfill] holds of its pod: [Used], [Backfilled] and [Releasing]
    remain the sums of the requests of all the tasks, of the backfill
    tasks and of the Releasing tasks, and [Idle + Used = Allocatable]. *)
Theorem recounted_kept cb ni ops : forall s s' v,
  wfNode s ni ->
  view s ni = Some v ->
  recounted cb v ->
  plainAdds cb ni ops s = true ->
  runOps cb ni ops s = Some (None, s') ->
  exists v',
    wfNode s' ni /\ view s' ni = Some v' /\ vNode v' = vNode v /\
    recounted cb v'.
Proof.
  induction ops as [|op rest IH]; intros s s' v Hwf Hv Hrec Hplain Hrun.
  - injection Hrun as <-. by exists v.
  - apply runOps_cons in Hrun as (s1 & Hop & Hrest).
    simpl in Hplain. rewrite Hop in Hplain.
    apply andb_true_iff in Hplain as [Hhere Hlater].
    destruct op as [task|task]; simpl in Hop.
    + destruct (AddTask_ok_inv cb s ni task s1 v Hwf Hv Hop)
        as (t & Ht & Hk & Hwf1 & Hv1).
      rewrite Ht, Hv in Hhere.
      apply andb_true_iff in Hhere as [Hhere Hflag].
      apply andb_true_iff in Hhere as [Hst Hfit].
      apply negb_true_iff, bool_decide_eq_false in Hst.
      apply LessEqual_rle in Hfit.
      assert (Hflag' : cb (TaskPod t) = true -> IsBackfill t = true).
      { intros E. rewrite E in Hflag. exact Hflag. }
      destruct (IH s1 s' _ Hwf1 Hv1
                  (recounted_addTaskView cb t v Hrec Hk Hst Hfit Hflag')
                  Hlater Hrest)
        as (v' & Hwf' & Hv' & Hn' & Hrec').
      exists v'. split; [done|]. split; [done|].
      split; [by rewrite Hn', addTaskView_node | done].
    + destruct (RemoveTask_ok_inv s ni task s1 v Hwf Hv Hop)
        as (t & c & Ht & Hk & Hwf1 & Hv1).
      destruct (IH s1 s' _ Hwf1 Hv1
                  (recounted_removeTaskView cb _ c v Hrec Hk) Hlater Hrest)
        as (v' & Hwf' & Hv' & Hn' & Hrec').
      exists v'. split; [done|]. split; [done|].
      split; [by rewrite Hn', removeTaskView_node | done].
Qed.

Lemma recounted_kept_witness :
  exists v',
    wfNode (exec (runOps noBackfill 1%positive
                    [OpRemoveTask 1%positive; OpAddTask 1%positive])
                 oneTaskNodeStore) 1%positive /\
    view (exec (runOps noBackfill 1%positive
                  [OpRemoveTask 1%positive; OpAddTask 1%positive])
               oneTaskNodeStore) 1%positive = Some v' /\
    vNode v' = vNode oneTaskView /\
    recounted noBackfill v'.
Proof.
  apply (recounted_kept noBackfill 1%positive
           [OpRemoveTask 1%positive; OpAddTask 1%positive]
           oneTaskNodeStore _ oneTaskView).
  - apply (bool_decide_unpack _). vm_compute. reflexivity.
  - vm_compute. reflexivity.
  - apply (bool_decide_unpack _). vm_compute. reflexivity.
  - vm_compute. reflexivity.
  - vm_compute. reflexivity.
Defined.

(** * Pods and String *)

Lemma podsLoop_run s ts tvs :
  Forall2 (fun kl t => taskinfos s !! kl.2 = Some t) ts tvs ->
  forall pods, podsLoop ts pods s = Some (pods ++ (TaskPod <$> tvs), s).
Proof.
  induction 1 as [|[k l] t ts tvs Ht _ IH]; intros pods; simpl.
  - by rewrite app_nil_r.
  - simpl in Ht. rewrite (run_bind _ _ _ _ _ (getTask_run _ _ _ Ht)).
    rewrite IH. by rewrite <- app_assoc.
Qed.

(** The tasks walked, paired with their keys, are the task map. *)
Lemma deref_zip s (ts : list (TaskID * loc)) tvs :
  Forall2 (fun kl t => taskinfos s !! kl.2 = Some t) ts tvs ->
  derefTasks s (list_to_map ts) = list_to_map (zip ts.*1 tvs).
Proof.
  induction 1 as [|[k l] t ts tvs Ht _ IH]; simpl.
  - unfold derefTasks. by rewrite omap_empty.
  - simpl in Ht. by rewrite (derefTasks_insert _ _ _ _ _ Ht), IH.
Qed.

(** X11.  [Pods] returns the pods of the tasks on the node, one for each
    task and in the order in which the task map is walked: whatever that
    order, the list is a permutation of the pods of the tasks.  It writes
    nothing. *)
Theorem Pods_lists_the_tasks rangeOrder s ni v :
  (forall m, rangeOrder m ≡ₚ map_to_list m) ->
  wfNode s ni ->
  view s ni = Some v ->
  exists pods,
    Pods rangeOrder ni s = Some (pods, s) /\
    pods ≡ₚ (fun kt => TaskPod kt.2) <$> map_to_list (vTasks v).
Proof.
  intros Hperm Hwf Hv.
  apply view_unfold in Hv as (n & Hn & Hvn).
  rewrite (wfNode_unfold _ _ _ Hn) in Hwf. destruct Hwf as [_ Hall].
  pose proof (viewOf_Some _ _ _ Hvn) as (_ & _ & _ & _ & _ & _ & _ & Hts).
  destruct (range_list_to_map rangeOrder (Tasks n) (Hperm _)) as [Hndts Hl2m].
  destruct (deref_walk s (rangeOrder (Tasks n))) as [tvs Htvs].
  { rewrite Forall_forall. intros [k l] Hin. simpl.
    rewrite Hperm in Hin. apply elem_of_map_to_list in Hin.
    by apply (Hall k l). }
  exists (TaskPod <$> tvs). split.
  - unfold Pods. rewrite (run_bind _ _ _ _ _ (getNode_run _ _ _ Hn)).
    by rewrite (podsLoop_run s _ tvs Htvs).
  - pose proof (Forall2_length _ _ _ Htvs) as Hlen.
    rewrite Hts, <- Hl2m, (deref_zip s _ tvs Htvs).
    rewrite map_to_list_to_map
      by (rewrite fst_zip; [done | rewrite length_fmap; lia]).
    change (fun kt : TaskID * TaskInfo => TaskPod kt.2)
      with (TaskPod ∘ @snd TaskID TaskInfo).
    rewrite list_fmap_compose. rewrite snd_zip; [done|].
    rewrite length_fmap. lia.
Qed.

Lemma Pods_lists_the_tasks_witness :
  exists pods,
    Pods map_to_list 1%positive oneTaskNodeStore =
      Some (pods, oneTaskNodeStore) /\
    pods ≡ₚ (fun kt => TaskPod kt.2) <$> map_to_list (vTasks oneTaskView).
Proof.
  apply (Pods_lists_the_tasks map_to_list oneTaskNodeStore 1%positive
           oneTaskView).
  - intros m. reflexivity.
  - apply (bool_decide_unpack _). vm_compute. reflexivity.
  - vm_compute. reflexivity.
Defined.

Lemma stringLoop_run showTask s ts : forall i res,
  exists str, stringLoop showTask ts i res s = Some (str, s).
Proof.
  induction ts as [|[k l] ts IH]; intros i res; simpl.
  - by exists res.
  - unfold peekTask. unfold mbind at 1, M_bind at 1. apply IH.
Qed.

Lemma NodeInfo_String_run rangeOrder showResource showTask showTaints s ni n :
  nodeinfos s !! ni = Some n ->
  match NNode n with
  | None =>
      NodeInfo_String rangeOrder showResource showTask showTaints ni s = None
  | Some _ =>
      exists str,
        NodeInfo_String rangeOrder showResource showTask showTaints ni s =
          Some (str, s)
  end.
Proof.
  intros Hn. unfold NodeInfo_String.
  rewrite (run_bind _ _ _ _ _ (getNode_run _ _ _ Hn)).
  destruct (stringLoop_run showTask s (rangeOrder (Tasks n)) 0 "")
    as [res Hres].
  rewrite (run_bind _ _ _ _ _ Hres).
  unfold peekResource. unfold mbind, M_bind.
  destruct (NNode n); [eauto | done].
Qed.

(** X12.  A node made without node object cannot be printed: whatever
    tasks were added and removed since, [String] panics, because it
    reads the taints of the node object.  Once [SetNode] has given the
    node object, [String] returns, and writes nothing. *)
Theorem String_panics_until_SetNode
    cb rangeOrder showResource showTask showTaints s0 ni s1 ops s2 node :
  (forall m, rangeOrder m ≡ₚ map_to_list m) ->
  NewNodeInfo None s0 = Some (ni, s1) ->
  runOps cb ni ops s1 = Some (None, s2) ->
  NodeInfo_String rangeOrder showResource showTask showTaints ni s2 = None /\
  exists s3 str,
    SetNode rangeOrder ni node s2 = Some (tt, s3) /\
    NodeInfo_String rangeOrder showResource showTask showTaints ni s3 =
      Some (str, s3).
Proof.
  intros Hperm Hnew Hrun.
  destruct (NewNodeInfo_spec None s0)
    as (ni' & n & s1' & Hnew' & _ & _ & _ & _ & _ & _ & _ & Hwf & Hv).
  rewrite Hnew in Hnew'. injection Hnew' as <- <-.
  destruct (runOps_nil cb ni ops s1 s2 _ Hwf Hv eq_refl Hrun)
    as (v2 & Hwf2 & Hv2 & Hnode2 & _).
  split.
  - pose proof Hv2 as Hv2'. apply view_unfold in Hv2' as (n2 & Hn2 & Hvn2).
    pose proof (viewOf_Some _ _ _ Hvn2) as (_ & _ & _ & _ & _ & _ & Hnd & _).
    pose proof (NodeInfo_String_run rangeOrder showResource showTask
                  showTaints s2 ni n2 Hn2) as H.
    rewrite <- Hnd, Hnode2 in H. exact H.
  - destruct (SetNode_spec rangeOrder s2 ni node v2 Hperm Hwf2 Hv2)
      as (s3 & Hset & _ & _ & Hv3).
    apply view_unfold in Hv3 as (n3 & Hn3 & Hvn3).
    pose proof (viewOf_Some _ _ _ Hvn3) as (_ & _ & _ & _ & _ & _ & Hnd & _).
    pose proof (NodeInfo_String_run rangeOrder showResource showTask
                  showTaints s3 ni n3 Hn3) as H.
    rewrite <- Hnd in H. simpl in H. destruct H as [str H].
    by exists s3, str.
Qed.

Lemma String_panics_until_SetNode_witness :
  let show {A} (_ : A) : string := "" in
  let s2 := exec (runOps noBackfill 1%positive [OpAddTask 1%positive])
              (freshNodeStore None (task1 Running false req1)) in
  NodeInfo_String map_to_list show show show 1%positive s2 = None /\
  exists s3 str,
    SetNode map_to_list 1%positive node1 s2 = Some (tt, s3) /\
    NodeInfo_String map_to_list show show show 1%positive s3 = Some (str, s3).
Proof.
  apply (String_panics_until_SetNode noBackfill map_to_list
           (fun _ => "") (fun _ => "") (fun _ => "")
           (oneTaskStore (task1 Running false req1)) 1%positive
           (freshNodeStore None (task1 Running false req1))
           [OpAddTask 1%positive]).
  - intros m. reflexivity.
  - vm_compute. reflexivity.
  - vm_compute. reflexivity.
Defined.

(** * getActions *)

Section GetActionsFacts.

Variable Action : Type.
Variable GetAction : string -> option Action * bool.
Variable ActionNameOf : Action -> string.
Variable BackfillFlagName : string.

Abbreviation getActionsLoop :=
  (getActionsLoop Action GetAction ActionNameOf BackfillFlagName).
Abbreviation getActions :=
  (getActions Action GetAction ActionNameOf BackfillFlagName).

Lemma last_backfillEntries_cons ca l :
  last (backfillEntries (ca :: l)) =
  match last (backfillEntries l) with
  | Some x => Some x
  | None => if decide (ActionName ca = "backfill") then Some ca else None
  end.
Proof.
  unfold backfillEntries. rewrite filter_cons.
  destruct (decide (ActionName ca = "backfill")); [|by destruct (last _)].
  rewrite last_cons. by destruct (last _).
Qed.

Lemma getActionsLoop_ok l : forall acts0 opts0 acts opts,
  (forall name a, GetAction name = (Some a, true) -> ActionNameOf a = name) ->
  getActionsLoop l acts0 opts0 = Some (inr (acts, opts)) ->
  acts = acts0 ++ map (fun ca => (GetAction (ActionName ca)).1) l /\
  opts = match last (backfillEntries l) with
         | None => opts0
         | Some ca =>
             <["backfill" :=
                 {[BackfillFlagName :=
                     optionValue (Options ca) BackfillFlagName]}]> opts0
         end.
Proof.
  induction l as [|ca l IH]; intros acts0 opts0 acts opts Hnames Hrun.
  - injection Hrun as <- <-. by rewrite app_nil_r.
  - simpl in Hrun. rewrite last_backfillEntries_cons.
    destruct (GetAction (ActionName ca)) as [[a|] [|]] eqn:Hget;
      simpl in Hrun; try discriminate Hrun.
    rewrite (Hnames _ _ Hget) in Hrun.
    apply IH in Hrun as [-> ->]; [|done].
    split; [simpl; by rewrite <- app_assoc, Hget|].
    destruct (last (backfillEntries l)) as [x|];
      destruct (decide (ActionName ca = "backfill")); try done.
    by rewrite insert_insert_eq.
Qed.

Lemma getActionsLoop_miss l : forall acts0 opts0,
  (forall name, (GetAction name).2 = false -> (GetAction name).1 = None) ->
  (forall e, getActionsLoop l acts0 opts0 <> Some (inl e)) /\
  (Exists (fun ca => (GetAction (ActionName ca)).2 = false) l ->
   getActionsLoop l acts0 opts0 = None).
Proof.
  induction l as [|ca l IH]; intros acts0 opts0 Hmiss.
  - split; [done|]. by intros ?%Exists_nil.
  - simpl. pose proof (Hmiss (ActionName ca)) as Hca.
    destruct (GetAction (ActionName ca)) as [[a|] [|]] eqn:Hget; simpl in *.
    + split; [by apply IH|].
      intros [Hf|Hex]%Exists_cons; [|by apply IH].
      rewrite Hget in Hf. discriminate Hf.
    + by specialize (Hca eq_refl).
    + done.
    + done.
Qed.

(** X13.  Whenever [getActions] returns its results, with a registry that
    answers a name with an action of that name: the actions are those of
    the configuration, one for each entry and in order, and of all the
    options of the configuration only one value is passed on, under the
    key "backfill": the value that the last backfill entry has for
    [conf.BackfillFlagName] (the empty string if it has none).  The
    options of other actions, and other options of backfill, are
    dropped. *)
Theorem getActions_passes_only_the_flag conf acts opts :
  (forall name a, GetAction name = (Some a, true) -> ActionNameOf a = name) ->
  getActions conf = Some (inr (acts, opts)) ->
  acts = map (fun ca => (GetAction (ActionName ca)).1) (Actions conf) /\
  opts = match last (backfillEntries (Actions conf)) with
         | None => ∅
         | Some ca =>
             {["backfill" :=
                 {[BackfillFlagName :=
                     optionValue (Options ca) BackfillFlagName]}]}
         end.
Proof.
  intros Hnames Hrun.
  destruct (getActionsLoop_ok _ _ _ _ _ Hnames Hrun) as [Ha Ho].
  split; [done|]. rewrite Ho.
  destruct (last _); [by rewrite insert_empty | done].
Qed.

(** X14.  With a registry that answers a name it does not know with the
    nil action, as a lookup in a Go map does, [getActions] never returns
    its error: an action of the configuration that is not registered
    makes it panic, at the call of [Name] that builds the message. *)
Theorem getActions_error_is_dead conf :
  (forall name, (GetAction name).2 = false -> (GetAction name).1 = None) ->
  (forall e, getActions conf <> Some (inl e)) /\
  (Exists (fun ca => (GetAction (ActionName ca)).2 = false) (Actions conf) ->
   getActions conf = None).
Proof. intros Hmiss. by apply getActionsLoop_miss. Qed.

Variable Unmarshal : string -> string + SchedulerConfiguration.
Variable ApplyPluginConfDefaults : PluginOption -> PluginOption.

(** The flag that [loadSchedulerConf] leaves on a backfill entry: the
    one configured, or "false". *)
Lemma loaded_then_walked l :
  (forall name, (GetAction name).2 = true -> is_Some (GetAction name).1) ->
  (forall name a, GetAction name = (Some a, true) -> ActionNameOf a = name) ->
  Forall (fun ca => (GetAction (ActionName ca)).2 = true) l ->
  exists l',
    Scheduler.loadActions (option Action) (registered Action GetAction)
      BackfillFlagName l = inr l' /\
    forall acts0 opts0,
      getActionsLoop l' acts0 opts0 =
        Some (inr (acts0 ++ map (fun ca => (GetAction (ActionName ca)).1) l,
                   match last (backfillEntries l) with
                   | None => opts0
                   | Some ca =>
                       <["backfill" :=
                           {[BackfillFlagName :=
                               default "false"
                                 (Options ca ≫= fun m => m !! BackfillFlagName)]}]>
                         opts0
                   end)).
Proof.
  intros Hnonnil Hnames. induction 1 as [|ca l Hca _ (l' & Hl' & IH)].
  - exists []. split; [done|]. intros acts0 opts0. simpl.
    by rewrite app_nil_r.
  - pose proof (Hnonnil (ActionName ca) Hca) as [a Ha].
    destruct (GetAction (ActionName ca)) as [x found] eqn:Hget.
    simpl in Hca, Ha. subst x found.
    simpl. unfold Scheduler.loadAction at 1. unfold registered at 1.
    rewrite Hget, Hl'. eexists. split; [reflexivity|].
    intros acts0 opts0. simpl. rewrite Hget. simpl.
    rewrite IH, (Hnames _ _ Hget), last_backfillEntries_cons.
    rewrite <- app_assoc. simpl.
    destruct (decide (ActionName ca = "backfill")) as [Hb|Hb].
    + destruct (last (backfillEntries l)) as [x|].
      * by rewrite insert_insert_eq.
      * do 3 f_equal. f_equal. unfold optionValue. simpl.
        destruct (Options ca) as [m|]; simpl.
        -- destruct (m !! BackfillFlagName) as [v|] eqn:Hm; simpl.
           ++ by rewrite Hm.
           ++ by rewrite lookup_insert_eq.
        -- rewrite lookup_empty. by rewrite lookup_insert_eq.
    + by destruct (last (backfillEntries l)).
Qed.

(** X15.  Loading, then [getActions].  When the YAML reader accepts the
    string and every action it lists is registered (under its own name,
    and not as the nil action), [loadSchedulerConf] succeeds and
    [getActions] of its result neither panics nor fails: it returns one
    action for each entry, in order, and for the backfill action the
    value of [conf.BackfillFlagName] that the last backfill entry of the
    configuration sets, "false" if it sets none. *)
Theorem getActions_after_load confStr conf0 :
  (forall name, (GetAction name).2 = true -> is_Some (GetAction name).1) ->
  (forall name a, GetAction name = (Some a, true) -> ActionNameOf a = name) ->
  Unmarshal confStr = inr conf0 ->
  Forall (fun ca => (GetAction (ActionName ca)).2 = true) (Actions conf0) ->
  exists conf,
    Scheduler.loadSchedulerConf Unmarshal (option Action)
      (registered Action GetAction) ApplyPluginConfDefaults BackfillFlagName
      confStr = inr conf /\
    getActions conf =
      Some (inr (map (fun ca => (GetAction (ActionName ca)).1) (Actions conf0),
                 match last (backfillEntries (Actions conf0)) with
                 | None => ∅
                 | Some ca =>
                     {["backfill" :=
                         {[BackfillFlagName :=
                             default "false"
                               (Options ca ≫= fun m => m !! BackfillFlagName)]}]}
                 end)).
Proof.
  intros Hnonnil Hnames Hu Hreg.
  destruct (loaded_then_walked _ Hnonnil Hnames Hreg) as (l' & Hl' & Hwalk).
  unfold Scheduler.loadSchedulerConf. rewrite Hu, Hl'.
  eexists. split; [reflexivity|].
  unfold Scheduler.getActions. simpl. rewrite Hwalk. simpl.
  destruct (last _); [by rewrite insert_empty | done].
Qed.

End GetActionsFacts.

Lemma getActions_passes_only_the_flag_witness :
  let conf :=
    mkSchedulerConfiguration
      [mkActionOption "backfill" (Some {["verbose" := "1"]});
       mkActionOption "allocate" (Some {[exampleFlagName := "true"]})] [] in
  [Some "backfill"; Some "allocate"] =
    map (fun ca => (namedRegistry (ActionName ca)).1) (Actions conf) /\
  ({["backfill" := {[exampleFlagName := ""]}]}
     : gmap string (gmap string string)) =
    match last (backfillEntries (Actions conf)) with
    | None => ∅
    | Some ca =>
        {["backfill" :=
            {[exampleFlagName := optionValue (Options ca) exampleFlagName]}]}
    end.
Proof.
  apply (getActions_passes_only_the_flag string namedRegistry (fun a => a)
           exampleFlagName).
  - intros name a. unfold namedRegistry.
    destruct (exampleGetAction name); [|done]. by intros [= <-].
  - vm_compute. reflexivity.
Defined.

Lemma getActions_error_is_dead_witness :
  let conf :=
    mkSchedulerConfiguration
      [mkActionOption "allocate" None; mkActionOption "preempt" None] [] in
  (forall e, getActions string namedRegistry (fun a => a) exampleFlagName conf
             <> Some (inl e)) /\
  (Exists (fun ca => (namedRegistry (ActionName ca)).2 = false) (Actions conf) ->
   getActions string namedRegistry (fun a => a) exampleFlagName conf = None).
Proof.
  apply (getActions_error_is_dead string namedRegistry (fun a => a)
           exampleFlagName).
  intros name. unfold namedRegistry.
  by destruct (exampleGetAction name).
Defined.

Lemma getActions_after_load_witness :
  exists conf,
    loadSchedulerConf exampleUnmarshal (option string)
      (registered string namedRegistry) (fun p => p) exampleFlagName
      defaultSchedulerConf = inr conf /\
    getActions string namedRegistry (fun a => a) exampleFlagName conf =
      Some (inr (map (fun ca => (namedRegistry (ActionName ca)).1)
                     (Actions defaultParsed),
                 match last (backfillEntries (Actions defaultParsed)) with
                 | None => ∅
                 | Some ca =>
                     {["backfill" :=
                         {[exampleFlagName :=
                             default "false"
                               (Options ca ≫= fun m => m !! exampleFlagName)]}]}
                 end)).
Proof.
  apply (getActions_after_load string namedRegistry (fun a => a)
           exampleFlagName exampleUnmarshal (fun p => p)
           defaultSchedulerConf defaultParsed).
  - intros name. unfold namedRegistry.
    destruct (exampleGetAction name); [eauto | done].
  - intros name a. unfold namedRegistry.
    destruct (exampleGetAction name); [|done]. by intros [= <-].
  - vm_compute. reflexivity.
  - repeat constructor.
Defined.

(** * What loading changes *)

Section LoadAgain.

Variable Unmarshal : string -> string + SchedulerConfiguration.
Variable Action : Type.
Variable GetAction : string -> option Action.
Variable ApplyPluginConfDefaults : PluginOption -> PluginOption.
Variable BackfillFlagName : string.

Abbreviation loadAction := (loadAction Action GetAction BackfillFlagName).
Abbreviation loadActions := (loadActions Action GetAction BackfillFlagName).
Abbreviation loadSchedulerConf :=
  (loadSchedulerConf Unmarshal Action GetAction ApplyPluginConfDefaults
                     BackfillFlagName).

Lemma loadAction_keeps a a' :
  loadAction a = inr a' -> optionsKept BackfillFlagName a a'.
Proof.
  unfold Scheduler.loadAction.
  destruct (GetAction (ActionName a)); [|done].
  intros [= <-]. split; [done|]. simpl. eexists. split; [reflexivity|].
  replace (match Options a with Some m => m | None => ∅ end)
    with (default ∅ (Options a)) by (by destruct (Options a)).
  destruct (decide (ActionName a = "backfill")) as [Hb|Hb].
  - destruct (default ∅ (Options a) !! BackfillFlagName) as [x|] eqn:Hf.
    + split; [done|]. intros k v Hk Hn. congruence.
    + split; [by apply insert_subseteq|].
      intros k v Hk Hn. destruct (decide (k = BackfillFlagName)) as [->|Hne].
      * rewrite lookup_insert_eq in Hk. by injection Hk as <-.
      * rewrite lookup_insert_ne in Hk by done. congruence.
  - split; [done|]. intros k v Hk Hn. congruence.
Qed.

Lemma loadAction_again a a' : loadAction a = inr a' -> loadAction a' = inr a'.
Proof.
  unfold Scheduler.loadAction.
  destruct (GetAction (ActionName a)) eqn:Hget; [|done].
  intros [= <-]. simpl. rewrite Hget. do 2 f_equal.
  destruct (decide (ActionName a = "backfill")); [|done].
  set (m := match Options a with Some m => m | None => ∅ end).
  destruct (m !! BackfillFlagName) eqn:Hf.
  - by rewrite Hf.
  - by rewrite lookup_insert_eq.
Qed.

Lemma loadActions_again l : forall l',
  loadActions l = inr l' -> loadActions l' = inr l'.
Proof.
  induction l as [|a l IH]; simpl; intros l' H.
  - by injection H as <-.
  - destruct (loadAction a) as [e|a'] eqn:Ha; [done|].
    destruct (loadActions l) as [e|rest'] eqn:Hl; [done|].
    injection H as <-. simpl.
    by rewrite (loadAction_again _ _ Ha), (IH _ eq_refl).
Qed.

(** X16.  [loadSchedulerConf] never changes or removes an option that
    the configuration sets: each action returned has the name of the
    action listed at its place and all of its options with their values,
    so a configured backfill flag is kept.  The only entry ever added is
    [conf.BackfillFlagName] with value "false", and only on an action
    named "backfill". *)
Theorem loadSchedulerConf_keeps_options confStr c c' :
  Unmarshal confStr = inr c ->
  loadSchedulerConf confStr = inr c' ->
  Forall2 (optionsKept BackfillFlagName) (Actions c) (Actions c').
Proof.
  intros Hu. unfold Scheduler.loadSchedulerConf. rewrite Hu.
  destruct (loadActions (Actions c)) as [e|l'] eqn:Hl; [done|].
  intros [= <-]. simpl.
  apply loadActions_inr in Hl.
  eapply Forall2_impl; [exact Hl|]. apply loadAction_keeps.
Qed.

(** X17.  Loading is idempotent.  A configuration that
    [loadSchedulerConf] returned, read again, is returned as it is: no
    action is refused and no option is added the second time, provided
    [ApplyPluginConfDefaults] does nothing to a plugin it has already
    completed. *)
Theorem loadSchedulerConf_idempotent confStr confStr' c' :
  (forall p, ApplyPluginConfDefaults (ApplyPluginConfDefaults p) =
             ApplyPluginConfDefaults p) ->
  loadSchedulerConf confStr = inr c' ->
  Unmarshal confStr' = inr c' ->
  loadSchedulerConf confStr' = inr c'.
Proof.
  intros Hidem Hload Hu'.
  unfold Scheduler.loadSchedulerConf in *. rewrite Hu'.
  destruct (Unmarshal confStr) as [msg|c]; [done|].
  destruct (loadActions (Actions c)) as [e|l'] eqn:Hl; [done|].
  injection Hload as <-. simpl.
  rewrite (loadActions_again _ _ Hl). do 2 f_equal.
  rewrite map_map. apply map_ext. intros tier. simpl. f_equal.
  rewrite map_map. by apply map_ext.
Qed.

End LoadAgain.

Lemma loadSchedulerConf_keeps_options_witness :
  Forall2 (optionsKept exampleFlagName)
    (Actions defaultParsed) (Actions defaultLoaded).
Proof.
  apply (loadSchedulerConf_keeps_options exampleUnmarshal unit
           exampleGetAction (fun p => p) exampleFlagName
           defaultSchedulerConf defaultParsed defaultLoaded).
  - vm_compute. reflexivity.
  - vm_compute. reflexivity.
Defined.

Lemma loadSchedulerConf_idempotent_witness :
  loadSchedulerConf loadedUnmarshal unit exampleGetAction (fun p => p)
    exampleFlagName defaultSchedulerConf = inr defaultLoaded.
Proof.
  apply (loadSchedulerConf_idempotent loadedUnmarshal unit exampleGetAction
           (fun p => p) exampleFlagName "" defaultSchedulerConf defaultLoaded).
  - intros p. reflexivity.
  - vm_compute. reflexivity.
  - reflexivity.
Defined.
